(** * BehaviorTree.CPP: the XML loader, instantiator and writer

    A shallow embedding of [src/src/xml_parsing.cpp] (with the [Tree]
    structure of [include/behaviortree_cpp/xml_parsing.h]) and the
    properties of its natural-language specification.

    Conventions of the embedding:
    - a tinyxml2 element is a value [XMLElement]: name, line number,
      attributes in document order, child elements in document order;
    - [std::unordered_map] is stdpp's [gmap]; iterating one is
      [map_to_list];
    - every [throw] is a value [Err e] of the monad [Result]; the
      constructor of [e] names the kind of the error in the taxonomy of the
      specification, and carries what the message is formatted from; a
      message that [sprintf] formats into a buffer that is too small for
      it is undefined behaviour, recorded as [BufferOverflow];
    - pointers to nodes and to blackboards are indices into the sequence
      that owns them ([Tree.nodes], the blackboard store); a null pointer
      is [None]. *)

From Stdlib Require Import ZArith Lia Ascii.
From stdpp Require Import ssreflect gmap strings list fin_maps pretty.

#[local] Set Warnings "-register-all,-rewrite-rw,-clear-no-such-hyp".

(** ** Errors *)

Inductive Error : Type :=
  | XmlSyntaxError (error_name : string)
      (* "Error parsing the XML: %s" *)
  | SchemaError (line : option Z) (text : string)
      (* "Error at line %d: -> %s", and the two checks without a line *)
  | ConfigurationError
      (* [ros_pkg] used in a build without ROS *)
  | UnknownNodeError (ID : string)
      (* ID + " is not a registered node, nor a Subtree" *)
  | TypoError (port ID instance_name : string)
      (* "Possible typo. In the XML, you specified the port [%s] ..." *)
  | TypeMismatchError (port_key prev_type new_type : string)
      (* "The creation of the tree failed because the port [%s] ..." *)
  | UsageError (text : string)
      (* main tree not selected, null root blackboard *)
  | LogicError (text : string)
      (* raised by a collaborator's contract (DecoratorNode::setChild) *)
  | OutOfRange
      (* std::out_of_range of [manifests().at(ID)] *)
  | NullDereference
      (* a null pointer is dereferenced: no exception, the program is lost *)
  | BufferOverflow
      (* [sprintf] writes past the end of its buffer: the program is lost *)
  | OutOfFuel.
      (* the recursion of the source does not end within the given depth *)

(** [char buffer[size]; sprintf(buffer, ...); throw RuntimeError(buffer);]
    where [message] is the text that [sprintf] formats: the text and the
    terminator of the string have to fit into the buffer for the error
    [e] to be thrown. *)
Definition thrown_with_buffer (size : nat) (message : string) (e : Error) : Error :=
  if decide (String.length message < size) then e else BufferOverflow.

Inductive Result (A : Type) : Type :=
  | Ok (a : A)
  | Err (e : Error).
Arguments Ok {A} a.
Arguments Err {A} e.

Notation "'do' x <- m ; k" :=
  (match m with Ok x => k | Err e => Err e end)
  (at level 10, x pattern, m at level 100, k at level 200,
   format "'[v' 'do'  x  <-  m ; '/' k ']'").
Notation "'check' m ; k" :=
  (match m with Ok _ => k | Err e => Err e end)
  (at level 10, m at level 100, k at level 200,
   format "'[v' 'check'  m ; '/' k ']'").

Definition is_Ok {A} (r : Result A) : bool :=
  match r with Ok _ => true | Err _ => false end.

(** [if (cond) throw e;] *)
Definition throw_if (cond : bool) (e : Error) : Result unit :=
  if cond then Err e else Ok tt.

(** A loop of the source whose body can throw: the body runs on every
    element of the sequence, in order, on the state that the previous
    round has left. *)
Definition for_each {A S : Type} (body : A → S → Result S) : list A → S → Result S :=
  fix go (l : list A) (s : S) : Result S :=
    match l with
    | [] => Ok s
    | a :: l' => do s <- body a s; go l' s
    end.

(** [unordered_map::insert]: an entry that exists is left as it is. *)
Definition map_insert_new {A} (k : string) (v : A) (m : gmap string A) : gmap string A :=
  match m !! k with
  | Some _ => m
  | None => <[k := v]> m
  end.

(** ** tinyxml2 documents, as the source reads and builds them *)

Inductive XMLElement : Type :=
  Element (name : string) (line : Z)
          (attributes : list (string * string))
          (children : list XMLElement).

Definition Name (e : XMLElement) : string :=
  match e with Element n _ _ _ => n end.
Definition GetLineNum (e : XMLElement) : Z :=
  match e with Element _ l _ _ => l end.
Definition Attributes (e : XMLElement) : list (string * string) :=
  match e with Element _ _ a _ => a end.
Definition ChildElements (e : XMLElement) : list XMLElement :=
  match e with Element _ _ _ c => c end.

(** [element->Attribute(name)]: the value of the first attribute of that
    name, null when there is none. *)
Fixpoint find_attribute (n : string) (l : list (string * string)) : option string :=
  match l with
  | [] => None
  | (k, v) :: l' => if decide (k = n) then Some v else find_attribute n l'
  end.
Definition Attribute (e : XMLElement) (n : string) : option string :=
  find_attribute n (Attributes e).

(** [FirstChildElement(name)] followed by [NextSiblingElement(name)] until
    null: the children of that name, in document order. *)
Definition ChildElementsNamed (n : string) (e : XMLElement) : list XMLElement :=
  filter (λ c, Name c = n) (ChildElements e).

(** The lambda [ChildrenCount] of [verifyXML]. *)
Definition ChildrenCount (e : XMLElement) : nat := length (ChildElements e).

(** [element->SetAttribute(name, value)]: the value of an existing
    attribute is replaced, a new attribute is added last. *)
Fixpoint set_attribute (n v : string) (l : list (string * string)) : list (string * string) :=
  match l with
  | [] => [(n, v)]
  | (k, w) :: l' => if decide (k = n) then (k, v) :: l' else (k, w) :: set_attribute n v l'
  end.
Definition SetAttribute (n v : string) (e : XMLElement) : XMLElement :=
  match e with Element nm ln a c => Element nm ln (set_attribute n v a) c end.

(** [parent->InsertEndChild(child)] *)
Definition InsertEndChild (child : XMLElement) (parent : XMLElement) : XMLElement :=
  match parent with Element nm ln a c => Element nm ln a (c ++ [child]) end.

(** [doc.NewElement(name)]: no attribute, no child, line number 0. *)
Definition NewElement (n : string) : XMLElement := Element n 0%Z [] [].

(** A document after [Parse] or [LoadFile]: [Error()] with its
    [ErrorName()], or the root element (null for a document without one). *)
Inductive XMLDocument : Type :=
  | DocError (error_name : string)
  | Document (root : option XMLElement).

(** ** The collaborators: node kinds, manifests, the factory *)

(** Modelled from the spec: the enumeration [NodeType] (its declaration is
    in basic_types.h); the kinds of a manifest are Action, Condition,
    Control, Decorator and SubTree. *)
Inductive NodeType : Type := ACTION | CONDITION | CONTROL | DECORATOR | SUBTREE.

Global Instance NodeType_eq_dec : EqDecision NodeType.
Proof. solve_decision. Defined.

(** Modelled from the spec: [toStr(NodeType)] (basic_types.cpp), the kind
    tag the writer uses as the name of an element. *)
Definition toStr (t : NodeType) : string :=
  match t with
  | ACTION => "Action"
  | CONDITION => "Condition"
  | CONTROL => "Control"
  | DECORATOR => "Decorator"
  | SUBTREE => "SubTree"
  end.

(** Modelled from the spec: the direction of a port. *)
Inductive PortType : Type := INPUT | OUTPUT | INOUT.

Global Instance PortType_eq_dec : EqDecision PortType.
Proof. solve_decision. Defined.

(** The type token of a port is the address of a [std::type_info]; the
    embedding identifies the token with the name it prints. *)
Definition TypeToken : Type := string.

(** Modelled from the spec: [PortInfo], a direction ([type()]) and an
    optional type token ([info()], null when the port is untyped). *)
Record PortInfo : Type := mkPortInfo {
  port_type : PortType;
  port_info : option TypeToken
}.

(** Modelled from the spec: [TreeNodeManifest]. *)
Record TreeNodeManifest : Type := mkManifest {
  manifest_type : NodeType;
  registration_ID : string;
  ports : gmap string PortInfo
}.

(** Modelled from the spec: what the loader and the writer read of a
    [BehaviorTreeFactory]: [builders()] (only the keys are used),
    [manifests()] and [builtinNodes()]. *)
Record BehaviorTreeFactory : Type := mkFactory {
  builders : gset string;
  manifests : gmap string TreeNodeManifest;
  builtinNodes : gset string
}.

(** ** Nodes and trees *)

(** [PortsRemapping] is [std::unordered_map<std::string, std::string>]. *)
Abbreviation PortsRemapping := (gmap string string).

Record NodeConfiguration : Type := mkConfig {
  blackboard : option nat;
  input_ports : PortsRemapping;
  output_ports : PortsRemapping
}.

(** Modelled from the spec: a [TreeNode] as the loader and the writer see
    it. [node_children] holds what [ControlNode::children()] returns, and
    for a decorator or a subtree node its single [child()] (no element:
    the null pointer). A child is the index of the node in [Tree.nodes]. *)
Record TreeNode : Type := mkNode {
  node_type : NodeType;
  registrationName : string;
  node_name : string;
  config : NodeConfiguration;
  node_children : list nat
}.

(** [dynamic_cast<ControlNode*>] and [dynamic_cast<DecoratorNode*>].
    Modelled from the spec: control nodes are the nodes of kind Control;
    decorators and subtree placeholders are both attached to by
    [set_child] and written through [child()]. *)
Definition is_ControlNode (n : TreeNode) : bool :=
  bool_decide (node_type n = CONTROL).
Definition is_DecoratorNode (n : TreeNode) : bool :=
  bool_decide (node_type n = DECORATOR) || bool_decide (node_type n = SUBTREE).

(** [DecoratorNode::child()] *)
Definition decorator_child (n : TreeNode) : option nat := head (node_children n).

(** ** Paths and the platform *)

(** Modelled from the spec: [filesystem::path] (filesystem/path.h is not
    part of the sources): an absolute flag and the segments between the
    separators. *)
Record path : Type := mkPath {
  is_absolute : bool;
  segments : list string
}.

Fixpoint tokenize (s : string) (cur : string) : list string :=
  match s with
  | EmptyString => if decide (cur = "") then [] else [cur]
  | String c s' =>
      if decide (c = "/"%char)
      then (if decide (cur = "") then tokenize s' "" else cur :: tokenize s' "")
      else tokenize s' (cur +:+ String c "")
  end.

(** [filesystem::path(str)] *)
Definition path_of_string (s : string) : path :=
  {| is_absolute := match s with String "/" _ => true | _ => false end;
     segments := tokenize s "" |}.

(** [path::str()] *)
Definition str (p : path) : string :=
  (if is_absolute p then "/" else "") +:+ String.concat "/" (segments p).

(** [a / b] *)
Definition path_join (a b : path) : path :=
  {| is_absolute := is_absolute a; segments := segments a ++ segments b |}.

(** [path::parent_path()] *)
Definition parent_path (p : path) : path :=
  {| is_absolute := is_absolute p;
     segments := match segments p with
                 | [] => if is_absolute p then [] else [".."]
                 | l => removelast l
                 end |}.

(** What the loader and the writer use of their platform. [LoadFile]
    and [Parse] are tinyxml2's: the document that a file, or a text, is
    parsed to. [Print] is tinyxml2's [XMLPrinter]: the text that
    [doc.Print(&printer)] leaves in [printer.CStr()] for a document of
    the given root element. [getRemappedKey] is
    [TreeNode::getRemappedKey]: for a remapping value that is a reference
    to a blackboard entry, the key it refers to. *)
Record Platform : Type := mkPlatform {
  USING_ROS : bool;
  ros_package_getPath : string → string;
  LoadFile : string → XMLDocument;
  Parse : string → XMLDocument;
  Print : XMLElement → string;
  getcwd : path;
  getRemappedKey : string → string → option string;
  subtree_registrationName : string
}.

(** [path::make_absolute()]: a relative path is taken from the working
    directory. *)
Definition make_absolute (env : Platform) (p : path) : path :=
  if is_absolute p then p else path_join (getcwd env) p.

(** ** The parser: XMLParser::Pimpl (32-72) *)

Record Pimpl : Type := mkPimpl {
  opened_documents : list XMLDocument;
  tree_roots : gmap string XMLElement;
  current_path : path;
  suffix_count : nat
}.

(** The state of a new parser, and of one after [clear()]. *)
Definition Pimpl_init (env : Platform) : Pimpl :=
  {| opened_documents := []; tree_roots := ∅;
     current_path := getcwd env; suffix_count := 0 |}.

(** ** verifyXML (172-359) *)

Section Validator.
Context (factory : BehaviorTreeFactory).
Context (roots : gmap string XMLElement).

(** The lambda [ThrowError] (179-183): the message is formatted into a
    buffer of 256 characters. *)
Definition ThrowError {A} (line_num : Z) (text : string) : Result A :=
  Err (thrown_with_buffer 256 ("Error at line " +:+ pretty line_num +:+ ": -> " +:+ text)
         (SchemaError (Some line_num) text)).

Definition is_control_name (n : string) : bool :=
  bool_decide (n = "Sequence") || bool_decide (n = "SequenceStar")
  || bool_decide (n = "Fallback") || bool_decide (n = "FallbackStar").

(** The checks of the lambda [recursiveStep] on one element (237-309). *)
Definition verify_node (node : XMLElement) : Result unit :=
  let children_count := ChildrenCount node in
  let name := Name node in
  if decide (name = "Decorator") then
    if negb (bool_decide (children_count = 1))
    then ThrowError (GetLineNum node) "The node <Decorator> must have exactly 1 child"
    else if negb (bool_decide (is_Some (Attribute node "ID")))
    then ThrowError (GetLineNum node) "The node <Decorator> must have the attribute [ID]"
    else Ok tt
  else if decide (name = "Action") then
    if negb (bool_decide (children_count = 0))
    then ThrowError (GetLineNum node) "The node <Action> must not have any child"
    else if negb (bool_decide (is_Some (Attribute node "ID")))
    then ThrowError (GetLineNum node) "The node <Action> must have the attribute [ID]"
    else Ok tt
  else if decide (name = "Condition") then
    if negb (bool_decide (children_count = 0))
    then ThrowError (GetLineNum node) "The node <Condition> must not have any child"
    else if negb (bool_decide (is_Some (Attribute node "ID")))
    then ThrowError (GetLineNum node) "The node <Condition> must have the attribute [ID]"
    else Ok tt
  else if is_control_name name then
    if bool_decide (children_count = 0)
    then ThrowError (GetLineNum node) "A Control node must have at least 1 child"
    else Ok tt
  else if decide (name = "SubTree") then
    if negb (forallb (λ child, bool_decide (Name child = "remap")) (ChildElements node))
    then ThrowError (GetLineNum node) "<SubTree> accept only childs of type <remap>"
    else if negb (bool_decide (is_Some (Attribute node "ID")))
    then ThrowError (GetLineNum node) "The node <SubTree> must have the attribute [ID]"
    else Ok tt
  else
    let found := bool_decide (is_Some (manifests factory !! name))
                 || bool_decide (is_Some (roots !! name)) in
    if negb found
    then ThrowError (GetLineNum node) ("Node not recognized: " +:+ name)
    else Ok tt.

(** The lambda [recursiveStep] of [verifyXML] (236-319). *)
Fixpoint verify_recursiveStep (node : XMLElement) : Result unit :=
  check verify_node node;
  if decide (Name node = "SubTree") then Ok tt
  else
    match node with
    | Element _ _ _ children =>
        for_each (λ child _, verify_recursiveStep child) children tt
    end.

(** The checks on <TreeNodesModel> (203-230). *)
Definition verify_model (xml_root : XMLElement) : Result unit :=
  match ChildElementsNamed "TreeNodesModel" xml_root with
  | [] => Ok tt
  | _ :: meta_sibling :: _ =>
      ThrowError (GetLineNum meta_sibling) " Only a single node <TreeNodesModel> is supported"
  | [meta_root] =>
      (fix loop (l : list XMLElement) : Result unit :=
         match l with
         | [] => Ok tt
         | node :: l' =>
             let name := Name node in
             if (bool_decide (name = "Action") || bool_decide (name = "Decorator")
                 || bool_decide (name = "SubTree") || bool_decide (name = "Condition"))
                && negb (bool_decide (is_Some (Attribute node "ID")))
             then ThrowError (GetLineNum node)
                    "Error at line %d: -> The attribute [ID] is mandatory"
             else loop l'
         end) (ChildElements xml_root)
  end.

(** The loop over the <BehaviorTree> elements (321-340): it counts the
    trees, collects the ID attributes and checks every tree body. *)
Fixpoint verify_trees (bts : list XMLElement) (tree_names : list string) (tree_count : nat)
  : Result (list string * nat) :=
  match bts with
  | [] => Ok (tree_names, tree_count)
  | bt_root :: bts' =>
      let tree_count := S tree_count in
      let tree_names := match Attribute bt_root "ID" with
                        | Some id => tree_names ++ [id]
                        | None => tree_names
                        end in
      match ChildElements bt_root with
      | [child] =>
          check verify_recursiveStep child;
          verify_trees bts' tree_names tree_count
      | _ => ThrowError (GetLineNum bt_root)
               "The node <BehaviorTree> must have exactly 1 child"
      end
  end.

(** The last check of [verifyXML] (342-358). *)
Definition verify_main_tree (xml_root : XMLElement) (tree_names : list string)
           (tree_count : nat) : Result unit :=
  match Attribute xml_root "main_tree_to_execute" with
  | Some main_tree =>
      if bool_decide (main_tree ∈ tree_names) then Ok tt
      else Err (SchemaError None
                  "The tree specified in [main_tree_to_execute] can't be found")
  | None =>
      if bool_decide (tree_count = 1) then Ok tt
      else Err (SchemaError None
                  "If you don't specify the attribute [main_tree_to_execute], Your file must contain a single BehaviorTree")
  end.

Definition verifyXML (doc : XMLDocument) : Result unit :=
  match doc with
  | Document (Some xml_root) =>
      if negb (bool_decide (Name xml_root = "root"))
      then Err (SchemaError None "The XML must have a root node called <root>")
      else
        check verify_model xml_root;
        do (tree_names, tree_count) <-
           verify_trees (ChildElementsNamed "BehaviorTree" xml_root) [] 0;
        verify_main_tree xml_root tree_names tree_count
  | _ => Err (SchemaError None "The XML must have a root node called <root>")
  end.
End Validator.

(** ** loadFromFile, loadFromText, loadDocImpl (84-170) *)

Section Loader.
Context (env : Platform).
Context (factory : BehaviorTreeFactory).

(** The path of the file of an <include> element (124-147). *)
Definition include_path (current : path) (include_node : XMLElement) : Result path :=
  match Attribute include_node "path" with
  | None => Err NullDereference
  | Some s =>
      let file_path := path_of_string s in
      do file_path <-
        match Attribute include_node "ros_pkg" with
        | Some pkg =>
            if USING_ROS env then
              if is_absolute file_path then Ok file_path
              else Ok (path_join (path_of_string (ros_package_getPath env pkg)) file_path)
            else Err ConfigurationError
        | None => Ok file_path
        end;
      if negb (is_absolute file_path)
      then Ok (path_join current file_path)
      else Ok file_path
  end.

(** The name of a tree (159-166): its ID, or a name that is made of the
    counter of the parser. *)
Definition tree_name_of (count : nat) (bt_node : XMLElement) : string :=
match Attribute bt_node "ID" with
| Some id => id
| None => "BehaviorTree_" +:+ pretty count
end.

(** One round of the loop over the <BehaviorTree> elements of a document
    (155-168). *)
Definition register_tree (p : Pimpl) (bt_node : XMLElement) : Pimpl :=
{| opened_documents := opened_documents p;
   tree_roots := map_insert_new (tree_name_of (suffix_count p) bt_node) bt_node (tree_roots p);
   current_path := current_path p;
   suffix_count := match Attribute bt_node "ID" with
                   | Some _ => suffix_count p
                   | None => S (suffix_count p)
                   end |}.

Definition register_trees (p : Pimpl) (xml_root : XMLElement) : Pimpl :=
  fold_left register_tree (ChildElementsNamed "BehaviorTree" xml_root) p.

(** [opened_documents.emplace_back(new XMLDocument())] and the load of
    the document into it. *)
Definition open_document (p : Pimpl) (doc : XMLDocument) : Pimpl :=
  {| opened_documents := opened_documents p ++ [doc];
     tree_roots := tree_roots p;
     current_path := current_path p;
     suffix_count := suffix_count p |}.

(** [loadDocImpl] (107-170). An included file can include files in its
    turn, so the recursion is bounded by [fuel]. *)
Fixpoint loadDocImpl (fuel : nat) (p : Pimpl) (doc : XMLDocument) : Result Pimpl :=
  match fuel with
  | O => Err OutOfFuel
  | S fuel' =>
      match doc with
      | DocError error_name =>
          Err (thrown_with_buffer 200 ("Error parsing the XML: " +:+ error_name)
                 (XmlSyntaxError error_name))
      | Document None => Err NullDereference
      | Document (Some xml_root) =>
          do p <-
            for_each
              (λ include_node p,
                 do file_path <- include_path (current_path p) include_node;
                 let doc := LoadFile env (str file_path) in
                 loadDocImpl fuel' (open_document p doc) doc)
              (ChildElementsNamed "include" xml_root) p;
          let p := register_trees p xml_root in
          check verifyXML factory (tree_roots p) doc;
          Ok p
      end
  end.

Definition set_current_path (p : Pimpl) (c : path) : Pimpl :=
  {| opened_documents := opened_documents p;
     tree_roots := tree_roots p;
     current_path := c;
     suffix_count := suffix_count p |}.

(** [XMLParser::loadFromFile] (84-95) *)
Definition loadFromFile (fuel : nat) (p : Pimpl) (filename : string) : Result Pimpl :=
  let doc := LoadFile env filename in
  let p := open_document p doc in
  let p := set_current_path p (make_absolute env (parent_path (path_of_string filename))) in
  loadDocImpl fuel p doc.

(** [XMLParser::loadFromText] (97-105); [xml_text] is given by the
    document that tinyxml2 parses it to: the text [text] is loaded by
    [loadFromText fuel p (Parse env text)]. *)
Definition loadFromText (fuel : nat) (p : Pimpl) (xml_text : XMLDocument) : Result Pimpl :=
  loadDocImpl fuel (open_document p xml_text) xml_text.
End Loader.

(** ** Blackboards *)

(** Modelled from the spec: [Blackboard] (blackboard.h is not part of the
    sources), a typed key-value store with at most one parent; an internal
    key that is remapped is redirected to the external key in the parent,
    the other keys are local. Only what the loader uses is modelled: the
    parent, the remappings in the order they were added, and the type
    registered for each key. Blackboards are shared through pointers: they
    live in a store and are named by their index in it. *)
Record Blackboard : Type := mkBlackboard {
  bb_parent : option nat;
  bb_remapping : list (string * string);
  bb_types : gmap string TypeToken
}.

(** [Blackboard::create(parent)]: the new blackboard and the store with it. *)
Definition Blackboard_create (boards : list Blackboard) (parent : nat)
  : nat * list Blackboard :=
  (length boards,
   boards ++ [{| bb_parent := Some parent; bb_remapping := []; bb_types := ∅ |}]).

(** [bb->addSubtreeRemapping(internal, external)] *)
Definition addSubtreeRemapping (boards : list Blackboard) (bb : nat)
           (internal external : string) : list Blackboard :=
  alter (λ b, {| bb_parent := bb_parent b;
                 bb_remapping := bb_remapping b ++ [(internal, external)];
                 bb_types := bb_types b |}) bb boards.

(** The blackboard and the key that hold the entry of [key] in [bb]. *)
Fixpoint resolve_key (fuel : nat) (boards : list Blackboard) (bb : nat) (key : string)
  : nat * string :=
  match fuel with
  | O => (bb, key)
  | S fuel' =>
      match boards !! bb with
      | Some b =>
          match bb_parent b, find_attribute key (bb_remapping b) with
          | Some parent, Some external => resolve_key fuel' boards parent external
          | _, _ => (bb, key)
          end
      | None => (bb, key)
      end
  end.

(** [bb->portType(key)], null when no type is registered. *)
Definition portType (boards : list Blackboard) (bb : nat) (key : string)
  : option TypeToken :=
  let '(b, k) := resolve_key (length boards) boards bb key in
  boards !! b ≫= (λ board, bb_types board !! k).

(** [bb->setPortType(key, type)] *)
Definition setPortType (boards : list Blackboard) (bb : nat) (key : string)
           (type : TypeToken) : list Blackboard :=
  let '(b, k) := resolve_key (length boards) boards bb key in
  alter (λ board, {| bb_parent := bb_parent board;
                     bb_remapping := bb_remapping board;
                     bb_types := <[k := type]> (bb_types board) |}) b boards.

(** ** The tree (xml_parsing.h, 19-42) *)

Record Tree : Type := mkTree {
  root_node : option nat;
  nodes : list TreeNode;
  blackboard_stack : list nat
}.

(** ** createNodeFromXML (399-548) *)

Section Instantiator.
Context (env : Platform).
Context (factory : BehaviorTreeFactory).
Context (roots : gmap string XMLElement).

(** The registration ID of an element (407-415). A null attribute makes
    a [std::string] from a null pointer. *)
Definition element_ID (element : XMLElement) : Result string :=
  let element_name := Name element in
  if bool_decide (element_name = "Action") || bool_decide (element_name = "Decorator")
     || bool_decide (element_name = "Condition")
  then match Attribute element "ID" with
       | Some id => Ok id
       | None => Err NullDereference
       end
  else Ok element_name.

(** The name of the instance (417-430). *)
Definition element_instance_name (element : XMLElement) (ID : string) : Result string :=
  let instance_name := match Attribute element "name" with
                       | Some attr_alias => attr_alias
                       | None => ID
                       end in
  if decide (Name element = "SubTree")
  then match Attribute element "ID" with
       | Some id => Ok id
       | None => Err NullDereference
       end
  else Ok instance_name.

(** The remapping parameters of an element (432-441). *)
Definition remapping_parameters_of (element : XMLElement) : PortsRemapping :=
  fold_left (λ (m : PortsRemapping) (att : string * string),
               if bool_decide (att.1 ≠ "ID") && bool_decide (att.1 ≠ "name")
               then <[att.1 := att.2]> m else m)
            (Attributes element) ∅.

(** The message of a typo (458-461). *)
Definition typo_message (port ID instance_name : string) : string :=
  "Possible typo. In the XML, you specified the port [" +:+ port +:+ "] for node ["
  +:+ ID +:+ " / " +:+ instance_name
  +:+ "], but the manifest of this node does not contain a port with this name.".

(** The names of the remapping are ports of the manifest (452-464); the
    message of the error is formatted into a buffer of 1024 characters. *)
Fixpoint check_remapping_names (manifest : TreeNodeManifest) (ID instance_name : string)
         (l : list (string * string)) : Result unit :=
  match l with
  | [] => Ok tt
  | remapping_it :: l' =>
      if decide (is_Some (ports manifest !! remapping_it.1))
      then check_remapping_names manifest ID instance_name l'
      else Err (thrown_with_buffer 1024
                  (typo_message remapping_it.1 ID instance_name)
                  (TypoError remapping_it.1 ID instance_name))
  end.

(** The message of two types for one entry (495-500); the names are the
    demangled names of the types. *)
Definition type_mismatch_message (port_key : string) (prev_type new_type : TypeToken)
  : string :=
  "The creation of the tree failed because the port [" +:+ port_key
  +:+ "] was initially created with type [" +:+ prev_type
  +:+ "] and, later, type [" +:+ new_type +:+ "] was used somewhere else.".

(** The type of one port of the manifest is set in the blackboard, or
    compared with the type that is there (469-506); the message of the
    error is formatted into a buffer of 1024 characters. *)
Definition init_port_type (boards : list Blackboard) (bb : nat)
           (remapping_parameters : PortsRemapping) (port_it : string * PortInfo)
  : Result (list Blackboard) :=
  let port_name := port_it.1 in
  let port := port_it.2 in
  match port_info port with
  | None => Ok boards
  | Some info =>
      match remapping_parameters !! port_name with
      | None => Ok boards
      | Some remapping_value =>
          match getRemappedKey env port_name remapping_value with
          | None => Ok boards
          | Some port_key =>
              match portType boards bb port_key with
              | None => Ok (setPortType boards bb port_key info)
              | Some prev_type =>
                  if decide (prev_type = info) then Ok boards
                  else Err (thrown_with_buffer 1024
                              (type_mismatch_message port_key prev_type info)
                              (TypeMismatchError port_key prev_type info))
              end
          end
      end
  end.

(** The loop over the ports of the manifest (467-507). *)
Fixpoint init_port_types (boards : list Blackboard) (bb : nat)
         (remapping_parameters : PortsRemapping) (l : list (string * PortInfo))
  : Result (list Blackboard) :=
  match l with
  | [] => Ok boards
  | port_it :: l' =>
      do boards <- init_port_type boards bb remapping_parameters port_it;
      init_port_types boards bb remapping_parameters l'
  end.

(** The ports of the configuration (509-526). *)
Definition config_of (bb : nat) (manifest : TreeNodeManifest)
           (remapping_parameters : PortsRemapping) : NodeConfiguration :=
  fold_left
    (λ (config : NodeConfiguration) (remap_it : string * string),
       match ports manifest !! remap_it.1 with
       | Some port =>
           let config :=
             if bool_decide (port_type port ≠ OUTPUT)
             then {| blackboard := blackboard config;
                     input_ports := map_insert_new remap_it.1 remap_it.2 (input_ports config);
                     output_ports := output_ports config |}
             else config in
           if bool_decide (port_type port ≠ INPUT)
           then {| blackboard := blackboard config;
                   input_ports := input_ports config;
                   output_ports := map_insert_new remap_it.1 remap_it.2 (output_ports config) |}
           else config
       | None => config
       end)
    (map_to_list remapping_parameters)
    {| blackboard := Some bb; input_ports := ∅; output_ports := ∅ |}.

(** Modelled from the spec: [factory.instantiateTreeNode(name, ID,
    config)] builds a node of the kind of the manifest of [ID],
    identified by the registration ID and the instance name, with the
    given configuration and no child. *)
Definition instantiateTreeNode (manifest : TreeNodeManifest)
           (instance_name ID : string) (config : NodeConfiguration) : TreeNode :=
  {| node_type := manifest_type manifest;
     registrationName := ID;
     node_name := instance_name;
     config := config;
     node_children := [] |}.

(** Modelled from the spec: [DecoratorSubtreeNode(name)], the
    placeholder of a subtree; it has a default configuration. *)
Definition DecoratorSubtreeNode (instance_name : string) : TreeNode :=
  {| node_type := SUBTREE;
     registrationName := subtree_registrationName env;
     node_name := instance_name;
     config := {| blackboard := None; input_ports := ∅; output_ports := ∅ |};
     node_children := [] |}.

Definition with_children (n : TreeNode) (cs : list nat) : TreeNode :=
  {| node_type := node_type n;
     registrationName := registrationName n;
     node_name := node_name n;
     config := config n;
     node_children := cs |}.

(** Modelled from the spec: [ControlNode::addChild] appends the child. *)
Definition addChild (parent : TreeNode) (child : nat) : TreeNode :=
  with_children parent (node_children parent ++ [child]).

(** Modelled from the spec: [DecoratorNode::setChild] sets the single
    child; a second call is an error that the decorator detects. *)
Definition setChild (parent : TreeNode) (child : nat) : Result TreeNode :=
  match node_children parent with
  | [] => Ok (with_children parent [child])
  | _ => Err (LogicError "Decorator has already a child assigned")
  end.

(** The new node is attached to its parent (536-546). [child] is the
    pointer to the new node. *)
Definition link_to_parent (nds : list TreeNode) (node_parent : option nat) (child : nat)
  : Result (list TreeNode) :=
  match node_parent with
  | None => Ok nds
  | Some p =>
      match nds !! p with
      | None => Err NullDereference
      | Some parent =>
          let nds := if is_ControlNode parent
                     then <[p := addChild parent child]> nds else nds in
          if is_DecoratorNode parent
          then do parent' <- setChild parent child; Ok (<[p := parent']> nds)
          else Ok nds
      end
  end.

(** [createNodeFromXML]: the new node, the nodes with the parent
    attached to it, and the blackboards. The new node is owned by
    [Tree.nodes] as soon as the caller has it, so the pointer to it is
    the index [length nds]. *)
Definition createNodeFromXML (element : XMLElement) (bb : nat) (node_parent : option nat)
           (nds : list TreeNode) (boards : list Blackboard)
  : Result (TreeNode * list TreeNode * list Blackboard) :=
  do ID <- element_ID element;
  do instance_name <- element_instance_name element ID;
  let remapping_parameters := remapping_parameters_of element in
  do (child_node, boards) <-
    (if decide (ID ∈ builders factory) then
       match manifests factory !! ID with
       | None => Err OutOfRange
       | Some manifest =>
           check check_remapping_names manifest ID instance_name
                   (map_to_list remapping_parameters);
           do boards <- init_port_types boards bb remapping_parameters
                          (map_to_list (ports manifest));
           let config := config_of bb manifest remapping_parameters in
           Ok (instantiateTreeNode manifest instance_name ID config, boards)
       end
     else if decide (is_Some (roots !! ID)) then
       Ok (DecoratorSubtreeNode instance_name, boards)
     else Err (UnknownNodeError ID));
  do nds <- link_to_parent nds node_parent (length nds);
  Ok (child_node, nds, boards).

(** ** recursivelyCreateTree (550-592) *)

(** What the recursion builds: the tree and the blackboards. *)
Record Build : Type := mkBuild {
  output_tree : Tree;
  boards_of : list Blackboard
}.

(** [tree_roots[tree_ID]->FirstChildElement()] (588); for an ID that is
    not there [operator[]] gives a null pointer. *)
Definition tree_root_element (tree_ID : string) : Result XMLElement :=
  match roots !! tree_ID with
  | None => Err NullDereference
  | Some bt =>
      match ChildElements bt with
      | [] => Err NullDereference
      | root_element :: _ => Ok root_element
      end
  end.

(** The <remap> children of a <SubTree> element (568-573). *)
Fixpoint add_remappings (boards : list Blackboard) (new_bb : nat) (l : list XMLElement)
  : Result (list Blackboard) :=
  match l with
  | [] => Ok boards
  | remap_el :: l' =>
      match Attribute remap_el "internal", Attribute remap_el "external" with
      | Some internal, Some external =>
          add_remappings (addSubtreeRemapping boards new_bb internal external) new_bb l'
      | _, _ => Err NullDereference
      end
  end.

(** The new node is made and appended to the nodes of the tree
    (560-561); [self] is the pointer to it. *)
Definition add_node (element : XMLElement) (bb : nat) (parent : option nat) (st : Build)
  : Result (TreeNode * nat * Build) :=
let tree := output_tree st in
do (node, nds, boards) <-
   createNodeFromXML element bb parent (nodes tree) (boards_of st);
Ok (node, length nds,
    {| output_tree := {| root_node := root_node tree;
                         nodes := nds ++ [node];
                         blackboard_stack := blackboard_stack tree |};
       boards_of := boards |}).

(** The blackboard of a subtree (565-575): a child of the last blackboard
    of the stack, with the remappings of the <remap> children of the
    element, is appended to the stack. *)
Definition push_subtree_blackboard (element : XMLElement) (st : Build)
  : Result (nat * Build) :=
let tree := output_tree st in
match last (blackboard_stack tree) with
| None => Err NullDereference
| Some parent_bb =>
    let '(new_bb, boards) := Blackboard_create (boards_of st) parent_bb in
    do boards <- add_remappings boards new_bb (ChildElementsNamed "remap" element);
    Ok (new_bb,
        {| output_tree := {| root_node := root_node tree;
                             nodes := nodes tree;
                             blackboard_stack := blackboard_stack tree ++ [new_bb] |};
           boards_of := boards |})
end.

(** The lambda [recursiveStep] (557-586). [bb] is the blackboard that
    the closure has captured. The call of [recursivelyCreateTree] for a
    subtree is the look-up of the root element of the tree and the step
    on it. The recursion follows the references between trees, so it is
    bounded by [fuel]. *)
Fixpoint recursiveStep (fuel : nat) (bb : nat) (parent : option nat)
         (element : XMLElement) (st : Build) : Result Build :=
match fuel with
| O => Err OutOfFuel
| S fuel' =>
    do (node, self, st) <- add_node element bb parent st;
    if decide (node_type node = SUBTREE) then
      do (new_bb, st) <- push_subtree_blackboard element st;
      do root_element <- tree_root_element (node_name node);
      recursiveStep fuel' new_bb (Some self) root_element st
    else
      for_each (recursiveStep fuel' bb (Some self)) (ChildElements element) st
end.

Definition recursivelyCreateTree (fuel : nat) (tree_ID : string) (st : Build)
           (bb : nat) (root_parent : option nat) : Result Build :=
  do root_element <- tree_root_element tree_ID;
  recursiveStep fuel bb root_parent root_element st.
End Instantiator.

(** ** instantiateTree (361-397) *)

Section Instantiate.
Context (env : Platform).
Context (factory : BehaviorTreeFactory).

(** The ID of the main tree (365-378). *)
Definition main_tree_ID_of (p : Pimpl) : Result string :=
  match opened_documents p with
  | Document (Some xml_root) :: _ =>
      match Attribute xml_root "main_tree_to_execute" with
      | Some main_tree => Ok main_tree
      | None =>
          match map_to_list (tree_roots p) with
          | [(tree_ID, _)] => Ok tree_ID
          | _ => Err (UsageError "[main_tree_to_execute] was not specified correctly")
          end
      end
  | _ => Err NullDereference
  end.

(** [XMLParser::instantiateTree]. [boards] are the blackboards that
    exist when it is called, [root_blackboard] points to one of them or
    is null. *)
Definition instantiateTree (fuel : nat) (p : Pimpl) (boards : list Blackboard)
           (root_blackboard : option nat) : Result Build :=
  do main_tree_ID <- main_tree_ID_of p;
  match root_blackboard with
  | None => Err (UsageError "XMLParser::instantiateTree needs a non-empty root_blackboard")
  | Some root_bb =>
      let st := {| output_tree := {| root_node := None; nodes := [];
                                     blackboard_stack := [root_bb] |};
                   boards_of := boards |} in
      do st <- recursivelyCreateTree env factory (tree_roots p) fuel main_tree_ID st
                 root_bb None;
      let tree := output_tree st in
      Ok {| output_tree :=
              {| root_node := match nodes tree with [] => None | _ => Some 0 end;
                 nodes := nodes tree;
                 blackboard_stack := blackboard_stack tree |};
            boards_of := boards_of st |}
  end.

(** [buildTreeFromText] (594-600): a new parser, the text, the tree. *)
Definition buildTreeFromText (fuel : nat) (text : XMLDocument)
           (boards : list Blackboard) (bb : option nat) : Result Build :=
  do p <- loadFromText env factory fuel (Pimpl_init env) text;
  instantiateTree fuel p boards bb.

(** [buildTreeFromFile] (602-608) *)
Definition buildTreeFromFile (fuel : nat) (filename : string)
           (boards : list Blackboard) (bb : option nat) : Result Build :=
  do p <- loadFromFile env factory fuel (Pimpl_init env) filename;
  instantiateTree fuel p boards bb.
End Instantiate.

(** ** writeXML (xml_parsing.cpp, 611-752) *)

Section Writer.
Context (env : Platform).
Context (factory : BehaviorTreeFactory).
Context (compact_representation : bool).
Context (tree_nodes : list TreeNode).

(** The name of the element of a node (635-649). The loop over the
    manifests looks for the key [node_ID]. *)
Definition element_name_of (node : TreeNode) : string :=
  if decide (node_type node = CONTROL) then registrationName node
  else if compact_representation
       then (if decide (is_Some (manifests factory !! registrationName node))
             then registrationName node else toStr (node_type node))
       else toStr (node_type node).

(** The element of a node with its attributes, before it gets children
    (651-674). *)
Definition element_of_node (node : TreeNode) : XMLElement :=
  let node_type_s := element_name_of node in
  let node_ID := registrationName node in
  let nname := node_name node in
  let element := NewElement node_type_s in
  let element :=
    if bool_decide (node_type_s ≠ node_ID) && bool_decide (node_ID ≠ "")
    then SetAttribute "ID" node_ID element else element in
  let element :=
    if bool_decide (node_type_s ≠ nname) && bool_decide (nname ≠ "")
       && bool_decide (nname ≠ node_ID)
    then SetAttribute "name" nname element else element in
  let element :=
    fold_left (λ el port_it, SetAttribute port_it.1 port_it.2 el)
              (map_to_list (input_ports (config node))) element in
  fold_left (λ el port_it,
               (* added_input_ports.count(port_it.first) == 0 *)
               if decide (is_Some (input_ports (config node) !! port_it.1))
               then el else SetAttribute port_it.1 port_it.2 el)
            (map_to_list (output_ports (config node))) element.

(** The lambda [recursiveVisitor] (629-689); it returns the element that
    the source appends to [parent]. The node graph is walked through
    pointers, so the recursion is bounded by [fuel]. *)
Fixpoint recursiveVisitor (fuel : nat) (node_ptr : option nat) : Result XMLElement :=
  match fuel with
  | O => Err OutOfFuel
  | S fuel' =>
      match node_ptr ≫= (λ i, tree_nodes !! i) with
      | None => Err NullDereference
      | Some node =>
          let element := element_of_node node in
          if is_ControlNode node then
            for_each
              (λ child element,
                 do c <- recursiveVisitor fuel' (Some child);
                 Ok (InsertEndChild c element))
              (node_children node) element
          else if is_DecoratorNode node then
            do c <- recursiveVisitor fuel' (decorator_child node);
            Ok (InsertEndChild c element)
          else Ok element
      end
  end.

(** The three strings of port names of a manifest (715-729): every name
    is followed by a semicolon. *)
Definition ports_lists (model : TreeNodeManifest) : string * string * string :=
  fold_left
    (λ '(in_ports_list, out_ports_list, inout_ports_list) port,
       match port_type port.2 with
       | INPUT => (in_ports_list +:+ port.1 +:+ ";", out_ports_list, inout_ports_list)
       | OUTPUT => (in_ports_list, out_ports_list +:+ port.1 +:+ ";", inout_ports_list)
       | INOUT => (in_ports_list, out_ports_list, inout_ports_list +:+ port.1 +:+ ";")
       end)
    (map_to_list (ports model)) ("", "", "").

(** [str.resize(str.size() - 1)] *)
Definition drop_last_char (s : string) : string :=
  String.substring 0 (String.length s - 1) s.

(** [if (!list.empty()) { list.resize(list.size()-1); SetAttribute(...) }] *)
Definition set_ports_attribute (attr list : string) (el : XMLElement) : XMLElement :=
  if decide (list = "") then el else SetAttribute attr (drop_last_char list) el.

(** The element of a manifest in <TreeNodesModel> (712-744). *)
Definition model_element (model : TreeNodeManifest) : XMLElement :=
  let element := NewElement (toStr (manifest_type model)) in
  let element := SetAttribute "ID" (registration_ID model) element in
  let '(in_ports_list, out_ports_list, inout_ports_list) := ports_lists model in
  let element := set_ports_attribute "input_ports" in_ports_list element in
  let element := set_ports_attribute "output_ports" out_ports_list element in
  set_ports_attribute "inout_ports" inout_ports_list element.

(** The loop over the manifests (698-747), with its two [continue]. *)
Definition model_root_of : XMLElement :=
  fold_left
    (λ model_root model_it,
       if decide (model_it.1 ∈ builtinNodes factory) then model_root
       else if decide (manifest_type model_it.2 = CONTROL) then model_root
       else InsertEndChild (model_element model_it.2) model_root)
    (map_to_list (manifests factory)) (NewElement "TreeNodesModel").

(** The document [doc] that [writeXML] builds (617-747), given by its
    root element. *)
Definition writeXML_doc (fuel : nat) (root_node : option nat) : Result XMLElement :=
  let rootXML := NewElement "root" in
  do rootXML <-
    match root_node with
    | Some _ =>
        let bt_root := NewElement "BehaviorTree" in
        do el <- recursiveVisitor fuel root_node;
        Ok (InsertEndChild (InsertEndChild el bt_root) rootXML)
    | None => Ok rootXML
    end;
  Ok (InsertEndChild model_root_of rootXML).

(** [writeXML] (611-752): the text that the printer makes of the
    document (749-751). *)
Definition writeXML (fuel : nat) (root_node : option nat) : Result string :=
  do rootXML <- writeXML_doc fuel root_node;
  Ok (Print env rootXML).
End Writer.

(** ** The <TreeNodesModel> section in the words of the specification *)

(** The names of the ports of a direction. *)
Definition port_names (dir : PortType) (model : TreeNodeManifest) : list string :=
  (filter (λ port, port_type port.2 = dir) (map_to_list (ports model))).*1.

(** The attribute of a group of ports: a list separated by semicolons,
    no attribute for an empty group. *)
Definition ports_attribute (attr : string) (names : list string) : list (string * string) :=
  match names with
  | [] => []
  | _ => [(attr, String.concat ";" names)]
  end.

Definition model_element_spec (model : TreeNodeManifest) : XMLElement :=
  Element (toStr (manifest_type model)) 0
    ([("ID", registration_ID model)]
       ++ ports_attribute "input_ports" (port_names INPUT model)
       ++ ports_attribute "output_ports" (port_names OUTPUT model)
       ++ ports_attribute "inout_ports" (port_names INOUT model))
    [].

(** One element for every manifest that is not a builtin node. *)
Definition models_every_non_builtin (factory : BehaviorTreeFactory) : Prop :=
  ChildElements (model_root_of factory)
  = map (λ model_it, model_element_spec model_it.2)
        (filter (λ model_it, model_it.1 ∉ builtinNodes factory)
                (map_to_list (manifests factory))).

(** The names of a group, each followed by a semicolon. *)
Definition with_semicolons (names : list string) : string :=
  foldr (λ n rest, n +:+ ";" +:+ rest) "" names.

(** ** The selection of the main tree in the words of the specification *)

(** The number of <BehaviorTree> elements of the loaded documents. *)
Definition count_trees (docs : list XMLDocument) : nat :=
  sum_list_with
    (λ doc, match doc with
            | Document (Some xml_root) => length (ChildElementsNamed "BehaviorTree" xml_root)
            | _ => 0
            end) docs.

(** The value of main_tree_to_execute of the primary document is a tree
    of the index; without the attribute there is exactly one tree in all
    the documents. *)
Definition selects_main_tree_across_documents (p : Pimpl) : bool :=
  match opened_documents p with
  | Document (Some xml_root) :: _ =>
      match Attribute xml_root "main_tree_to_execute" with
      | Some main_tree => bool_decide (is_Some (tree_roots p !! main_tree))
      | None => bool_decide (count_trees (opened_documents p) = 1)
      end
  | _ => false
  end.

(** The ID attributes of the <BehaviorTree> elements of one document. *)
Definition tree_IDs (xml_root : XMLElement) : list string :=
  omap (λ bt, Attribute bt "ID") (ChildElementsNamed "BehaviorTree" xml_root).

(** ** Blackboards that the loader can be given *)

(** A blackboard is created after its parent. *)
Definition valid_boards (boards : list Blackboard) : Prop :=
  ∀ i b parent, boards !! i = Some b → bb_parent b = Some parent → parent < i.

(** The same blackboards with the same parents and remappings; the types
    of the keys can differ. *)
Definition same_links (boards boards' : list Blackboard) : Prop :=
  length boards' = length boards
  ∧ ∀ i b, boards !! i = Some b →
           ∃ b', boards' !! i = Some b'
                 ∧ bb_parent b' = bb_parent b ∧ bb_remapping b' = bb_remapping b.

(** The element is a node of a registered builder, and it maps the port
    [port_name] of its manifest, a port of type [info], to the entry [key]
    of the blackboard. *)
Definition binds_port (env : Platform) (factory : BehaviorTreeFactory)
           (element : XMLElement) (port_name : string) (info : TypeToken) (key : string)
  : Prop :=
  ∃ ID instance_name manifest port value,
    element_ID element = Ok ID
    ∧ element_instance_name element ID = Ok instance_name
    ∧ ID ∈ builders factory
    ∧ manifests factory !! ID = Some manifest
    ∧ ports manifest !! port_name = Some port
    ∧ port_info port = Some info
    ∧ remapping_parameters_of element !! port_name = Some value
    ∧ getRemappedKey env port_name value = Some key.

Definition is_TypeMismatchError (e : Error) : Prop :=
  match e with TypeMismatchError _ _ _ => True | _ => False end.
Definition is_TypoError (e : Error) : Prop :=
  match e with TypoError _ _ _ => True | _ => False end.

(** What the [throw] of a typo (456-463) gives: the error of the typo,
    unless its message is longer than the buffer. *)
Definition typo_thrown (e : Error) : Prop :=
  ∃ port ID instance_name,
    e = thrown_with_buffer 1024 (typo_message port ID instance_name)
          (TypoError port ID instance_name).

(** What the [throw] of two types for one entry (493-502) gives. *)
Definition type_mismatch_thrown (e : Error) : Prop :=
  ∃ port_key prev_type new_type,
    prev_type ≠ new_type
    ∧ e = thrown_with_buffer 1024 (type_mismatch_message port_key prev_type new_type)
            (TypeMismatchError port_key prev_type new_type).

(** Every blackboard of the stack but the first is a child of the
    blackboard that precedes it in the stack. *)
Definition stack_chained (boards : list Blackboard) (stack : list nat) : Prop :=
  ∀ i child, stack !! (S i) = Some child →
             ∃ b parent, boards !! child = Some b
                         ∧ stack !! i = Some parent ∧ bb_parent b = Some parent.

(** The blackboards of a build are valid, and the stack points to them. *)
Definition wf_boards (st : Build) : Prop :=
  valid_boards (boards_of st)
  ∧ Forall (λ b, b < length (boards_of st)) (blackboard_stack (output_tree st))
  ∧ stack_chained (boards_of st) (blackboard_stack (output_tree st)).

(** The remappings of the <remap> children of a <SubTree> element. *)
Definition remap_pairs (element : XMLElement) : option (list (string * string)) :=
  mapM (λ remap_el,
          internal ← Attribute remap_el "internal";
          external ← Attribute remap_el "external";
          Some (internal, external))
       (ChildElementsNamed "remap" element).

(** The blackboards grow: the blackboards that exist keep their parent,
    their remappings and the types that are registered, and the stack
    gets new blackboards at its end. *)
Definition boards_grow (st st' : Build) : Prop :=
  wf_boards st →
  wf_boards st'
  ∧ length (boards_of st) ≤ length (boards_of st')
  ∧ (∀ i b, boards_of st !! i = Some b →
            ∃ b', boards_of st' !! i = Some b'
                  ∧ bb_parent b' = bb_parent b ∧ bb_remapping b' = bb_remapping b)
  ∧ (∀ b key type, b < length (boards_of st) →
                   portType (boards_of st) b key = Some type →
                   portType (boards_of st') b key = Some type)
  ∧ (∃ new_stack,
       blackboard_stack (output_tree st')
       = blackboard_stack (output_tree st) ++ new_stack
       ∧ Forall (λ b, length (boards_of st) ≤ b) new_stack).

(** ** The walk of the instantiator over the documents *)

(** Every node precedes its children in the sequence of the nodes, and the
    children of a node are in the order of the sequence. *)
Definition wf_nodes (nds : list TreeNode) : Prop :=
  ∀ i n, nds !! i = Some n →
         Forall (λ c, i < c < length nds) (node_children n)
         ∧ (∀ j k c1 c2, j < k → node_children n !! j = Some c1 →
                         node_children n !! k = Some c2 → c1 < c2).

Section Walk.
Context (factory : BehaviorTreeFactory) (roots : gmap string XMLElement).

(** The kind of the node of an element: the kind of the manifest of a
    registered builder; a subtree for the ID of a tree. *)
Definition element_node_type (element : XMLElement) : option NodeType :=
match element_ID element with
| Ok ID =>
    if decide (ID ∈ builders factory) then manifest_type <$> manifests factory !! ID
    else if decide (is_Some (roots !! ID)) then Some SUBTREE
    else None
| Err _ => None
end.

(** The name of the node of an element. *)
Definition element_node_name (element : XMLElement) : option string :=
match element_ID element with
| Ok ID =>
    match element_instance_name element ID with
    | Ok instance_name => Some instance_name
    | Err _ => None
    end
| Err _ => None
end.

(** The elements in pre-order, from the root element of a tree: an
    element is followed by its children with their descendants, in the
    order of the document; the element of a subtree is followed by the
    body of the tree of its name. *)
Fixpoint visits (fuel : nat) (element : XMLElement) : list XMLElement :=
match fuel with
| O => []
| S fuel' =>
    element ::
      (if decide (element_node_type element = Some SUBTREE) then
         match element_node_name element with
         | Some tree_ID =>
             match tree_root_element roots tree_ID with
             | Ok root_element => visits fuel' root_element
             | Err _ => []
             end
         | None => []
         end
       else concat (map (visits fuel') (ChildElements element)))
end.

(** The elements of the walk that are expanded as subtrees. *)
Definition subtree_visits (fuel : nat) (element : XMLElement) : list XMLElement :=
filter (λ e, element_node_type e = Some SUBTREE) (visits fuel element).

(** The kind and the name of the node of an element. *)
Definition element_summary (element : XMLElement) : option NodeType * option string :=
(element_node_type element, element_node_name element).
End Walk.

(** The kind and the name of a node. *)
Definition node_summary (n : TreeNode) : option NodeType * option string :=
  (Some (node_type n), Some (node_name n)).

(** What a node is, without its children. *)
Definition same_node (n n' : TreeNode) : Prop :=
  node_type n' = node_type n ∧ registrationName n' = registrationName n
  ∧ node_name n' = node_name n ∧ config n' = config n.

(** The nodes grow: the nodes that exist stay what they are, and get
    children. *)
Definition nodes_grow (st st' : Build) : Prop :=
  (wf_nodes (nodes (output_tree st)) → wf_nodes (nodes (output_tree st')))
  ∧ length (nodes (output_tree st)) ≤ length (nodes (output_tree st'))
  ∧ root_node (output_tree st') = root_node (output_tree st)
  ∧ ∀ i n, nodes (output_tree st) !! i = Some n →
           ∃ n', nodes (output_tree st') !! i = Some n' ∧ same_node n n'.

(** The remappings of blackboards of the stack. *)
Definition remappings_of (boards : list Blackboard) (stack : list nat)
  : list (option (list (string * string))) :=
  (λ c, bb_remapping <$> boards !! c) <$> stack.

(** ** Documents that the validator has accepted *)

(** The parser after loads that have all returned without an error. *)
Inductive accepted (env : Platform) (factory : BehaviorTreeFactory) : Pimpl → Prop :=
  | accepted_new : accepted env factory (Pimpl_init env)
  | accepted_text fuel p xml_text p' :
      accepted env factory p →
      loadFromText env factory fuel p xml_text = Ok p' →
      accepted env factory p'
  | accepted_file fuel p filename p' :
      accepted env factory p →
      loadFromFile env factory fuel p filename = Ok p' →
      accepted env factory p'.

(** The parser [q] is where the parser [p] is, with the same counter of
    the generated names, and its index has a tree under every ID that the
    index of [p] has one under. *)
Definition extends_index (p q : Pimpl) : Prop :=
  current_path q = current_path p ∧ suffix_count q = suffix_count p
  ∧ ∀ id, is_Some (tree_roots p !! id) → is_Some (tree_roots q !! id).

(** The ID attributes of the <Action>, <Decorator> and <Condition>
    elements of a tree body: the validator asks for them, and does not
    look them up. *)
Fixpoint declared_IDs (element : XMLElement) : list string :=
  match element with
  | Element name _ attributes children =>
      (if bool_decide (name = "Action") || bool_decide (name = "Decorator")
          || bool_decide (name = "Condition")
       then match find_attribute "ID" attributes with
            | Some id => [id]
            | None => []
            end
       else [])
        ++ concat (map declared_IDs children)
  end.

(** [ID] is such an attribute in the body of a tree of the index. *)
Definition declares (roots : gmap string XMLElement) (ID : string) : Prop :=
  ∃ tree_ID bt body,
    roots !! tree_ID = Some bt ∧ body ∈ ChildElements bt ∧ ID ∈ declared_IDs body.

(** Every tree of the index has one child, which the validator accepts. *)
Definition verified_roots (factory : BehaviorTreeFactory) (roots : gmap string XMLElement)
  : Prop :=
  ∀ tree_ID bt, roots !! tree_ID = Some bt →
                ∃ body, ChildElements bt = [body]
                        ∧ verify_recursiveStep factory roots body = Ok tt.

(** ** Documents that the writer gives back *)

(** Two elements that the instantiator makes the same nodes of: the same
    registration ID, the same instance name, the same remapping
    parameters, and children that are the same in this sense, in the same
    order. *)
Inductive same_instance : XMLElement → XMLElement → Prop :=
  | same_instance_intro e e' :
      element_ID e = element_ID e' →
      (∀ ID, element_ID e = Ok ID →
             element_instance_name e ID = element_instance_name e' ID) →
      remapping_parameters_of e = remapping_parameters_of e' →
      Forall2 same_instance (ChildElements e) (ChildElements e') →
      same_instance e e'.

(** The element without the line numbers that the parser gives to its
    elements: the elements that the writer builds have the line number
    0, the elements of a text that is parsed have the line of the text
    that they start on. *)
Fixpoint erase_lines (element : XMLElement) : XMLElement :=
  match element with
  | Element name _ attributes children =>
      Element name 0 attributes (map erase_lines children)
  end.

(** The nodes of a sequence of elements are laid out one after the other
    from [i] to [k]; [cs] are the indices where they start. *)
Inductive layout (R : nat → XMLElement → nat → Prop)
  : nat → list XMLElement → list nat → nat → Prop :=
  | layout_nil i : layout R i [] [] i
  | layout_cons i e es j cs k :
      R i e j → layout R j es cs k → layout R i (e :: es) (i :: cs) k.

Section RoundTrip.
Context (factory : BehaviorTreeFactory) (compact_representation : bool).

(** The name that the writer gives to the element of a node of a kind and
    a registration ID (635-649). *)
Definition written_name (typ : NodeType) (ID : string) : string :=
if decide (typ = CONTROL) then ID
else if compact_representation
     then (if decide (is_Some (manifests factory !! ID)) then ID else toStr typ)
     else toStr typ.

(** The children that the validator accepts for the element that is
    written of a node: one for a decorator, none for an action or a
    condition, at least one under the names of the builtin control nodes. *)
Definition arity_ok (typ : NodeType) (name : string) (children : list XMLElement) : bool :=
match typ with
| CONTROL => true
| DECORATOR => bool_decide (length children = 1)
| ACTION | CONDITION => bool_decide (length children = 0)
| SUBTREE => false
end
&& (negb (is_control_name name) || negb (bool_decide (length children = 0))).

(** The elements that are written back as they were read: the element is
    a node of a registered builder that is not a subtree; its ID is none
    of the names that the loader reserves; its instance name is its ID,
    or is neither empty nor the name that its element is written under;
    and its children are what its kind attaches. *)
Fixpoint writable (element : XMLElement) : bool :=
match element with
| Element name line attributes children =>
    let element := Element name line attributes children in
    match element_ID element with
    | Ok ID =>
        match element_instance_name element ID, manifests factory !! ID with
        | Ok instance_name, Some manifest =>
            let typ := manifest_type manifest in
            bool_decide (ID ∈ builders factory)
            && bool_decide (ID ∉ [""; "Action"; "Decorator"; "Condition"; "SubTree"])
            && (bool_decide (instance_name = ID)
                || (bool_decide (instance_name ≠ "")
                    && bool_decide (instance_name ≠ written_name typ ID)))
            && arity_ok typ (written_name typ ID) children
            && forallb writable children
        | _, _ => false
        end
    | Err _ => false
    end
end.

(** The attributes after a loop of [SetAttribute] over the entries of a
    map; [skip] tells the entries that the loop leaves out. *)
Definition set_attributes (skip : string → bool) (l : list (string * string))
           (attributes : list (string * string)) : list (string * string) :=
fold_left (λ a port_it, if skip port_it.1 then a else set_attribute port_it.1 port_it.2 a)
          l attributes.

(** The attributes [ID] and [name] of the element that the writer makes
    of a node (651-659). *)
Definition base_attributes (node : TreeNode) : list (string * string) :=
let node_type_s := element_name_of factory compact_representation node in
let node_ID := registrationName node in
let nname := node_name node in
let attributes :=
  if bool_decide (node_type_s ≠ node_ID) && bool_decide (node_ID ≠ "")
  then set_attribute "ID" node_ID [] else [] in
if bool_decide (node_type_s ≠ nname) && bool_decide (nname ≠ "")
   && bool_decide (nname ≠ node_ID)
then set_attribute "name" nname attributes else attributes.

(** The attributes of the element that the writer makes of a node
    (651-674). *)
Definition node_attributes (node : TreeNode) : list (string * string) :=
let attributes :=
  set_attributes (λ _, false) (map_to_list (input_ports (config node)))
    (base_attributes node) in
set_attributes (λ k, bool_decide (is_Some (input_ports (config node) !! k)))
  (map_to_list (output_ports (config node))) attributes.

(** The nodes from [i] to [j] are the nodes of [element] and of its
    descendants, in pre-order, every node attached to its parent; [h]
    bounds the depth of the element. *)
Fixpoint represents (bb : nat) (nds : list TreeNode) (h : nat)
         (i : nat) (element : XMLElement) (j : nat) : Prop :=
match h with
| O => False
| S h' =>
    ∃ n ID instance_name manifest,
      nds !! i = Some n
      ∧ element_ID element = Ok ID
      ∧ element_instance_name element ID = Ok instance_name
      ∧ manifests factory !! ID = Some manifest
      ∧ check_remapping_names manifest ID instance_name
          (map_to_list (remapping_parameters_of element)) = Ok tt
      ∧ n = with_children
              (instantiateTreeNode manifest instance_name ID
                 (config_of bb manifest (remapping_parameters_of element)))
              (node_children n)
      ∧ layout (represents bb nds h') (S i) (ChildElements element) (node_children n) j
end.
End RoundTrip.

(** ** The walk of the validator *)

(** The elements that the lambda [recursiveStep] of [verifyXML] is called
    on (236-319), in the order of the calls: the element, and the elements
    of its children unless it is a <SubTree>. *)
Fixpoint checked_elements (node : XMLElement) : list XMLElement :=
match node with
| Element name line attributes children =>
    Element name line attributes children
    :: (if decide (name = "SubTree") then [] else flat_map checked_elements children)
end.

(** ** The tree: its root blackboard (xml_parsing.h, 24-41) *)

(** [Tree()] *)
Definition Tree_new : Tree :=
{| root_node := None; nodes := []; blackboard_stack := [] |}.

(** [Tree::rootBlackboard()]: the front of the stack, null for an empty
    stack. *)
Definition rootBlackboard (tree : Tree) : option nat :=
match blackboard_stack tree with
| [] => None
| front :: _ => Some front
end.

(** ** The shape of the nodes of a tree *)

(** The nodes of kind Action and Condition have no children. *)
Definition leaves_childless (nds : list TreeNode) : Prop :=
∀ i n, nds !! i = Some n →
       node_type n = ACTION ∨ node_type n = CONDITION → node_children n = [].

(** No node is a child of two nodes. *)
Definition single_parent (nds : list TreeNode) : Prop :=
∀ i j n m c, nds !! i = Some n → nds !! j = Some m →
             c ∈ node_children n → c ∈ node_children m → i = j.

(** The blackboard of every node is a blackboard of the stack. *)
Definition blackboards_on_stack (tree : Tree) : Prop :=
∀ i n bb, nodes tree !! i = Some n → blackboard (config n) = Some bb →
          bb ∈ blackboard_stack tree.

(** ** A factory, a platform and documents to run the definitions on *)

Module Examples.

(** Modelled from the spec: a remapping value of the form {key} is a
    reference to the blackboard entry [key]; any other value is a
    literal. *)
Fixpoint strip_closing_brace (s : string) : option string :=
  match s with
  | EmptyString => None
  | String c EmptyString => if decide (c = "}"%char) then Some "" else None
  | String c s' => String c <$> strip_closing_brace s'
  end.
Definition blackboard_reference (port_name value : string) : option string :=
  match value with
  | String "{" rest => strip_closing_brace rest
  | _ => None
  end.

Definition manifest_of (t : NodeType) (id : string) (ps : list (string * PortInfo))
  : string * TreeNodeManifest :=
  (id, mkManifest t id (list_to_map ps)).

Definition the_manifests : gmap string TreeNodeManifest :=
  list_to_map
    [manifest_of CONTROL "Sequence" []; manifest_of CONTROL "Fallback" [];
     manifest_of DECORATOR "Inverter" []; manifest_of SUBTREE "SubTree" [];
     manifest_of ACTION "Ping" [];
     manifest_of ACTION "PortA" [("x", mkPortInfo INPUT (Some "int32"))];
     manifest_of ACTION "PortB" [("y", mkPortInfo INPUT (Some "string"))];
     manifest_of ACTION "Move"
       [("goal", mkPortInfo INPUT None); ("speed", mkPortInfo INPUT None);
        ("result", mkPortInfo OUTPUT None); ("pose", mkPortInfo INOUT None)];
     manifest_of CONTROL "MyControl" []].

Definition the_factory : BehaviorTreeFactory :=
  {| builders := dom the_manifests;
     manifests := the_manifests;
     builtinNodes := list_to_set ["Sequence"; "Fallback"; "Inverter"; "SubTree"] |}.

Definition no_file : XMLDocument := DocError "XML_ERROR_FILE_NOT_FOUND".

(** A printer in the layout of tinyxml2's [XMLPrinter]: every tag on a
    line of its own, indented by four spaces for every level; the
    attributes after the name of the element, their values between
    double quotes with the entities of the five characters; an element
    without children closed in its tag, the others by a tag on a line of
    its own; a newline after the last tag. *)
Definition double_quote : ascii := "034"%char.
Definition newline : string := String "010"%char "".

Definition entity (c : ascii) : string :=
  if decide (c = "&"%char) then "&amp;"
  else if decide (c = "<"%char) then "&lt;"
  else if decide (c = ">"%char) then "&gt;"
  else if decide (c = double_quote) then "&quot;"
  else if decide (c = "'"%char) then "&apos;"
  else String c "".
Fixpoint PrintString (s : string) : string :=
  match s with
  | EmptyString => ""
  | String c s' => entity c +:+ PrintString s'
  end.

Fixpoint PrintSpace (depth : nat) : string :=
  match depth with
  | O => ""
  | S depth' => "    " +:+ PrintSpace depth'
  end.

Definition print_attribute (attribute : string * string) : string :=
  " " +:+ attribute.1 +:+ "=" +:+ String double_quote (PrintString attribute.2)
  +:+ String double_quote "".

Fixpoint print_element (depth : nat) (element : XMLElement) : string :=
  match element with
  | Element name _ attributes children =>
      let open_tag :=
        PrintSpace depth +:+ "<" +:+ name
        +:+ String.concat "" (map print_attribute attributes) in
      match children with
      | [] => open_tag +:+ "/>" +:+ newline
      | _ =>
          open_tag +:+ ">" +:+ newline
          +:+ String.concat "" (map (print_element (S depth)) children)
          +:+ PrintSpace depth +:+ "</" +:+ name +:+ ">" +:+ newline
      end
  end.
Definition print_xml (root : XMLElement) : string := print_element 0 root.

(** The line numbers of the elements of a text of that layout: an
    element starts on the line after the tag before it. The second
    component is the line after the element. *)
Fixpoint number_lines (line : Z) (element : XMLElement) : XMLElement * Z :=
  match element with
  | Element name _ attributes children =>
      let '(children', next) :=
        (fix number_children (l : list XMLElement) (line : Z) : list XMLElement * Z :=
           match l with
           | [] => ([], line)
           | child :: l' =>
               let '(child', line') := number_lines line child in
               let '(l'', line'') := number_children l' line' in
               (child' :: l'', line'')
           end) children (line + 1)%Z in
      (Element name line attributes children',
       match children with [] => next | _ => (next + 1)%Z end)
  end.

(** A parser of the texts that the printer makes of [documents]: the
    elements that were printed, on their lines. *)
Definition parse_printed (documents : list XMLElement) (text : string) : XMLDocument :=
  match filter (λ document, print_xml document = text) documents with
  | document :: _ => Document (Some (number_lines 1 document).1)
  | [] => DocError "XML_ERROR_PARSING"
  end.

(** The section of the models that the writer makes of [the_factory]. *)
Definition models_written : XMLElement :=
  Element "TreeNodesModel" 0 []
    [Element "Action" 0
       [("ID", "Move"); ("input_ports", "goal;speed");
        ("output_ports", "result"); ("inout_ports", "pose")] [];
     Element "Action" 0 [("ID", "PortA"); ("input_ports", "x")] [];
     Element "Action" 0 [("ID", "PortB"); ("input_ports", "y")] [];
     Element "Action" 0 [("ID", "Ping")] []].

(** Documents that the writer makes of the trees below: of the tree
    with the ports in the compact representation and in the other one,
    of the action with the instance name Action, and of the tree of
    scenario S6. *)
Definition written_tree (body : XMLElement) : XMLElement :=
  Element "root" 0 [] [Element "BehaviorTree" 0 [] [body]; models_written].
Definition written_ports_compact : XMLElement :=
  written_tree
    (Element "Sequence" 0 [("name", "seq")]
       [Element "Move" 0
          [("goal", "{g}"); ("speed", "1"); ("pose", "{p}"); ("result", "{r}")] [];
        Element "Inverter" 0 [] [Element "Ping" 0 [("name", "p2")] []]]).
Definition written_ports : XMLElement :=
  written_tree
    (Element "Sequence" 0 [("name", "seq")]
       [Element "Action" 0
          [("ID", "Move"); ("goal", "{g}"); ("speed", "1"); ("pose", "{p}");
           ("result", "{r}")] [];
        Element "Decorator" 0 [("ID", "Inverter")]
          [Element "Action" 0 [("ID", "Ping"); ("name", "p2")] []]]).
Definition written_named_Action : XMLElement :=
  written_tree (Element "Action" 0 [("ID", "Ping")] []).
Definition written_S6 : XMLElement :=
  written_tree
    (Element "Sequence" 0 []
       [Element "Action" 0 [("ID", "Ping")] [];
        Element "SubTree" 0 [("name", "Sub")]
          [Element "Decorator" 0 [("ID", "Inverter")]
             [Element "Action" 0 [("ID", "Ping"); ("name", "inner")] []]]]).
Definition documents_written : list XMLElement :=
  [written_ports_compact; written_ports; written_named_Action; written_S6].

Definition platform_with (files : string → XMLDocument) : Platform :=
  {| USING_ROS := false;
     ros_package_getPath := λ _, "";
     LoadFile := files;
     Parse := parse_printed documents_written;
     Print := print_xml;
     getcwd := mkPath true ["home"];
     getRemappedKey := blackboard_reference;
     subtree_registrationName := "SubTree" |}.

Definition the_platform : Platform := platform_with (λ _, no_file).

Definition root_board : Blackboard :=
  {| bb_parent := None; bb_remapping := []; bb_types := ∅ |}.

Definition behavior_tree (attrs : list (string * string)) (body : XMLElement) : XMLElement :=
  Element "BehaviorTree" 2 attrs [body].
Definition xml_doc (attrs : list (string * string)) (trees : list XMLElement) : XMLDocument :=
  Document (Some (Element "root" 1 attrs trees)).
Definition action (id : string) (attrs : list (string * string)) : XMLElement :=
  Element "Action" 4 (("ID", id) :: attrs) [].

(** Scenario S1 of the specification. *)
Definition doc_S1 : XMLDocument :=
  xml_doc [] [behavior_tree [] (Element "Sequence" 3 [] [action "Ping" []])].

(** One tree with an ID. *)
Definition doc_tree (id : string) : XMLDocument :=
xml_doc [] [behavior_tree [("ID", id)] (action "Ping" [])].

(** The main tree is named by the ID that the loader generates. *)
Definition doc_generated_ID : XMLDocument :=
xml_doc [("main_tree_to_execute", "BehaviorTree_0")] [behavior_tree [] (action "Ping" [])].

(** Two trees of the same ID. *)
Definition first_A : XMLElement :=
Element "BehaviorTree" 2 [("ID", "A")] [Element "Sequence" 3 [] [action "Ping" []]].
Definition second_A : XMLElement :=
Element "BehaviorTree" 6 [("ID", "A")] [action "Ping" []].
Definition doc_twice_A : XMLDocument :=
xml_doc [("main_tree_to_execute", "A")] [first_A; second_A].

(** Files that include files: /a/main.xml includes sub/b.xml, which
    includes c.xml; there is a c.xml next to each of them. *)
Definition include (path : string) : XMLElement :=
Element "include" 2 [("path", path)] [].
Definition some_files (filename : string) : XMLDocument :=
if decide (filename = "/a/main.xml") then
  xml_doc [("main_tree_to_execute", "Main")]
    [include "sub/b.xml"; behavior_tree [("ID", "Main")] (action "Ping" [])]
else if decide (filename = "/a/sub/b.xml") then
  xml_doc [] [include "c.xml"; behavior_tree [("ID", "B")] (action "Ping" [])]
else if decide (filename = "/a/sub/c.xml") then doc_tree "C_in_a_sub"
else if decide (filename = "/a/c.xml") then doc_tree "C_in_a"
else no_file.

(** Scenario S5 of the specification: two ports of different types on
    the same entry of the blackboard. *)
Definition node_PortA : XMLElement := action "PortA" [("x", "{shared}")].
Definition node_PortB : XMLElement := action "PortB" [("y", "{shared}")].
Definition doc_S5 : XMLDocument :=
xml_doc [] [behavior_tree [] (Element "Sequence" 3 [] [node_PortA; node_PortB])].

(** Scenario S6 of the specification: a subtree with a remapping. *)
Definition doc_S6 : XMLDocument :=
xml_doc [("main_tree_to_execute", "Outer")]
  [behavior_tree [("ID", "Outer")]
     (Element "Sequence" 3 []
        [action "Ping" [];
         Element "SubTree" 5 [("ID", "Sub")]
           [Element "remap" 6 [("internal", "in"); ("external", "outer_k")] []]]);
   behavior_tree [("ID", "Sub")]
     (Element "Inverter" 9 [] [action "Ping" [("name", "inner")]])].

(** The parser after the load of a text in a new parser. *)
Definition session_of (doc : XMLDocument) : Pimpl :=
match loadFromText the_platform the_factory 1 (Pimpl_init the_platform) doc with
| Ok p => p
| Err _ => Pimpl_init the_platform
end.

(** An action that no builder is registered for. *)
Definition doc_unknown : XMLDocument :=
xml_doc [] [behavior_tree [] (action "Foo" [])].

(** A tree of a control node, an action with ports of the three
    directions, and a decorator; some of the instances are named. *)
Definition tree_ports : XMLElement :=
Element "Sequence" 3 [("name", "seq")]
  [action "Move" [("goal", "{g}"); ("result", "{r}"); ("pose", "{p}"); ("speed", "1")];
   Element "Inverter" 5 [] [action "Ping" [("name", "p2")]]].
Definition doc_ports : XMLDocument := xml_doc [] [behavior_tree [] tree_ports].

(** An action whose instance has the name of the kind of its node. *)
Definition doc_named_Action : XMLDocument :=
xml_doc [] [behavior_tree [] (action "Ping" [("name", "Action")])].

(** A document that names its tree B as the main tree. *)
Definition doc_main_B : XMLDocument :=
xml_doc [("main_tree_to_execute", "B")] [behavior_tree [("ID", "B")] (action "Ping" [])].

(** Two trees without an ID around the main tree. *)
Definition root_anonymous : XMLElement :=
Element "root" 1 [("main_tree_to_execute", "Main")]
  [behavior_tree [] (action "Ping" []);
   behavior_tree [("ID", "Main")] (action "Ping" []);
   behavior_tree [] (action "Ping" [("name", "last")])].

(** A document that includes a file of a package. *)
Definition root_ros_pkg : XMLElement :=
Element "root" 1 []
  [Element "include" 2 [("path", "trees.xml"); ("ros_pkg", "my_pkg")] [];
   behavior_tree [] (action "Ping" [])].

(** A file that includes itself. *)
Definition root_loop : XMLElement :=
Element "root" 1 [] [include "/a/loop.xml"; behavior_tree [] (action "Ping" [])].
Definition loop_files (filename : string) : XMLDocument :=
if decide (filename = "/a/loop.xml") then Document (Some root_loop) else no_file.

(** The manifest of Move, and an element with a typo in the name of a
    port of it. *)
Definition manifest_Move : TreeNodeManifest :=
(manifest_of ACTION "Move"
   [("goal", mkPortInfo INPUT None); ("speed", mkPortInfo INPUT None);
    ("result", mkPortInfo OUTPUT None); ("pose", mkPortInfo INOUT None)]).2.
Definition node_typo : XMLElement := action "Move" [("gaol", "{g}")].
Definition node_Move : XMLElement :=
action "Move" [("goal", "{g}"); ("result", "{r}"); ("pose", "{p}")].

(** An action, written under the name of its ID, with a child element. *)
Definition doc_child_of_action : XMLDocument :=
xml_doc [] [behavior_tree [] (Element "Ping" 3 [] [Element "Ping" 4 [("name", "below")] []])].

(** A decorator, written under the name of its ID, without a child. *)
Definition doc_decorator_alone : XMLDocument :=
xml_doc [] [behavior_tree [] (Element "Inverter" 3 [] [])].

(** A node with an input port, an output port and a port that is both. *)
Definition node_with_ports : TreeNode :=
{| node_type := ACTION; registrationName := "Move"; node_name := "go";
   config := {| blackboard := Some 0;
                input_ports := <["goal" := "{g}"]> (<["pose" := "{p}"]> ∅);
                output_ports := <["result" := "{r}"]> (<["pose" := "{p}"]> ∅) |};
   node_children := [] |}.

(** A subtree with a <remap> that has no attribute. *)
Definition node_remap_without_attributes : XMLElement :=
Element "SubTree" 5 [("ID", "Sub")] [Element "remap" 6 [] []].

(** A tree that is its own subtree. *)
Definition doc_recursive : XMLDocument :=
xml_doc [("main_tree_to_execute", "Again")]
  [behavior_tree [("ID", "Again")] (Element "Again" 3 [] [])].

(** The parser after the load of one more text. *)
Definition session_after (p : Pimpl) (doc : XMLDocument) : Pimpl :=
match loadFromText the_platform the_factory 1 p doc with
| Ok p' => p'
| Err _ => p
end.

End Examples.

(** * Properties *)

(** ** Strings *)

Lemma append_cons c a b : String c a +:+ b = String c (a +:+ b).
Proof. reflexivity. Qed.

Lemma append_nil_l a : "" +:+ a = a.
Proof. reflexivity. Qed.

Lemma append_nil_r a : a +:+ "" = a.
Proof. induction a as [|c a IH]; [done|]. by rewrite append_cons IH. Qed.

Lemma append_assoc a b c : (a +:+ b) +:+ c = a +:+ b +:+ c.
Proof. induction a as [|x a IH]; [done|]. by rewrite !append_cons IH. Qed.

Lemma append_length a b : String.length (a +:+ b) = String.length a + String.length b.
Proof. induction a as [|x a IH]; [done|]. rewrite append_cons /=. by rewrite IH. Qed.

Lemma append_eq_nil a b : a +:+ b = "" → a = "" ∧ b = "".
Proof. destruct a; [done|]. by rewrite append_cons. Qed.

Lemma drop_last_char_append a b :
  b ≠ "" → drop_last_char (a +:+ b) = a +:+ drop_last_char b.
Proof.
  intros Hb. unfold drop_last_char. induction a as [|x a IH]; [done|].
  rewrite !append_cons. cbn [String.length].
  assert (String.length (a +:+ b) ≠ 0) as Hlen.
  { rewrite append_length. destruct b; [done|]. cbn [String.length]. lia. }
  rewrite Nat.sub_succ Nat.sub_0_r.
  destruct (String.length (a +:+ b)) as [|n] eqn:E; [done|].
  rewrite Nat.sub_succ Nat.sub_0_r in IH.
  cbn [String.substring]. by rewrite IH.
Qed.

Lemma with_semicolons_nil names : with_semicolons names = "" ↔ names = [].
Proof.
  split; [|by intros ->]. destruct names as [|n names]; [done|].
  cbn [with_semicolons foldr]. intros [_ H]%append_eq_nil. by rewrite append_cons in H.
Qed.

Lemma drop_last_char_with_semicolons names :
  names ≠ [] → drop_last_char (with_semicolons names) = String.concat ";" names.
Proof.
  induction names as [|n names IH]; [done|]. intros _.
  cbn [with_semicolons foldr]. fold (with_semicolons names).
  rewrite drop_last_char_append; [|by rewrite append_cons].
  destruct names as [|n' names].
  - change (n +:+ "" = n). by rewrite append_nil_r.
  - rewrite append_cons append_nil_l.
    assert (with_semicolons (n' :: names) ≠ "") as Hne.
    { by intros ?%with_semicolons_nil. }
    change (drop_last_char (String ";" (with_semicolons (n' :: names))))
      with (drop_last_char (";" +:+ with_semicolons (n' :: names))).
    rewrite drop_last_char_append; [|done]. rewrite IH; [|done]. reflexivity.
Qed.

(** ** The writer: the section of the manifests *)

Lemma Name_InsertEndChild c e : Name (InsertEndChild c e) = Name e.
Proof. by destruct e. Qed.

Lemma Name_SetAttribute k v e : Name (SetAttribute k v e) = Name e.
Proof. by destruct e. Qed.

Lemma ports_lists_eq model :
  ports_lists model
  = (with_semicolons (port_names INPUT model),
     with_semicolons (port_names OUTPUT model),
     with_semicolons (port_names INOUT model)).
Proof.
  unfold ports_lists, port_names.
  assert (∀ l a b c,
    fold_left
      (λ '(in_ports_list, out_ports_list, inout_ports_list) (port : string * PortInfo),
         match port_type port.2 with
         | INPUT => (in_ports_list +:+ port.1 +:+ ";", out_ports_list, inout_ports_list)
         | OUTPUT => (in_ports_list, out_ports_list +:+ port.1 +:+ ";", inout_ports_list)
         | INOUT => (in_ports_list, out_ports_list, inout_ports_list +:+ port.1 +:+ ";")
         end) l (a, b, c)
    = (a +:+ with_semicolons (filter (λ port, port_type port.2 = INPUT) l).*1,
       b +:+ with_semicolons (filter (λ port, port_type port.2 = OUTPUT) l).*1,
       c +:+ with_semicolons (filter (λ port, port_type port.2 = INOUT) l).*1)) as H.
  { induction l as [|[n port] l IH]; intros a b c.
    - by rewrite /= !append_nil_r.
    - cbn [fold_left]. rewrite !filter_cons. cbn [fst snd].
      destruct (port_type port) eqn:E; rewrite IH;
        repeat case_decide; try congruence;
        cbn [fmap list_fmap fst with_semicolons foldr];
        by rewrite ?append_assoc. }
  by rewrite H.
Qed.

Lemma set_ports_attribute_eq attr names nm a :
  attr ∉ a.*1 →
  set_ports_attribute attr (with_semicolons names) (Element nm 0 a [])
  = Element nm 0 (a ++ ports_attribute attr names) [].
Proof.
  intros Hfresh. unfold set_ports_attribute, ports_attribute.
  case_decide as Hnil.
  - apply with_semicolons_nil in Hnil as ->. by rewrite app_nil_r.
  - destruct names as [|n names]; [done|].
    rewrite drop_last_char_with_semicolons; [|done].
    cbn [SetAttribute]. f_equal.
    induction a as [|[k w] a IH]; [done|].
    cbn [set_attribute]. case_decide as Hk.
    + exfalso. apply Hfresh. subst. set_solver.
    + rewrite IH; [done|]. set_solver.
Qed.

Lemma model_element_eq model : model_element model = model_element_spec model.
Proof.
  unfold model_element, model_element_spec. rewrite ports_lists_eq.
  cbn [NewElement SetAttribute set_attribute].
  rewrite set_ports_attribute_eq; [|set_solver].
  assert (∀ attr names, (ports_attribute attr names).*1 ⊆ [attr]) as Hsub.
  { intros attr [|??]; set_solver. }
  rewrite set_ports_attribute_eq.
  2:{ cbn [app]. rewrite fmap_cons. pose proof (Hsub "input_ports" (port_names INPUT model)).
      intros [?|?]%elem_of_cons; [done|]. set_solver. }
  rewrite set_ports_attribute_eq.
  2:{ rewrite !fmap_app.
      pose proof (Hsub "input_ports" (port_names INPUT model)).
      pose proof (Hsub "output_ports" (port_names OUTPUT model)).
      intros [[?|?]%elem_of_cons|?]%elem_of_app; [done|set_solver|set_solver]. }
  by rewrite -!app_assoc.
Qed.

Lemma model_root_of_eq factory :
  model_root_of factory
  = Element "TreeNodesModel" 0 []
      (map (λ model_it, model_element_spec model_it.2)
           (filter (λ model_it, (model_it.1 ∉ builtinNodes factory)
                                ∧ manifest_type model_it.2 ≠ CONTROL)
                   (map_to_list (manifests factory)))).
Proof.
  unfold model_root_of, NewElement.
  set (g := λ model_it : string * TreeNodeManifest, model_element_spec model_it.2).
  set (P := λ model_it : string * TreeNodeManifest,
              (model_it.1 ∉ builtinNodes factory) ∧ manifest_type model_it.2 ≠ CONTROL).
  change (@nil XMLElement) with (map g []) at 1.
  rewrite -(app_nil_l (filter P _)).
  generalize (@nil (string * TreeNodeManifest)) as done_.
  induction (map_to_list (manifests factory)) as [|model_it l IH]; intros done_.
  - by rewrite /= app_nil_r.
  - cbn [fold_left]. rewrite filter_cons. unfold P at 1.
    repeat case_decide; try tauto.
    + by rewrite IH.
    + by rewrite IH.
    + cbn [InsertEndChild]. rewrite model_element_eq.
      change [model_element_spec model_it.2] with (map g [model_it]).
      rewrite -map_app IH. by rewrite -app_assoc.
Qed.

Lemma Name_model_root_of factory : Name (model_root_of factory) = "TreeNodesModel".
Proof. by rewrite model_root_of_eq. Qed.

Lemma writeXML_doc_printed env factory compact nds fuel root_node doc :
  writeXML_doc factory compact nds fuel root_node = Ok doc →
  writeXML env factory compact nds fuel root_node = Ok (Print env doc).
Proof. unfold writeXML. by intros ->. Qed.

Lemma writeXML_children factory compact nds fuel root_node doc :
  writeXML_doc factory compact nds fuel root_node = Ok doc →
  Name doc = "root"
  ∧ ChildElementsNamed "TreeNodesModel" doc = [model_root_of factory]
  ∧ ChildElementsNamed "BehaviorTree" doc
    = match root_node with
      | Some _ => filter (λ c, Name c = "BehaviorTree") (removelast (ChildElements doc))
      | None => []
      end.
Proof.
  unfold writeXML_doc, ChildElementsNamed. pose proof (Name_model_root_of factory) as Hn.
  destruct root_node as [r|].
  - destruct (recursiveVisitor _ _ _ _ _) as [el|]; [|done]. intros [= <-].
    cbn [NewElement InsertEndChild ChildElements app Name removelast].
    rewrite !filter_cons !filter_nil Hn. cbn [Name].
    repeat case_decide; done.
  - intros [= <-]. cbn [NewElement InsertEndChild ChildElements app Name].
    rewrite !filter_cons !filter_nil Hn. repeat case_decide; done.
Qed.

(** C8 (amended). The <TreeNodesModel> section that [writeXML] emits has
    exactly one element for every manifest of the factory that is neither a
    builtin node nor of kind Control, in the order of the registry. The
    element is named after the kind of the manifest, has the attribute ID,
    and the names of the ports of each direction as a list separated by
    semicolons, without a trailing separator, under input_ports,
    output_ports and inout_ports; the attribute of an empty group is
    omitted. The text that [writeXML] returns is the text that the
    printer makes of the document with this section. *)
Theorem writeXML_TreeNodesModel env factory compact nds fuel root_node doc :
  writeXML_doc factory compact nds fuel root_node = Ok doc →
  writeXML env factory compact nds fuel root_node = Ok (Print env doc)
  ∧ ChildElementsNamed "TreeNodesModel" doc
    = [Element "TreeNodesModel" 0 []
         (map (λ model_it, model_element_spec model_it.2)
              (filter (λ model_it, (model_it.1 ∉ builtinNodes factory)
                                   ∧ manifest_type model_it.2 ≠ CONTROL)
                      (map_to_list (manifests factory))))].
Proof.
  intros Hdoc. split; [by apply writeXML_doc_printed|].
  apply writeXML_children in Hdoc as (_ & -> & _). by rewrite model_root_of_eq.
Qed.

Lemma writeXML_TreeNodesModel_witness :
  ∃ doc, writeXML_doc Examples.the_factory false [] 0 None = Ok doc
         ∧ writeXML Examples.the_platform Examples.the_factory false [] 0 None
           = Ok (Examples.print_xml doc)
         ∧ ChildElementsNamed "TreeNodesModel" doc
           = [Element "TreeNodesModel" 0 []
                [Element "Action" 0
                   [("ID", "Move"); ("input_ports", "goal;speed");
                    ("output_ports", "result"); ("inout_ports", "pose")] [];
                 Element "Action" 0 [("ID", "PortA"); ("input_ports", "x")] [];
                 Element "Action" 0 [("ID", "PortB"); ("input_ports", "y")] [];
                 Element "Action" 0 [("ID", "Ping")] []]].
Proof.
  eexists. split; [reflexivity|].
  destruct (writeXML_TreeNodesModel Examples.the_platform Examples.the_factory false []
              0 None _ eq_refl) as [Htext Hmodels].
  split; [exact Htext|]. rewrite Hmodels. vm_compute. reflexivity.
Defined.

(** C8, as the specification states it, fails: MyControl is a manifest
    that is not a builtin node, and the section has no element for it. *)
Lemma writeXML_TreeNodesModel_skips_control :
  ¬ models_every_non_builtin Examples.the_factory.
Proof. unfold models_every_non_builtin. vm_compute. discriminate. Qed.

(** C10. [writeXML] with a null root node does not fail, whatever the
    nodes and the depth of the recursion are: it returns the text that
    the printer makes of a document whose <root> has one child, the
    <TreeNodesModel> section of the manifests of the factory, with the
    element of every manifest that is neither a builtin node nor of kind
    Control, in the order of the registry; so the <root> has no
    <BehaviorTree> element and exactly one <TreeNodesModel> section. *)
Theorem writeXML_null_root env factory compact nds fuel :
  ∃ models doc,
    models
    = Element "TreeNodesModel" 0 []
        (map (λ model_it, model_element_spec model_it.2)
             (filter (λ model_it, (model_it.1 ∉ builtinNodes factory)
                                  ∧ manifest_type model_it.2 ≠ CONTROL)
                     (map_to_list (manifests factory))))
    ∧ doc = Element "root" 0 [] [models]
    ∧ writeXML_doc factory compact nds fuel None = Ok doc
    ∧ writeXML env factory compact nds fuel None = Ok (Print env doc)
    ∧ ChildElementsNamed "BehaviorTree" doc = []
    ∧ ChildElementsNamed "TreeNodesModel" doc = [models].
Proof.
  eexists _, _. split; [reflexivity|]. split; [reflexivity|].
  assert (writeXML_doc factory compact nds fuel None
          = Ok (Element "root" 0 [] [model_root_of factory])) as Hdoc by reflexivity.
  rewrite model_root_of_eq in Hdoc.
  split; [exact Hdoc|]. split; [by apply writeXML_doc_printed|]. done.
Qed.

(** ** Loops *)

Lemma for_each_app {A S} (body : A → S → Result S) l1 l2 s :
  for_each body (l1 ++ l2) s = do s' <- for_each body l1 s; for_each body l2 s'.
Proof.
  revert s. induction l1 as [|a l1 IH]; intros s; [done|].
  cbn [app for_each]. destruct (body a s); [apply IH|done].
Qed.

(** A property of the state that every round keeps is kept by the loop. *)
Lemma for_each_invariant {A S} (P : S → Prop) (body : A → S → Result S) l s s' :
  (∀ a s1 s2, a ∈ l → body a s1 = Ok s2 → P s1 → P s2) →
  for_each body l s = Ok s' → P s → P s'.
Proof.
  revert s. induction l as [|a l IH]; intros s Hbody.
  - by intros [= <-].
  - cbn [for_each]. destruct (body a s) as [s1|] eqn:E; [|done].
    intros Hl Hs. apply (IH s1); [|done|].
    + intros ?????; eapply Hbody; [|done..]. set_solver.
    + eapply Hbody; [|done..]. set_solver.
Qed.

(** ** Documents *)

(** Induction on an element with the property of its children. *)
Lemma XMLElement_ind' (P : XMLElement → Prop) :
  (∀ name line attributes children,
     Forall P children → P (Element name line attributes children)) →
  ∀ e, P e.
Proof.
  intros H. fix IH 1. intros [name line attributes children]. apply H.
  induction children as [|c cs IHcs]; constructor; [apply IH|apply IHcs].
Qed.

Lemma for_each_unit_Ok {A} (f : A → Result unit) l :
  for_each (λ a _, f a) l tt = Ok tt ↔ Forall (λ a, f a = Ok tt) l.
Proof.
  induction l as [|a l IH]; cbn [for_each].
  - by split; [constructor|].
  - destruct (f a) as [[]|] eqn:E.
    + rewrite IH. split; [by constructor|by inversion 1].
    + split; [done|]. inversion 1; congruence.
Qed.

(** ** The validator *)

Lemma verify_recursiveStep_eq factory roots node :
  verify_recursiveStep factory roots node
  = (check verify_node factory roots node;
     if decide (Name node = "SubTree") then Ok tt
     else for_each (λ child _, verify_recursiveStep factory roots child)
            (ChildElements node) tt).
Proof. by destruct node. Qed.

Section ValidatorMonotone.
Context (factory : BehaviorTreeFactory) (roots roots' : gmap string XMLElement).
Context (Hsub : ∀ id, is_Some (roots !! id) → is_Some (roots' !! id)).

Lemma verify_node_mono node :
  verify_node factory roots node = Ok tt → verify_node factory roots' node = Ok tt.
Proof using Hsub.
  unfold verify_node, ThrowError.
  repeat (case_decide; [by repeat case_match|]).
  destruct (is_control_name _); [done|].
  destruct (bool_decide (is_Some (manifests factory !! Name node))); [done|].
  cbn [orb]. case_bool_decide as Hr; [|done].
  intros _. by rewrite (bool_decide_eq_true_2 _ (Hsub _ Hr)).
Qed.

Lemma verify_recursiveStep_mono node :
  verify_recursiveStep factory roots node = Ok tt →
  verify_recursiveStep factory roots' node = Ok tt.
Proof using Hsub.
  induction node as [name line attrs children IH] using XMLElement_ind'.
  rewrite !verify_recursiveStep_eq.
  destruct (verify_node factory roots _) as [[]|] eqn:E; [|done].
  rewrite (verify_node_mono _ E). case_decide; [done|].
  cbn [ChildElements]. rewrite !for_each_unit_Ok.
  intros Hcs. rewrite ->Forall_forall in IH, Hcs |- *. naive_solver.
Qed.

Lemma verify_trees_mono bts names count r :
  verify_trees factory roots bts names count = Ok r →
  verify_trees factory roots' bts names count = Ok r.
Proof using Hsub.
  revert names count. induction bts as [|bt bts IH]; intros names count; [done|].
  cbn [verify_trees]. destruct (ChildElements bt) as [|child [|??]]; [done| |done].
  destruct (verify_recursiveStep factory roots child) as [[]|] eqn:E; [|done].
  rewrite (verify_recursiveStep_mono _ E). apply IH.
Qed.

Lemma verifyXML_mono doc :
  verifyXML factory roots doc = Ok tt → verifyXML factory roots' doc = Ok tt.
Proof using Hsub.
  unfold verifyXML. destruct doc as [|[xml_root|]]; [done| |done].
  destruct (negb _); [done|]. destruct (verify_model xml_root); [|done].
  destruct (verify_trees factory roots _ _ _) as [[names count]|] eqn:E; [|done].
  by rewrite (verify_trees_mono _ _ _ _ E).
Qed.
End ValidatorMonotone.

(** ** The loader: the index of the trees *)

Lemma map_insert_new_lookup {A} k (v : A) m k' :
  map_insert_new k v m !! k'
  = match m !! k' with
    | Some e => Some e
    | None => if decide (k = k') then Some v else None
    end.
Proof.
  unfold map_insert_new. destruct (decide (k = k')) as [<-|Hne].
  - by destruct (m !! k) eqn:E1; rewrite ?lookup_insert_eq ?E1.
  - destruct (m !! k) eqn:E1; rewrite ?lookup_insert_ne //; by destruct (m !! k').
Qed.

Lemma register_tree_lookup p bt id :
  tree_roots (register_tree p bt) !! id
  = match tree_roots p !! id with
    | Some e => Some e
    | None => if decide (tree_name_of (suffix_count p) bt = id) then Some bt else None
    end.
Proof. apply map_insert_new_lookup. Qed.

Lemma register_tree_retains p bt id e :
  tree_roots p !! id = Some e → tree_roots (register_tree p bt) !! id = Some e.
Proof. intros H. by rewrite register_tree_lookup H. Qed.

Lemma fold_register_tree_retains l p id e :
  tree_roots p !! id = Some e → tree_roots (fold_left register_tree l p) !! id = Some e.
Proof.
  revert p. induction l as [|bt l IH]; intros p H; [done|].
  cbn [fold_left]. by apply IH, register_tree_retains.
Qed.

Lemma register_trees_retains p xml_root id e :
  tree_roots p !! id = Some e → tree_roots (register_trees p xml_root) !! id = Some e.
Proof. apply fold_register_tree_retains. Qed.

Lemma loadDocImpl_retains env factory fuel p doc p' id e :
  loadDocImpl env factory fuel p doc = Ok p' →
  tree_roots p !! id = Some e → tree_roots p' !! id = Some e.
Proof.
  revert p doc p'. induction fuel as [|fuel IH]; intros p doc p'; [done|].
  cbn [loadDocImpl]. destruct doc as [|[xml_root|]]; [done| |done].
  destruct (for_each _ _ p) as [p1|] eqn:Hinc; [|done].
  destruct (verifyXML _ _ _); [|done]. intros [= <-] Hp.
  apply register_trees_retains.
  revert Hinc Hp. apply (for_each_invariant (λ q, tree_roots q !! id = Some e)).
  intros inc q1 q2 _. destruct (include_path _ _) as [file_path|]; [|done].
  intros Hload Hq1. by eapply IH.
Qed.

(** ** The validator: the selection of the main tree *)

Lemma verify_trees_result factory roots bts names count r :
  verify_trees factory roots bts names count = Ok r →
  r = (names ++ omap (λ bt, Attribute bt "ID") bts, count + length bts).
Proof.
  revert names count. induction bts as [|bt bts IH]; intros names count.
  - intros [= <-]. by rewrite /= app_nil_r Nat.add_0_r.
  - cbn [verify_trees]. destruct (ChildElements bt) as [|child [|??]]; [done| |done].
    destruct (verify_recursiveStep factory roots child) as [[]|]; [|done].
    intros ->%IH. cbn [omap list_omap length].
    destruct (Attribute bt "ID"); rewrite -?app_assoc /=; f_equal; lia.
Qed.

Lemma register_trees_IDs p xml_root id :
  id ∈ tree_IDs xml_root → is_Some (tree_roots (register_trees p xml_root) !! id).
Proof.
  unfold tree_IDs, register_trees. revert p.
  induction (ChildElementsNamed "BehaviorTree" xml_root) as [|bt l IH]; intros p.
  - by intros ?%elem_of_nil.
  - cbn [omap list_omap fold_left].
    assert (∀ q e, tree_roots q !! id = Some e →
                   is_Some (tree_roots (fold_left register_tree l q) !! id)) as Hkeep.
    { intros q e Hq. exists e. by apply fold_register_tree_retains. }
    destruct (Attribute bt "ID") as [id'|] eqn:E.
    + intros [->|Hin]%elem_of_cons; [|by apply IH].
      pose proof (register_tree_lookup p bt id') as Hl.
      unfold tree_name_of in Hl. rewrite E decide_True // in Hl.
      destruct (tree_roots p !! id'); eapply Hkeep; exact Hl.
    + apply IH.
Qed.

(** C6 (amended). The selection of the main tree is checked for every
    document that is loaded, against the trees of that document: when the
    earlier checks of the validator pass, the validation of a document
    succeeds if and only if the value of main_tree_to_execute of its root
    is the ID attribute of a <BehaviorTree> element of the same document,
    or the attribute is absent and the document has exactly one
    <BehaviorTree> element. In particular the validation fails when the
    value is not a tree ID of the index, which has the IDs of the document. *)
Theorem verifyXML_main_tree_selection factory roots xml_root names count :
  Name xml_root = "root" →
  verify_model xml_root = Ok tt →
  verify_trees factory roots (ChildElementsNamed "BehaviorTree" xml_root) [] 0
  = Ok (names, count) →
  (verifyXML factory roots (Document (Some xml_root)) = Ok tt
   ↔ match Attribute xml_root "main_tree_to_execute" with
     | Some main_tree => main_tree ∈ tree_IDs xml_root
     | None => length (ChildElementsNamed "BehaviorTree" xml_root) = 1
     end)
  ∧ (∀ p main_tree,
       Attribute xml_root "main_tree_to_execute" = Some main_tree →
       tree_roots (register_trees p xml_root) !! main_tree = None →
       verifyXML factory roots (Document (Some xml_root)) ≠ Ok tt).
Proof.
  intros Hname Hmodel Htrees.
  pose proof (verify_trees_result _ _ _ _ _ _ Htrees) as [= -> ->].
  assert (verifyXML factory roots (Document (Some xml_root)) = Ok tt
          ↔ match Attribute xml_root "main_tree_to_execute" with
            | Some main_tree => main_tree ∈ tree_IDs xml_root
            | None => length (ChildElementsNamed "BehaviorTree" xml_root) = 1
            end) as Hiff.
  { unfold verifyXML. rewrite Hname bool_decide_eq_true_2 // Hmodel Htrees.
    cbn [negb]. unfold verify_main_tree, tree_IDs.
    destruct (Attribute xml_root "main_tree_to_execute") as [main_tree|];
      case_bool_decide; naive_solver. }
  split; [exact Hiff|].
  intros p main_tree Hattr Hnone Hok. apply Hiff in Hok. rewrite Hattr in Hok.
  apply (register_trees_IDs p) in Hok. rewrite Hnone in Hok. by destruct Hok.
Qed.

Lemma verifyXML_main_tree_selection_witness :
  verifyXML Examples.the_factory ∅ Examples.doc_twice_A = Ok tt
  ∧ "A" ∈ tree_IDs (Element "root" 1 [("main_tree_to_execute", "A")]
                      [Examples.first_A; Examples.second_A]).
Proof.
  pose proof (verifyXML_main_tree_selection Examples.the_factory ∅
                (Element "root" 1 [("main_tree_to_execute", "A")]
                   [Examples.first_A; Examples.second_A]) ["A"; "A"] 2
                eq_refl eq_refl eq_refl) as [Hiff _].
  assert ("A" ∈ tree_IDs (Element "root" 1 [("main_tree_to_execute", "A")]
                            [Examples.first_A; Examples.second_A])) as Hin.
  { vm_compute. left. }
  split; [|exact Hin]. apply Hiff. exact Hin.
Defined.

(** C6, as the specification states it, fails. Two documents with one
    tree each and without main_tree_to_execute are both accepted, with two
    trees in all the documents; and a document whose main_tree_to_execute
    is the generated ID of its tree, an ID of the index, is rejected. *)
Lemma main_tree_selection_is_per_document :
  (∃ p1 p2,
     loadFromText Examples.the_platform Examples.the_factory 1
       (Pimpl_init Examples.the_platform) (Examples.doc_tree "A") = Ok p1
     ∧ loadFromText Examples.the_platform Examples.the_factory 1 p1
         (Examples.doc_tree "B") = Ok p2
     ∧ count_trees (opened_documents p2) = 2
     ∧ selects_main_tree_across_documents p2 = false
     ∧ verifyXML Examples.the_factory (tree_roots p2) (Examples.doc_tree "B") = Ok tt)
  ∧ (let p := register_trees
                (open_document (Pimpl_init Examples.the_platform) Examples.doc_generated_ID)
                (Element "root" 1 [("main_tree_to_execute", "BehaviorTree_0")]
                   [Examples.behavior_tree [] (Examples.action "Ping" [])]) in
     selects_main_tree_across_documents p = true
     ∧ verifyXML Examples.the_factory (tree_roots p) Examples.doc_generated_ID
       = Err (SchemaError None "The tree specified in [main_tree_to_execute] can't be found")
     ∧ loadFromText Examples.the_platform Examples.the_factory 1
         (Pimpl_init Examples.the_platform) Examples.doc_generated_ID
       = Err (SchemaError None "The tree specified in [main_tree_to_execute] can't be found")).
Proof.
  split.
  - eexists _, _. repeat split; vm_compute; reflexivity.
  - repeat split; vm_compute; reflexivity.
Qed.

(** ** The loader: the directory of the includes *)

(** The includes of a document leave [current_path] as it is. *)
Lemma loadDocImpl_current_path env factory fuel p doc p' :
  loadDocImpl env factory fuel p doc = Ok p' → current_path p' = current_path p.
Proof.
  revert p doc p'. induction fuel as [|fuel IH]; intros p doc p'; [done|].
  cbn [loadDocImpl]. destruct doc as [|[xml_root|]]; [done| |done].
  destruct (for_each _ _ p) as [p1|] eqn:Hinc; [|done].
  destruct (verifyXML _ _ _); [|done]. intros [= <-].
  assert (current_path p1 = current_path p) as <-.
  { eapply (for_each_invariant (λ q, current_path q = current_path p)); [|exact Hinc|done].
    intros inc q1 q2 _. cbv beta.
    destruct (include_path _ _ _) as [file_path|]; [|done].
    intros ->%IH. done. }
  unfold register_trees.
  generalize (ChildElementsNamed "BehaviorTree" xml_root) as l. clear.
  intros l. revert p1. induction l as [|bt l IHl]; intros q; [done|].
  cbn [fold_left]. by rewrite IHl.
Qed.

(** C7 fails on the code. /a/main.xml includes sub/b.xml, and
    /a/sub/b.xml includes c.xml: after the load of /a/sub/b.xml the
    directory of the includes is still /a, the directory of the file that
    [loadFromFile] was given, so the document that is loaded for c.xml is
    /a/c.xml and not /a/sub/c.xml. *)
Theorem include_of_included_file :
  ∃ p, loadFromFile (Examples.platform_with Examples.some_files) Examples.the_factory 3
         (Pimpl_init (Examples.platform_with Examples.some_files)) "/a/main.xml" = Ok p
       ∧ current_path p = mkPath true ["a"]
       ∧ opened_documents p
         = [Examples.some_files "/a/main.xml"; Examples.some_files "/a/sub/b.xml";
            Examples.some_files "/a/c.xml"]
       ∧ is_Some (tree_roots p !! "C_in_a")
       ∧ tree_roots p !! "C_in_a_sub" = None.
Proof.
  eexists. split; [vm_compute; reflexivity|].
  repeat split; try (vm_compute; reflexivity). by eexists.
Qed.

(** ** Blackboards: the types of the keys *)

Lemma same_links_refl boards : same_links boards boards.
Proof. split; [done|]. naive_solver. Qed.

Lemma same_links_trans b1 b2 b3 : same_links b1 b2 → same_links b2 b3 → same_links b1 b3.
Proof.
  intros [Hl1 H1] [Hl2 H2]. split; [congruence|].
  intros i b Hb. destruct (H1 i b Hb) as (b' & Hb' & ? & ?).
  destruct (H2 i b' Hb') as (b'' & Hb'' & ? & ?). exists b''. split; [done|]. split; congruence.
Qed.

Lemma same_links_valid boards boards' :
  same_links boards boards' → valid_boards boards → valid_boards boards'.
Proof.
  intros [Hlen H] Hv i b' parent Hb' Hp.
  destruct (boards !! i) as [b|] eqn:Hb.
  - destruct (H i b Hb) as (b'' & Hb'' & Hpar & _).
    rewrite Hb' in Hb''. injection Hb'' as <-. apply (Hv i b); congruence.
  - apply lookup_ge_None_1 in Hb. apply lookup_lt_Some in Hb'. lia.
Qed.

Lemma resolve_key_same_links fuel boards boards' bb key :
  same_links boards boards' →
  resolve_key fuel boards' bb key = resolve_key fuel boards bb key.
Proof.
  intros [Hlen H]. revert bb key. induction fuel as [|fuel IH]; intros bb key; [done|].
  cbn [resolve_key]. destruct (boards !! bb) as [b|] eqn:Hb.
  - destruct (H bb b Hb) as (b' & -> & -> & ->).
    destruct (bb_parent b); [|done]. destruct (find_attribute _ _); [|done]. apply IH.
  - apply lookup_ge_None_1 in Hb. rewrite (lookup_ge_None_2 boards' bb); [done|lia].
Qed.

Lemma resolve_key_lt fuel boards bb key :
  valid_boards boards → bb < length boards →
  (resolve_key fuel boards bb key).1 < length boards.
Proof.
  intros Hv. revert bb key. induction fuel as [|fuel IH]; intros bb key Hbb; [done|].
  cbn [resolve_key]. destruct (boards !! bb) as [b|] eqn:Hb; [|done].
  destruct (bb_parent b) as [parent|] eqn:Hp; [|done].
  destruct (find_attribute _ _); [|done]. apply IH.
  pose proof (Hv bb b parent Hb Hp). lia.
Qed.

Lemma setPortType_same_links boards bb key type :
  same_links boards (setPortType boards bb key type).
Proof.
  unfold setPortType. destruct (resolve_key _ _ _ _) as [b k].
  split; [by rewrite length_alter|]. intros i board Hi.
  destruct (decide (b = i)) as [->|Hne].
  - rewrite list_lookup_alter_eq Hi /=. eauto.
  - rewrite list_lookup_alter_ne //. eauto.
Qed.

(** The type that is set is the type that is read. *)
Lemma portType_setPortType boards bb key type :
  valid_boards boards → bb < length boards →
  portType (setPortType boards bb key type) bb key = Some type.
Proof.
  intros Hv Hbb. unfold portType.
  rewrite (resolve_key_same_links _ boards); [|by apply setPortType_same_links].
  destruct (setPortType_same_links boards bb key type) as [-> _].
  unfold setPortType.
  pose proof (resolve_key_lt (length boards) boards bb key Hv Hbb) as Hlt.
  destruct (resolve_key _ _ _ _) as [b k]. cbn [fst] in Hlt.
  apply lookup_lt_is_Some_2 in Hlt as [board Hb].
  by rewrite list_lookup_alter_eq Hb /= lookup_insert_eq.
Qed.

(** An entry that reads another type than [key] in [bb] is another
    entry: its type stays. *)
Lemma portType_setPortType_other boards bb key type bb' key' :
  portType boards bb' key' ≠ portType boards bb key →
  portType (setPortType boards bb key type) bb' key' = portType boards bb' key'.
Proof.
  unfold portType.
  rewrite (resolve_key_same_links _ boards); [|by apply setPortType_same_links].
  destruct (setPortType_same_links boards bb key type) as [-> _].
  unfold setPortType.
  destruct (resolve_key _ _ bb key) as [b k]. destruct (resolve_key _ _ bb' key') as [b' k'].
  intros Hne. destruct (decide (b = b')) as [<-|Hb].
  - rewrite list_lookup_alter_eq. destruct (boards !! b) as [board|]; [|done].
    cbn in *. rewrite lookup_insert_ne; [done|]. by intros ->.
  - by rewrite list_lookup_alter_ne.
Qed.

Section PortTypes.
Context (env : Platform).

Lemma init_port_type_same_links boards bb remap port_it boards' :
  init_port_type env boards bb remap port_it = Ok boards' → same_links boards boards'.
Proof.
  unfold init_port_type. repeat case_match; intros [= <-];
    auto using same_links_refl, setPortType_same_links.
Qed.

Lemma init_port_type_keeps boards bb remap port_it boards' bb' key type :
  init_port_type env boards bb remap port_it = Ok boards' →
  portType boards bb' key = Some type → portType boards' bb' key = Some type.
Proof.
  unfold init_port_type. repeat case_match; intros [= <-] Hk; try done.
  rewrite portType_setPortType_other; [done|congruence].
Qed.

Lemma init_port_types_same_links boards bb remap l boards' :
  init_port_types env boards bb remap l = Ok boards' → same_links boards boards'.
Proof.
  revert boards. induction l as [|port_it l IH]; intros boards.
  - intros [= <-]. apply same_links_refl.
  - cbn [init_port_types].
    destruct (init_port_type _ _ _ _ _) as [boards1|] eqn:E; [|done].
    intros H. eapply same_links_trans; [by eapply init_port_type_same_links|by apply IH].
Qed.

Lemma init_port_types_keeps boards bb remap l boards' bb' key type :
  init_port_types env boards bb remap l = Ok boards' →
  portType boards bb' key = Some type → portType boards' bb' key = Some type.
Proof.
  revert boards. induction l as [|port_it l IH]; intros boards.
  - by intros [= <-].
  - cbn [init_port_types].
    destruct (init_port_type _ _ _ _ _) as [boards1|] eqn:E; [|done].
    intros H Hk. apply (IH boards1); [done|]. by eapply init_port_type_keeps.
Qed.

Lemma init_port_type_Err boards bb remap port_it e :
  init_port_type env boards bb remap port_it = Err e → type_mismatch_thrown e.
Proof.
  unfold init_port_type. repeat case_match; intros [= <-]. by eexists _, _, _.
Qed.

(** What the loop does with one port that is mapped to an entry. *)
Lemma init_port_type_bound boards bb remap port_name port info value key :
  port_info port = Some info → remap !! port_name = Some value →
  getRemappedKey env port_name value = Some key →
  init_port_type env boards bb remap (port_name, port)
  = match portType boards bb key with
    | None => Ok (setPortType boards bb key info)
    | Some prev_type =>
        if decide (prev_type = info) then Ok boards
        else Err (thrown_with_buffer 1024 (type_mismatch_message key prev_type info)
                    (TypeMismatchError key prev_type info))
    end.
Proof. intros Hi Hr Hk. unfold init_port_type. cbn [fst snd]. by rewrite Hi Hr Hk. Qed.

(** After the loop the type of a port that is mapped to an entry is the
    type of the entry. *)
Lemma init_port_types_records boards bb remap l boards' port_name port info value key :
  valid_boards boards → bb < length boards →
  init_port_types env boards bb remap l = Ok boards' →
  (port_name, port) ∈ l →
  port_info port = Some info → remap !! port_name = Some value →
  getRemappedKey env port_name value = Some key →
  portType boards' bb key = Some info.
Proof.
  intros Hv Hbb Hl Hin Hi Hr Hk. revert boards Hv Hbb Hl.
  induction l as [|port_it l IH]; intros boards Hv Hbb; [by apply elem_of_nil in Hin|].
  cbn [init_port_types].
  destruct (init_port_type _ _ _ _ _) as [boards1|] eqn:E; [|done]. intros Hl.
  apply elem_of_cons in Hin as [<-|Hin].
  - eapply init_port_types_keeps; [done|].
    rewrite (init_port_type_bound _ _ _ _ _ _ _ _ Hi Hr Hk) in E.
    destruct (portType boards bb key) as [prev|] eqn:Hprev.
    + case_decide; [|done]. injection E as <-. congruence.
    + injection E as <-. by apply portType_setPortType.
  - pose proof (init_port_type_same_links _ _ _ _ _ E) as Hs.
    apply (IH Hin boards1); [by eapply same_links_valid| |done].
    destruct Hs as [-> _]. done.
Qed.

(** The loop fails on an entry that has another type than a port that is
    mapped to it. *)
Lemma init_port_types_mismatch boards bb remap l port_name port info value key prev :
  (port_name, port) ∈ l →
  port_info port = Some info → remap !! port_name = Some value →
  getRemappedKey env port_name value = Some key →
  portType boards bb key = Some prev → prev ≠ info →
  ∃ e, init_port_types env boards bb remap l = Err e ∧ type_mismatch_thrown e.
Proof.
  intros Hin Hi Hr Hk Hprev Hne. revert boards Hprev.
  induction l as [|port_it l IH]; intros boards Hprev; [by apply elem_of_nil in Hin|].
  cbn [init_port_types]. apply elem_of_cons in Hin as [<-|Hin].
  - rewrite (init_port_type_bound _ _ _ _ _ _ _ _ Hi Hr Hk) Hprev.
    destruct (decide (prev = info)); [done|]. eexists. split; [done|]. by exists key, prev, info.
  - destruct (init_port_type _ _ _ _ _) as [boards1|e] eqn:E.
    + apply IH; [done|]. by eapply init_port_type_keeps.
    + exists e. split; [done|]. by eapply init_port_type_Err.
Qed.
End PortTypes.

(** ** The instantiator: a rule for its recursion *)

(** [recursiveStep] is a sequence of two kinds of steps, the addition of a
    node and the addition of the blackboard of a subtree. A relation
    between the states that both steps establish holds between the state
    before and the state after the recursion. [I] is what the steps need
    of the blackboard and the parent that the recursion is in. *)
Section InstantiatorRule.
Context (env : Platform) (factory : BehaviorTreeFactory) (roots : gmap string XMLElement).
Context (I : nat → option nat → Build → Prop) (R : Build → Build → Prop).
Context (R_refl : ∀ st, R st st).
Context (R_trans : ∀ st1 st2 st3, R st1 st2 → R st2 st3 → R st1 st3).
Context (I_stable : ∀ bb parent st st', I bb parent st → R st st' → I bb parent st').
Context (add_node_step : ∀ element bb parent st node self st',
           I bb parent st →
           add_node env factory roots element bb parent st = Ok (node, self, st') →
           R st st' ∧ I bb (Some self) st').
Context (push_step : ∀ element bb parent st new_bb st',
           I bb parent st →
           push_subtree_blackboard element st = Ok (new_bb, st') →
           R st st' ∧ I new_bb parent st').

Lemma recursiveStep_rule fuel bb parent element st st' :
  recursiveStep env factory roots fuel bb parent element st = Ok st' →
  I bb parent st → R st st'.
Proof using All.
  revert bb parent element st st'.
  induction fuel as [|fuel IH]; intros bb parent element st st'; [done|].
  cbn [recursiveStep].
  destruct (add_node _ _ _ _ _ _ _) as [[[node self] st1]|] eqn:Hadd; [|done].
  intros Hrec HI. destruct (add_node_step _ _ _ _ _ _ _ HI Hadd) as [HR1 HI1].
  case_decide.
  - destruct (push_subtree_blackboard _ _) as [[new_bb st2]|] eqn:Hpush; [|done].
    destruct (tree_root_element _ _) as [root_element|]; [|done].
    destruct (push_step _ _ _ _ _ _ HI1 Hpush) as [HR2 HI2].
    eapply R_trans; [exact HR1|]. eapply R_trans; [exact HR2|]. by eapply IH.
  - eapply R_trans; [exact HR1|]. clear Hadd HR1 HI.
    revert st1 Hrec HI1. generalize (ChildElements element) as cs.
    induction cs as [|child cs IHcs]; intros st1.
    + intros [= <-] _. apply R_refl.
    + cbn [for_each].
      destruct (recursiveStep _ _ _ _ _ _ child st1) as [st2|] eqn:Hchild; [|done].
      intros Hrest HI1. pose proof (IH _ _ _ _ _ Hchild HI1) as HR.
      eapply R_trans; [exact HR|]. apply IHcs; [done|]. by eapply I_stable.
Qed.
Lemma for_each_recursiveStep_rule fuel bb parent cs st st' :
  for_each (recursiveStep env factory roots fuel bb parent) cs st = Ok st' →
  I bb parent st → R st st'.
Proof using All.
  revert st. induction cs as [|child cs IHcs]; intros st.
  - intros [= <-] _. apply R_refl.
  - cbn [for_each].
    destruct (recursiveStep _ _ _ _ _ _ child st) as [st2|] eqn:Hchild; [|done].
    intros Hrest HI. pose proof (recursiveStep_rule _ _ _ _ _ _ Hchild HI) as HR.
    eapply R_trans; [exact HR|]. apply IHcs; [done|]. by eapply I_stable.
Qed.
End InstantiatorRule.

(** ** Blackboards: the resolution of a key in a store that grows *)

Lemma resolve_key_agree fuel fuel' boards boards' bb key :
  valid_boards boards →
  (∀ i, i ≤ bb → boards' !! i = boards !! i) →
  bb < fuel → bb < fuel' →
  resolve_key fuel' boards' bb key = resolve_key fuel boards bb key.
Proof.
  intros Hv. revert fuel' bb key.
  induction fuel as [|fuel IH]; intros fuel' bb key Hag Hf Hf'; [lia|].
  destruct fuel' as [|fuel']; [lia|]. cbn [resolve_key].
  rewrite Hag; [|lia]. destruct (boards !! bb) as [b|] eqn:Hb; [|done].
  destruct (bb_parent b) as [parent|] eqn:Hp; [|done].
  destruct (find_attribute _ _); [|done].
  pose proof (Hv bb b parent Hb Hp).
  apply IH; [|lia..]. intros i Hi. apply Hag. lia.
Qed.

Lemma resolve_key_le fuel boards bb key :
  valid_boards boards → (resolve_key fuel boards bb key).1 ≤ bb.
Proof.
  intros Hv. revert bb key. induction fuel as [|fuel IH]; intros bb key; [done|].
  cbn [resolve_key]. destruct (boards !! bb) as [b|] eqn:Hb; [|done].
  destruct (bb_parent b) as [parent|] eqn:Hp; [|done].
  destruct (find_attribute _ _); [|done].
  pose proof (Hv bb b parent Hb Hp). pose proof (IH parent s). lia.
Qed.

Lemma portType_agree boards boards' bb key :
  valid_boards boards → bb < length boards → length boards ≤ length boards' →
  (∀ i, i ≤ bb → boards' !! i = boards !! i) →
  portType boards' bb key = portType boards bb key.
Proof.
  intros Hv Hbb Hlen Hag. unfold portType.
  rewrite (resolve_key_agree (length boards) (length boards') boards boards');
    [|done|done|done|lia].
  pose proof (resolve_key_le (length boards) boards bb key Hv) as Hle.
  destruct (resolve_key _ _ _ _) as [b k]. cbn [fst] in Hle. by rewrite Hag.
Qed.

Lemma add_remappings_inv boards new_bb l boards' :
  add_remappings boards new_bb l = Ok boards' →
  length boards' = length boards
  ∧ (∀ i, i ≠ new_bb → boards' !! i = boards !! i)
  ∧ (∀ b, boards !! new_bb = Some b →
          ∃ b', boards' !! new_bb = Some b'
                ∧ bb_parent b' = bb_parent b
                ∧ bb_types b' = bb_types b
                ∧ Some (bb_remapping b')
                  = (λ pairs, bb_remapping b ++ pairs)
                      <$> mapM (λ remap_el,
                                  internal ← Attribute remap_el "internal";
                                  external ← Attribute remap_el "external";
                                  Some (internal, external)) l).
Proof.
  revert boards. induction l as [|remap_el l IH]; intros boards.
  - intros [= <-]. split; [done|]. split; [done|]. intros b Hb. exists b.
    by rewrite /= app_nil_r.
  - cbn [add_remappings].
    destruct (Attribute remap_el "internal") as [internal|] eqn:Hint; [|done].
    destruct (Attribute remap_el "external") as [external|] eqn:Hext; [|done].
    intros (Hlen & Hother & Hnew)%IH. unfold addSubtreeRemapping in *.
    rewrite length_alter in Hlen. split; [done|]. split.
    + intros i Hi. rewrite Hother // list_lookup_alter_ne //.
    + intros b Hb. rewrite list_lookup_alter_eq Hb /= in Hnew.
      destruct (Hnew _ eq_refl) as (b' & Hb' & Hp & Ht & Hr). exists b'.
      split; [done|]. split; [done|]. split; [done|].
      rewrite Hr /= Hint Hext /=. destruct (mapM _ l) as [pairs|]; [|done].
      by rewrite /= -app_assoc.
Qed.

(** ** The instantiator: what a step does to the blackboards *)

Lemma check_remapping_names_Err manifest ID instance_name l e :
  check_remapping_names manifest ID instance_name l = Err e → typo_thrown e.
Proof.
  induction l as [|remapping_it l IH]; [done|]. cbn [check_remapping_names].
  case_decide; [done|]. intros [= <-]. by eexists _, _, _.
Qed.

Lemma thrown_with_buffer_fits size message e :
  String.length message < size → thrown_with_buffer size message e = e.
Proof. intros H. unfold thrown_with_buffer. by rewrite decide_True. Qed.

Lemma thrown_with_buffer_cases size message e :
  thrown_with_buffer size message e = e
  ∨ thrown_with_buffer size message e = BufferOverflow.
Proof. unfold thrown_with_buffer. case_decide; auto. Qed.

Lemma typo_thrown_cases e :
  typo_thrown e → e = BufferOverflow ∨ ∃ port ID instance_name, e = TypoError port ID instance_name.
Proof.
  intros (port & ID & instance_name & ->).
  destruct (thrown_with_buffer_cases 1024 (typo_message port ID instance_name)
              (TypoError port ID instance_name)) as [-> | ->]; eauto.
Qed.

Lemma type_mismatch_thrown_cases e :
  type_mismatch_thrown e →
  e = BufferOverflow ∨ ∃ port_key prev_type new_type, e = TypeMismatchError port_key prev_type new_type.
Proof.
  intros (port_key & prev_type & new_type & _ & ->).
  destruct (thrown_with_buffer_cases 1024 (type_mismatch_message port_key prev_type new_type)
              (TypeMismatchError port_key prev_type new_type)) as [-> | ->]; eauto.
Qed.

Section InstantiatorBoards.
Context (env : Platform) (factory : BehaviorTreeFactory) (roots : gmap string XMLElement).

(** The node that [createNodeFromXML] makes of an element of a registered
    builder. *)
Lemma createNodeFromXML_builder element bb parent nds boards ID instance_name manifest :
  element_ID element = Ok ID →
  element_instance_name element ID = Ok instance_name →
  ID ∈ builders factory →
  manifests factory !! ID = Some manifest →
  createNodeFromXML env factory roots element bb parent nds boards
  = (check check_remapping_names manifest ID instance_name
             (map_to_list (remapping_parameters_of element));
     do boards' <- init_port_types env boards bb (remapping_parameters_of element)
                     (map_to_list (ports manifest));
     do nds' <- link_to_parent nds parent (length nds);
     Ok (instantiateTreeNode manifest instance_name ID
           (config_of bb manifest (remapping_parameters_of element)), nds', boards')).
Proof.
  intros HID Hname Hb Hm. unfold createNodeFromXML.
  rewrite HID Hname decide_True // Hm.
  destruct (check_remapping_names _ _ _ _); [|done].
  by destruct (init_port_types _ _ _ _ _).
Qed.

Lemma createNodeFromXML_inv element bb parent nds boards node nds' boards' :
  createNodeFromXML env factory roots element bb parent nds boards
  = Ok (node, nds', boards') →
  link_to_parent nds parent (length nds) = Ok nds'
  ∧ node_children node = []
  ∧ same_links boards boards'
  ∧ (∀ b key type, portType boards b key = Some type → portType boards' b key = Some type).
Proof.
  unfold createNodeFromXML.
  destruct (element_ID element) as [ID|]; [|done].
  destruct (element_instance_name element ID) as [instance_name|]; [|done].
  case_decide.
  - destruct (manifests factory !! ID) as [manifest|]; [|done].
    destruct (check_remapping_names _ _ _ _); [|done].
    destruct (init_port_types _ _ _ _ _) as [boards1|] eqn:E; [|done].
    destruct (link_to_parent _ _ _) as [nds1|]; [|done]. intros [= <- <- <-].
    split; [done|]. split; [done|]. split; [by eapply init_port_types_same_links|].
    intros b key type. by eapply init_port_types_keeps.
  - case_decide; [|done].
    destruct (link_to_parent _ _ _) as [nds1|]; [|done]. intros [= <- <- <-].
    split; [done|]. split; [done|]. split; [apply same_links_refl|done].
Qed.

Lemma boards_grow_refl st : boards_grow st st.
Proof.
  intros Hwf. split; [done|]. split; [done|]. split; [naive_solver|]. split; [done|].
  exists []. by rewrite app_nil_r.
Qed.

Lemma boards_grow_trans st1 st2 st3 :
  boards_grow st1 st2 → boards_grow st2 st3 → boards_grow st1 st3.
Proof.
  intros H12 H23 Hwf1.
  destruct (H12 Hwf1) as (Hwf2 & Hlen12 & Hl12 & Hp12 & new12 & Hs12 & Hn12).
  destruct (H23 Hwf2) as (Hwf3 & Hlen23 & Hl23 & Hp23 & new23 & Hs23 & Hn23).
  split; [done|]. split; [lia|]. split; [|split].
  - intros i b Hb. destruct (Hl12 i b Hb) as (b' & Hb' & ? & ?).
    destruct (Hl23 i b' Hb') as (b'' & Hb'' & ? & ?).
    exists b''. split; [done|]. split; congruence.
  - intros b key type Hb Hk. apply Hp23; [lia|]. by apply Hp12.
  - exists (new12 ++ new23). split; [by rewrite Hs23 Hs12 app_assoc|].
    apply Forall_app. split; [done|]. eapply Forall_impl; [exact Hn23|].
    intros b ?. cbn in *. lia.
Qed.

Lemma add_node_boards element bb parent st node self st' :
  add_node env factory roots element bb parent st = Ok (node, self, st') →
  boards_grow st st'
  ∧ blackboard_stack (output_tree st') = blackboard_stack (output_tree st)
  ∧ same_links (boards_of st) (boards_of st').
Proof.
  unfold add_node.
  destruct (createNodeFromXML _ _ _ _ _ _ _ _) as [[[node1 nds1] boards1]|] eqn:E; [|done].
  intros [= <- <- <-]. cbn [output_tree boards_of blackboard_stack].
  destruct (createNodeFromXML_inv _ _ _ _ _ _ _ _ E) as (_ & _ & Hs & Hk).
  split; [|done]. intros (Hv & Hstack & Hchain). cbn [output_tree boards_of blackboard_stack].
  pose proof Hs as [Hlen Hlinks].
  split; [split; [|split]|split; [|split; [|split]]].
  - by eapply same_links_valid.
  - by rewrite Hlen.
  - intros i child Hi. destruct (Hchain i child Hi) as (b & p & Hb & Hp & Hpar).
    destruct (Hlinks child b Hb) as (b' & Hb' & Hpar' & _).
    exists b', p. split; [done|]. split; [done|]. congruence.
  - lia.
  - done.
  - intros b key type _. apply Hk.
  - exists []. by rewrite app_nil_r.
Qed.

Lemma push_subtree_blackboard_inv element st new_bb st' :
  push_subtree_blackboard element st = Ok (new_bb, st') →
  ∃ parent_bb pairs b,
    last (blackboard_stack (output_tree st)) = Some parent_bb
    ∧ new_bb = length (boards_of st)
    ∧ blackboard_stack (output_tree st') = blackboard_stack (output_tree st) ++ [new_bb]
    ∧ nodes (output_tree st') = nodes (output_tree st)
    ∧ root_node (output_tree st') = root_node (output_tree st)
    ∧ length (boards_of st') = S (length (boards_of st))
    ∧ (∀ i, i < length (boards_of st) → boards_of st' !! i = boards_of st !! i)
    ∧ remap_pairs element = Some pairs
    ∧ boards_of st' !! new_bb = Some b
    ∧ bb_parent b = Some parent_bb ∧ bb_remapping b = pairs ∧ bb_types b = ∅.
Proof.
  unfold push_subtree_blackboard, Blackboard_create.
  destruct (last _) as [parent_bb|] eqn:Hlast; [|done].
  destruct (add_remappings _ _ _) as [boards1|] eqn:E; [|done]. intros [= <- <-].
  cbn [output_tree boards_of blackboard_stack nodes root_node].
  destruct (add_remappings_inv _ _ _ _ E) as (Hlen & Hother & Hnew).
  rewrite length_app /= Nat.add_1_r in Hlen.
  destruct (Hnew {| bb_parent := Some parent_bb; bb_remapping := []; bb_types := ∅ |})
    as (b & Hb & Hpar & Hty & Hrem).
  { by rewrite lookup_app_r // Nat.sub_diag. }
  cbn in Hpar, Hty, Hrem. unfold remap_pairs.
  destruct (mapM _ _) as [pairs|]; [|done]. injection Hrem as Hrem.
  exists parent_bb, pairs, b. repeat split; try done.
  intros i Hi. rewrite Hother; [|lia]. by rewrite lookup_app_l.
Qed.

Lemma push_subtree_blackboard_boards element st new_bb st' :
  push_subtree_blackboard element st = Ok (new_bb, st') →
  boards_grow st st' ∧ (wf_boards st → new_bb < length (boards_of st')).
Proof.
  intros (parent_bb & pairs & b & Hlast & -> & Hstack & _ & _ & Hlen & Hold & _ & Hb & Hpar & _)
    %push_subtree_blackboard_inv.
  split; [|lia]. intros (Hv & Hbound & Hchain).
  assert (parent_bb < length (boards_of st)) as Hparent.
  { rewrite ->Forall_forall in Hbound. apply Hbound.
    rewrite last_lookup in Hlast. by eapply list_elem_of_lookup_2. }
  split; [split; [|split]|split; [|split; [|split]]].
  - intros i bi p Hi Hp. destruct (decide (i < length (boards_of st))) as [Hlt|Hge].
    + rewrite Hold // in Hi. by eapply Hv.
    + apply lookup_lt_Some in Hi as Hi'.
      assert (i = length (boards_of st)) as -> by lia.
      rewrite Hb in Hi. injection Hi as <-. rewrite Hpar in Hp. by injection Hp as <-.
  - rewrite Hstack Hlen. apply Forall_app. split.
    + eapply Forall_impl; [exact Hbound|]. intros ??. cbn in *. lia.
    + repeat constructor.
  - rewrite Hstack. intros i child Hi.
    destruct (decide (S i < length (blackboard_stack (output_tree st)))) as [Hlt|Hge].
    + rewrite lookup_app_l // in Hi.
      destruct (Hchain i child Hi) as (bc & p & Hbc & Hp & Hparc).
      exists bc, p. split; [|split; [|done]].
      * rewrite Hold //. by eapply lookup_lt_Some.
      * by apply lookup_app_l_Some.
    + apply lookup_lt_Some in Hi as Hi'. rewrite length_app /= in Hi'.
      assert (S i = length (blackboard_stack (output_tree st))) as Hi'' by lia.
      rewrite lookup_app_r in Hi; [|lia]. rewrite Hi'' Nat.sub_diag in Hi.
      injection Hi as <-. exists b, parent_bb. split; [done|]. split; [|done].
      rewrite last_lookup -Hi'' /= in Hlast. by apply lookup_app_l_Some.
  - lia.
  - intros i bi Hi. exists bi. rewrite Hold; [done|by eapply lookup_lt_Some].
  - intros bb key type Hbb Hk. rewrite -Hk. apply portType_agree; [done|done|lia|].
    intros i Hi. apply Hold. lia.
  - exists [length (boards_of st)]. split; [done|]. by repeat constructor.
Qed.

(** The blackboards after the recursion. *)
Lemma recursiveStep_boards fuel bb parent element st st' :
  recursiveStep env factory roots fuel bb parent element st = Ok st' →
  wf_boards st → bb < length (boards_of st) → boards_grow st st'.
Proof.
  intros Hrec Hwf Hbb.
  apply (recursiveStep_rule env factory roots
           (λ bb _ st, wf_boards st ∧ bb < length (boards_of st)) boards_grow
           boards_grow_refl boards_grow_trans) in Hrec; [done| | | |done].
  - intros b _ s s' [Hw Hb] Hg. destruct (Hg Hw) as (? & ? & _). split; [done|lia].
  - intros el b pa s node self s' [Hw Hb] Hadd.
    destruct (add_node_boards _ _ _ _ _ _ _ Hadd) as (Hg & _ & [Hlen _]).
    split; [done|]. destruct (Hg Hw) as (? & _). split; [done|]. by rewrite Hlen.
  - intros el b pa s new_bb s' [Hw Hb] Hpush.
    destruct (push_subtree_blackboard_boards _ _ _ _ Hpush) as [Hg Hnew].
    split; [done|]. destruct (Hg Hw) as (? & _). auto.
Qed.
Lemma for_each_recursiveStep_boards fuel bb parent cs st st' :
  for_each (recursiveStep env factory roots fuel bb parent) cs st = Ok st' →
  wf_boards st → bb < length (boards_of st) → boards_grow st st'.
Proof.
  intros Hrec Hwf Hbb.
  apply (for_each_recursiveStep_rule env factory roots
           (λ bb _ st, wf_boards st ∧ bb < length (boards_of st)) boards_grow
           boards_grow_refl boards_grow_trans) in Hrec; [done| | | |done].
  - intros b _ s s' [Hw Hb] Hg. destruct (Hg Hw) as (? & ? & _). split; [done|lia].
  - intros el b pa s node self s' [Hw Hb] Hadd.
    destruct (add_node_boards _ _ _ _ _ _ _ Hadd) as (Hg & _ & [Hlen _]).
    split; [done|]. destruct (Hg Hw) as (? & _). split; [done|]. by rewrite Hlen.
  - intros el b pa s new_bb s' [Hw Hb] Hpush.
    destruct (push_subtree_blackboard_boards _ _ _ _ Hpush) as [Hg Hnew].
    split; [done|]. destruct (Hg Hw) as (? & _). auto.
Qed.

(** The type of a port that a node maps to an entry is registered in the
    blackboards that [createNodeFromXML] leaves. *)
Lemma createNodeFromXML_records element bb parent nds boards node nds' boards'
      port_name info key :
  valid_boards boards → bb < length boards →
  createNodeFromXML env factory roots element bb parent nds boards
  = Ok (node, nds', boards') →
  binds_port env factory element port_name info key →
  portType boards' bb key = Some info.
Proof.
  intros Hv Hbb Hc
    (ID & instance_name & manifest & port & value & HID & Hn & Hb & Hm & Hp & Hi & Hr & Hk).
  rewrite (createNodeFromXML_builder _ _ _ _ _ _ _ _ HID Hn Hb Hm) in Hc.
  destruct (check_remapping_names _ _ _ _); [|done].
  destruct (init_port_types _ _ _ _ _) as [boards1|] eqn:E; [|done].
  destruct (link_to_parent _ _ _); [|done]. injection Hc as <- <- <-.
  eapply init_port_types_records; [done|done|exact E| |done..].
  by apply elem_of_map_to_list.
Qed.

(** The node is not made when the entry has another type. *)
Lemma createNodeFromXML_mismatch element bb parent nds boards port_name info key prev :
  binds_port env factory element port_name info key →
  portType boards bb key = Some prev → prev ≠ info →
  ∃ e, createNodeFromXML env factory roots element bb parent nds boards = Err e
       ∧ (type_mismatch_thrown e ∨ typo_thrown e).
Proof.
  intros (ID & instance_name & manifest & port & value & HID & Hn & Hb & Hm & Hp & Hi & Hr & Hk)
    Hprev Hne.
  rewrite (createNodeFromXML_builder _ _ _ _ _ _ _ _ HID Hn Hb Hm).
  destruct (check_remapping_names _ _ _ _) as [|e] eqn:Hcheck.
  - destruct (init_port_types_mismatch env boards bb (remapping_parameters_of element)
                (map_to_list (ports manifest)) port_name port info value key prev)
      as (e & -> & He); [by apply elem_of_map_to_list|done..|].
    exists e. auto.
  - exists e. split; [done|]. right. by eapply check_remapping_names_Err.
Qed.

(** The blackboards of the state that a node is added to. *)
Lemma add_node_records element bb parent st node self st' port_name info key :
  add_node env factory roots element bb parent st = Ok (node, self, st') →
  valid_boards (boards_of st) → bb < length (boards_of st) →
  binds_port env factory element port_name info key →
  portType (boards_of st') bb key = Some info.
Proof.
  unfold add_node.
  destruct (createNodeFromXML _ _ _ _ _ _ _ _) as [[[node1 nds1] boards1]|] eqn:E; [|done].
  intros [= <- <- <-] Hv Hbb Hbinds. cbn [boards_of].
  by eapply createNodeFromXML_records.
Qed.

Lemma add_node_mismatch element bb parent st port_name info key prev :
  binds_port env factory element port_name info key →
  portType (boards_of st) bb key = Some prev → prev ≠ info →
  ∃ e, add_node env factory roots element bb parent st = Err e
       ∧ (type_mismatch_thrown e ∨ typo_thrown e).
Proof.
  intros Hbinds Hprev Hne. unfold add_node.
  destruct (createNodeFromXML_mismatch element bb parent (nodes (output_tree st))
              (boards_of st) port_name info key prev Hbinds Hprev Hne) as (e & -> & He).
  by exists e.
Qed.

(** The type is registered after the recursion on the element as well. *)
Lemma recursiveStep_records fuel bb parent element st st' port_name info key :
  recursiveStep env factory roots fuel bb parent element st = Ok st' →
  wf_boards st → bb < length (boards_of st) →
  binds_port env factory element port_name info key →
  portType (boards_of st') bb key = Some info.
Proof.
  destruct fuel as [|fuel]; [done|]. cbn [recursiveStep].
  destruct (add_node _ _ _ _ _ _ _) as [[[node self] st1]|] eqn:Hadd; [|done].
  intros Hrest Hwf Hbb Hbinds.
  pose proof (add_node_records _ _ _ _ _ _ _ _ _ _ Hadd (proj1 Hwf) Hbb Hbinds) as H1.
  destruct (add_node_boards _ _ _ _ _ _ _ Hadd) as (Hg1 & _ & [Hlen _]).
  destruct (Hg1 Hwf) as (Hwf1 & _).
  assert (boards_grow st1 st') as Hg.
  { case_decide.
    - destruct (push_subtree_blackboard _ _) as [[new_bb st2]|] eqn:Hpush; [|done].
      destruct (tree_root_element _ _) as [root_element|]; [|done].
      destruct (push_subtree_blackboard_boards _ _ _ _ Hpush) as [Hg2 Hnew].
      eapply boards_grow_trans; [exact Hg2|].
      destruct (Hg2 Hwf1) as (Hwf2 & _).
      eapply recursiveStep_boards; [exact Hrest|done|by apply Hnew].
    - eapply for_each_recursiveStep_boards; [exact Hrest|done|by rewrite Hlen]. }
  destruct (Hg Hwf1) as (_ & _ & _ & Hkeep & _). apply Hkeep; [by rewrite Hlen|done].
Qed.

(** Two elements of a sequence that map ports of two types to one entry
    of the blackboard: the sequence is not instantiated. *)
Lemma for_each_recursiveStep_mismatch fuel bb parent before e1 between e2 after st
      port1 info1 port2 info2 key :
  wf_boards st → bb < length (boards_of st) →
  binds_port env factory e1 port1 info1 key →
  binds_port env factory e2 port2 info2 key →
  info1 ≠ info2 →
  ∃ e, for_each (recursiveStep env factory roots fuel bb parent)
         (before ++ e1 :: between ++ e2 :: after) st = Err e.
Proof.
  intros Hwf Hbb Hb1 Hb2 Hne. rewrite for_each_app.
  destruct (for_each _ before st) as [sa|] eqn:Hbefore; [|by eexists].
  cbn [for_each].
  destruct (recursiveStep _ _ _ _ _ _ e1 sa) as [sb|] eqn:H1; [|by eexists].
  rewrite for_each_app.
  destruct (for_each _ between sb) as [sc|] eqn:Hbetween; [|by eexists].
  cbn [for_each].
  pose proof (for_each_recursiveStep_boards _ _ _ _ _ _ Hbefore Hwf Hbb) as Hga.
  destruct (Hga Hwf) as (Hwfa & Hlena & _).
  assert (bb < length (boards_of sa)) as Hbba by lia.
  pose proof (recursiveStep_records _ _ _ _ _ _ _ _ _ H1 Hwfa Hbba Hb1) as Hrec.
  pose proof (recursiveStep_boards _ _ _ _ _ _ H1 Hwfa Hbba) as Hgb.
  destruct (Hgb Hwfa) as (Hwfb & Hlenb & _).
  assert (bb < length (boards_of sb)) as Hbbb by lia.
  pose proof (for_each_recursiveStep_boards _ _ _ _ _ _ Hbetween Hwfb Hbbb) as Hgc.
  destruct (Hgc Hwfb) as (_ & _ & _ & Hkeep & _).
  pose proof (Hkeep bb key info1 Hbbb Hrec) as Hc.
  destruct fuel as [|fuel]; [by eexists|]. cbn [recursiveStep].
  destruct (add_node_mismatch e2 bb parent sc port2 info2 key info1 Hb2 Hc Hne)
    as (e & -> & _).
  by eexists.
Qed.
End InstantiatorBoards.

(** ** The types of the ports and of the entries of the blackboard *)



(** ** The instantiator: what a step does to the nodes *)

Lemma link_to_parent_inv nds parent child nds' :
  link_to_parent nds parent child = Ok nds' →
  length nds' = length nds
  ∧ ∀ i n, nds !! i = Some n →
           ∃ n', nds' !! i = Some n' ∧ same_node n n'
                 ∧ (node_children n' = node_children n
                    ∨ (parent = Some i ∧ node_children n' = node_children n ++ [child])).
Proof.
  assert (∀ parent : option nat,
            length nds = length nds
            ∧ ∀ i n, nds !! i = Some n →
                ∃ n', nds !! i = Some n' ∧ same_node n n'
                      ∧ (node_children n' = node_children n
                         ∨ (parent = Some i ∧ node_children n' = node_children n ++ [child])))
    as Hsame.
  { intros ?. split; [done|]. intros i n Hi. exists n. by repeat split; auto. }
  unfold link_to_parent. destruct parent as [p|]; [|intros [= <-]; apply Hsame].
  destruct (nds !! p) as [pa|] eqn:Hp; [|done].
  assert (∀ pa', same_node pa pa' →
            (node_children pa' = node_children pa
             ∨ node_children pa' = node_children pa ++ [child]) →
            length (<[p := pa']> nds) = length nds
            ∧ ∀ i n, nds !! i = Some n →
                ∃ n', <[p := pa']> nds !! i = Some n' ∧ same_node n n'
                      ∧ (node_children n' = node_children n
                         ∨ (Some p = Some i ∧ node_children n' = node_children n ++ [child])))
    as Hins.
  { intros pa' Hpa Hch. split; [by rewrite length_insert|]. intros i n Hi.
    destruct (decide (p = i)) as [<-|Hne].
    - rewrite list_lookup_insert_eq; [|by eapply lookup_lt_Some].
      exists pa'. rewrite Hp in Hi. injection Hi as <-. naive_solver.
    - rewrite list_lookup_insert_ne //. exists n. by repeat split; auto. }
  unfold is_ControlNode, is_DecoratorNode, setChild, addChild.
  destruct (node_type pa) eqn:Htype; cbn.
  - intros [= <-]. apply Hsame.
  - intros [= <-]. apply Hsame.
  - intros [= <-]. apply Hins; [done|]. by right.
  - destruct (node_children pa) eqn:Hc; [|done]. intros [= <-].
    apply Hins; [done|]. by right.
  - destruct (node_children pa) eqn:Hc; [|done]. intros [= <-].
    apply Hins; [done|]. by right.
Qed.

Section InstantiatorNodes.
Context (env : Platform) (factory : BehaviorTreeFactory) (roots : gmap string XMLElement).

Lemma createNodeFromXML_node element bb parent nds boards node nds' boards' :
  createNodeFromXML env factory roots element bb parent nds boards
  = Ok (node, nds', boards') →
  element_node_type factory roots element = Some (node_type node)
  ∧ element_node_name element = Some (node_name node).
Proof.
  unfold createNodeFromXML, element_node_type, element_node_name.
  destruct (element_ID element) as [ID|]; [|done].
  destruct (element_instance_name element ID) as [instance_name|]; [|done].
  case_decide.
  - destruct (manifests factory !! ID) as [manifest|]; [|done].
    destruct (check_remapping_names _ _ _ _); [|done].
    destruct (init_port_types _ _ _ _ _) as [boards1|]; [|done].
    destruct (link_to_parent _ _ _) as [nds1|]; [|done]. by intros [= <- <- <-].
  - case_decide; [|done].
    destruct (link_to_parent _ _ _) as [nds1|]; [|done]. by intros [= <- <- <-].
Qed.

Lemma add_node_inv element bb parent st node self st' :
  add_node env factory roots element bb parent st = Ok (node, self, st') →
  ∃ nds,
    link_to_parent (nodes (output_tree st)) parent (length (nodes (output_tree st))) = Ok nds
    ∧ self = length (nodes (output_tree st))
    ∧ nodes (output_tree st') = nds ++ [node]
    ∧ node_children node = []
    ∧ element_node_type factory roots element = Some (node_type node)
    ∧ element_node_name element = Some (node_name node)
    ∧ root_node (output_tree st') = root_node (output_tree st).
Proof.
  unfold add_node.
  destruct (createNodeFromXML _ _ _ _ _ _ _ _) as [[[node1 nds1] boards1]|] eqn:E; [|done].
  intros [= <- <- <-]. cbn [output_tree nodes root_node].
  destruct (createNodeFromXML_inv _ _ _ _ _ _ _ _ _ _ _ E) as (Hlink & Hch & _).
  destruct (createNodeFromXML_node _ _ _ _ _ _ _ _ E) as [Ht Hn].
  exists nds1. destruct (link_to_parent_inv _ _ _ _ Hlink) as [Hlen _].
  by rewrite Hlen.
Qed.

Lemma same_node_refl n : same_node n n.
Proof. done. Qed.

Lemma same_node_trans n1 n2 n3 : same_node n1 n2 → same_node n2 n3 → same_node n1 n3.
Proof. unfold same_node. naive_solver congruence. Qed.

Lemma nodes_grow_refl st : nodes_grow st st.
Proof. split; [done|]. split; [done|]. split; [done|]. eauto using same_node_refl. Qed.

Lemma nodes_grow_trans st1 st2 st3 :
  nodes_grow st1 st2 → nodes_grow st2 st3 → nodes_grow st1 st3.
Proof.
  intros (Hw12 & Hl12 & Hr12 & Hn12) (Hw23 & Hl23 & Hr23 & Hn23).
  split; [auto|]. split; [lia|]. split; [congruence|].
  intros i n Hi. destruct (Hn12 i n Hi) as (n' & Hi' & ?).
  destruct (Hn23 i n' Hi') as (n'' & Hi'' & ?). eauto using same_node_trans.
Qed.

Lemma add_node_nodes element bb parent st node self st' :
  add_node env factory roots element bb parent st = Ok (node, self, st') →
  nodes_grow st st'.
Proof.
  intros (nds & Hlink & -> & Hnodes & Hch & _ & _ & Hroot)%add_node_inv.
  destruct (link_to_parent_inv _ _ _ _ Hlink) as [Hlen Hold].
  split; [|split; [|split; [done|]]].
  - intros Hwf i n. rewrite Hnodes length_app Hlen /=. intros Hi.
    destruct (decide (i < length nds)) as [Hlt|Hge].
    + rewrite lookup_app_l // in Hi. rewrite Hlen in Hlt.
      apply lookup_lt_is_Some_2 in Hlt as [n0 Hn0].
      destruct (Hold i n0 Hn0) as (n' & Hn' & _ & Hc). rewrite Hi in Hn'. injection Hn' as <-.
      destruct (Hwf i n0 Hn0) as [Hbound Hsorted]. apply lookup_lt_Some in Hn0.
      destruct Hc as [->|[_ ->]].
      * split; [|done]. eapply Forall_impl; [exact Hbound|]. intros c ?. cbn in *. lia.
      * split.
        -- apply Forall_app. split.
           ++ eapply Forall_impl; [exact Hbound|]. intros c ?. cbn in *. lia.
           ++ repeat constructor; lia.
        -- intros j k c1 c2 Hjk Hj Hk.
           apply lookup_lt_Some in Hk as Hk'. rewrite length_app /= in Hk'.
           rewrite lookup_app_l in Hj; [|lia].
           destruct (decide (k < length (node_children n0))) as [Hklt|Hkge].
           ++ rewrite lookup_app_l in Hk; [|done]. exact (Hsorted j k c1 c2 Hjk Hj Hk).
           ++ rewrite lookup_app_r in Hk; [|lia].
              replace (k - length (node_children n0)) with 0 in Hk by lia.
              injection Hk as <-. rewrite ->Forall_forall in Hbound.
              apply list_elem_of_lookup_2, Hbound in Hj. lia.
    + apply lookup_lt_Some in Hi as Hi'. rewrite length_app /= in Hi'.
      rewrite lookup_app_r in Hi; [|lia].
      replace (i - length nds) with 0 in Hi by lia. injection Hi as <-.
      rewrite Hch. split; [constructor|]. intros ????? Hj. by rewrite lookup_nil in Hj.
  - rewrite Hnodes length_app Hlen /=. lia.
  - intros i n Hi. destruct (Hold i n Hi) as (n' & Hn' & Hs & _).
    exists n'. split; [|done]. rewrite Hnodes. by apply lookup_app_l_Some.
Qed.

Lemma push_subtree_blackboard_nodes element st new_bb st' :
  push_subtree_blackboard element st = Ok (new_bb, st') → nodes_grow st st'.
Proof.
  intros (? & ? & ? & _ & _ & _ & Hn & Hr & _)%push_subtree_blackboard_inv.
  unfold nodes_grow. rewrite Hn Hr.
  split; [done|]. split; [done|]. split; [done|]. eauto using same_node_refl.
Qed.

Lemma recursiveStep_nodes fuel bb parent element st st' :
  recursiveStep env factory roots fuel bb parent element st = Ok st' →
  nodes_grow st st'.
Proof.
  intros Hrec.
  apply (recursiveStep_rule env factory roots (λ _ _ _, True) nodes_grow
           nodes_grow_refl nodes_grow_trans) in Hrec; [done|done| | |done].
  - intros. split; [|done]. by eapply add_node_nodes.
  - intros. split; [|done]. by eapply push_subtree_blackboard_nodes.
Qed.

Lemma for_each_recursiveStep_nodes fuel bb parent cs st st' :
  for_each (recursiveStep env factory roots fuel bb parent) cs st = Ok st' →
  nodes_grow st st'.
Proof.
  intros Hrec.
  apply (for_each_recursiveStep_rule env factory roots (λ _ _ _, True) nodes_grow
           nodes_grow_refl nodes_grow_trans) in Hrec; [done|done| | |done].
  - intros. split; [|done]. by eapply add_node_nodes.
  - intros. split; [|done]. by eapply push_subtree_blackboard_nodes.
Qed.

Lemma nodes_grow_summary st st' :
  nodes_grow st st' →
  take (length (nodes (output_tree st))) (node_summary <$> nodes (output_tree st'))
  = node_summary <$> nodes (output_tree st).
Proof.
  intros (_ & Hlen & _ & Hold). apply list_eq. intros i.
  destruct (decide (i < length (nodes (output_tree st)))) as [Hlt|Hge].
  - rewrite lookup_take_lt // !list_lookup_fmap.
    apply lookup_lt_is_Some_2 in Hlt as [n Hn].
    destruct (Hold i n Hn) as (n' & -> & Ht & _ & Hname & _). rewrite Hn /=.
    unfold node_summary. by rewrite Ht Hname.
  - rewrite lookup_take_ge; [|lia]. symmetry. apply lookup_ge_None_2.
    rewrite length_fmap. lia.
Qed.

(** The nodes that the recursion adds are the nodes of the elements of the
    walk, in its order. *)
Lemma recursiveStep_visits fuel bb parent element st st' :
  recursiveStep env factory roots fuel bb parent element st = Ok st' →
  node_summary <$> nodes (output_tree st')
  = (node_summary <$> nodes (output_tree st))
      ++ (element_summary factory roots <$> visits factory roots fuel element).
Proof.
  revert bb parent element st st'.
  induction fuel as [|fuel IH]; intros bb parent element st st'; [done|].
  cbn [recursiveStep visits].
  destruct (add_node _ _ _ _ _ _ _) as [[[node self] st1]|] eqn:Hadd; [|done].
  pose proof (add_node_nodes _ _ _ _ _ _ _ Hadd) as Hg1.
  destruct (add_node_inv _ _ _ _ _ _ _ Hadd)
    as (nds & Hlink & -> & Hnodes1 & _ & Htype & Hname & _).
  destruct (link_to_parent_inv _ _ _ _ Hlink) as [Hlen _].
  assert (node_summary <$> nodes (output_tree st1)
          = (node_summary <$> nodes (output_tree st)) ++ [element_summary factory roots element]) as H1.
  { rewrite -(nodes_grow_summary _ _ Hg1).
    rewrite -{1}(take_drop (length (nodes (output_tree st)))
                   (node_summary <$> nodes (output_tree st1))).
    f_equal. rewrite Hnodes1 fmap_app drop_app_length'; [|by rewrite length_fmap].
    unfold element_summary, node_summary. by rewrite Htype Hname. }
  rewrite fmap_cons. rewrite Htype.
  destruct (decide (node_type node = SUBTREE)) as [Hsub|Hsub].
  - rewrite decide_True; [|by rewrite Hsub]. rewrite Hname.
    destruct (push_subtree_blackboard _ _) as [[new_bb st2]|] eqn:Hpush; [|done].
    destruct (tree_root_element _ _) as [root_element|]; [|done].
    intros ->%IH.
    destruct (push_subtree_blackboard_inv _ _ _ _ Hpush)
      as (? & ? & ? & _ & _ & _ & -> & _).
    by rewrite H1 -app_assoc.
  - rewrite decide_False; [|congruence].
    assert (∀ cs s s',
              for_each (recursiveStep env factory roots fuel bb
                          (Some (length (nodes (output_tree st))))) cs s = Ok s' →
              node_summary <$> nodes (output_tree s')
              = (node_summary <$> nodes (output_tree s))
                  ++ (element_summary factory roots <$> concat (map (visits factory roots fuel) cs))) as Hloop.
    { induction cs as [|child cs IHcs]; intros s s'.
      - intros [= <-]. by rewrite /= app_nil_r.
      - cbn [for_each].
        destruct (recursiveStep _ _ _ _ _ _ child s) as [s2|] eqn:Hchild; [|done].
        intros ->%IHcs. rewrite (IH _ _ _ _ _ Hchild) /= fmap_app. by rewrite -app_assoc. }
    intros ->%Hloop. by rewrite H1 -app_assoc.
Qed.
End InstantiatorNodes.

(** ** The tree of [instantiateTree] *)

Lemma instantiateTree_inv env factory fuel p boards root_blackboard b :
  instantiateTree env factory fuel p boards root_blackboard = Ok b →
  ∃ main_tree_ID root_element root_bb st',
    root_blackboard = Some root_bb
    ∧ main_tree_ID_of p = Ok main_tree_ID
    ∧ tree_root_element (tree_roots p) main_tree_ID = Ok root_element
    ∧ recursiveStep env factory (tree_roots p) fuel root_bb None root_element
        {| output_tree := {| root_node := None; nodes := [];
                             blackboard_stack := [root_bb] |};
           boards_of := boards |} = Ok st'
    ∧ nodes (output_tree b) = nodes (output_tree st')
    ∧ blackboard_stack (output_tree b) = blackboard_stack (output_tree st')
    ∧ boards_of b = boards_of st'
    ∧ root_node (output_tree b)
      = match nodes (output_tree st') with [] => None | _ => Some 0 end.
Proof.
  unfold instantiateTree, recursivelyCreateTree.
  destruct (main_tree_ID_of p) as [main_tree_ID|]; [|done].
  destruct root_blackboard as [root_bb|]; [|done].
  destruct (tree_root_element _ _) as [root_element|] eqn:Hroot; [|done].
  destruct (recursiveStep _ _ _ _ _ _ _ _) as [st'|] eqn:Hrec; [|done].
  intros [= <-]. by exists main_tree_ID, root_element, root_bb, st'.
Qed.

(** C4. In a tree that [instantiateTree] returns, the nodes are listed in
    pre-order: they are the nodes of the elements of the pre-order walk
    from the root element of the main tree (children in the order of the
    document, the body of a subtree after its placeholder), every node
    precedes its children, the children of a node are in the order of the
    list, and [root_node] points to the first node of the list. *)
Theorem nodes_in_preorder env factory fuel p boards root_blackboard b :
  instantiateTree env factory fuel p boards root_blackboard = Ok b →
  root_node (output_tree b) = Some 0
  ∧ is_Some (nodes (output_tree b) !! 0)
  ∧ wf_nodes (nodes (output_tree b))
  ∧ ∃ main_tree_ID root_element,
      main_tree_ID_of p = Ok main_tree_ID
      ∧ tree_root_element (tree_roots p) main_tree_ID = Ok root_element
      ∧ node_summary <$> nodes (output_tree b)
        = element_summary factory (tree_roots p)
            <$> visits factory (tree_roots p) fuel root_element.
Proof.
  intros (main_tree_ID & root_element & root_bb & st' & -> & Hmain & Hroot & Hrec
          & Hnodes & _ & _ & Hrn)%instantiateTree_inv.
  pose proof (recursiveStep_visits _ _ _ _ _ _ _ _ _ Hrec) as Hvisits.
  destruct (recursiveStep_nodes _ _ _ _ _ _ _ _ _ Hrec) as (Hwf & _).
  cbn [output_tree nodes fmap list_fmap app] in Hvisits, Hwf.
  rewrite Hrn Hnodes.
  assert (nodes (output_tree st') ≠ []) as Hne.
  { intros Hnil. rewrite Hnil in Hvisits. destruct fuel; [done|]. done. }
  split; [by destruct (nodes (output_tree st'))|].
  split; [by destruct (nodes (output_tree st')); [|eexists]|].
  split.
  - apply Hwf. intros i n Hi. by rewrite lookup_nil in Hi.
  - by exists main_tree_ID, root_element.
Qed.

Lemma nodes_in_preorder_witness :
  ∃ b, instantiateTree Examples.the_platform Examples.the_factory 4
         (Examples.session_of Examples.doc_S6) [Examples.root_board] (Some 0) = Ok b
       ∧ root_node (output_tree b) = Some 0
       ∧ wf_nodes (nodes (output_tree b))
       ∧ node_summary <$> nodes (output_tree b)
         = [(Some CONTROL, Some "Sequence"); (Some ACTION, Some "Ping");
            (Some SUBTREE, Some "Sub"); (Some DECORATOR, Some "Inverter");
            (Some ACTION, Some "inner")]
       ∧ node_children <$> nodes (output_tree b) = [[1; 2]; []; [3]; [4]; []].
Proof.
  eexists. split; [vm_compute; reflexivity|].
  match goal with
  | |- context [output_tree ?b] =>
      destruct (nodes_in_preorder Examples.the_platform Examples.the_factory 4
                  (Examples.session_of Examples.doc_S6) [Examples.root_board] (Some 0)
                  b eq_refl) as (Hroot & _ & Hwf & _)
  end.
  split; [exact Hroot|]. split; [exact Hwf|]. split; vm_compute; reflexivity.
Defined.

(** ** The stack of the blackboards *)

Section InstantiatorStack.
Context (env : Platform) (factory : BehaviorTreeFactory) (roots : gmap string XMLElement).

Lemma boards_grow_remappings st st' stack :
  boards_grow st st' → wf_boards st →
  Forall (λ c, c < length (boards_of st)) stack →
  remappings_of (boards_of st') stack = remappings_of (boards_of st) stack.
Proof.
  intros Hg Hwf Hstack. destruct (Hg Hwf) as (_ & _ & Hlinks & _).
  unfold remappings_of. apply list_fmap_ext. intros i c Hc.
  rewrite ->Forall_forall in Hstack. apply list_elem_of_lookup_2, Hstack in Hc.
  apply lookup_lt_is_Some_2 in Hc as [b Hb].
  destruct (Hlinks c b Hb) as (b' & -> & _ & Hr). by rewrite Hb /= Hr.
Qed.

(** The recursion appends one blackboard to the stack for every subtree
    of its walk, with the remappings of the element of the subtree. *)
Lemma recursiveStep_stack fuel bb parent element st st' :
  recursiveStep env factory roots fuel bb parent element st = Ok st' →
  wf_boards st → bb < length (boards_of st) →
  ∃ new_stack,
    blackboard_stack (output_tree st') = blackboard_stack (output_tree st) ++ new_stack
    ∧ remappings_of (boards_of st') new_stack
      = remap_pairs <$> subtree_visits factory roots fuel element.
Proof.
  revert bb parent element st st'.
  induction fuel as [|fuel IH]; intros bb parent element st st'; [done|].
  cbn [recursiveStep]. unfold subtree_visits. cbn [visits].
  destruct (add_node _ _ _ _ _ _ _) as [[[node self] st1]|] eqn:Hadd; [|done].
  intros Hrec Hwf Hbb.
  destruct (add_node_boards _ _ _ _ _ _ _ _ _ _ Hadd) as (Hg1 & Hstack1 & [Hlen1 _]).
  destruct (Hg1 Hwf) as (Hwf1 & _).
  destruct (add_node_inv _ _ _ _ _ _ _ _ _ _ Hadd) as (_ & _ & _ & _ & _ & Htype & Hname & _).
  rewrite filter_cons Htype. rewrite -Hstack1.
  destruct (decide (node_type node = SUBTREE)) as [Hsub|Hsub].
  - rewrite !decide_True; [|by rewrite Hsub..]. rewrite Hname.
    destruct (push_subtree_blackboard _ _) as [[new_bb st2]|] eqn:Hpush; [|done].
    destruct (tree_root_element _ _) as [root_element|]; [|done].
    destruct (push_subtree_blackboard_boards _ _ _ _ Hpush) as [Hg2 Hnew].
    destruct (Hg2 Hwf1) as (Hwf2 & _).
    destruct (push_subtree_blackboard_inv _ _ _ _ Hpush)
      as (parent_bb & pairs & b & _ & -> & Hstack2 & _ & _ & _ & _ & Hpairs & Hb & _ & Hrem & _).
    destruct (IH _ _ _ _ _ Hrec Hwf2 (Hnew Hwf1)) as (new_stack & Hstack' & Hremaps).
    exists (length (boards_of st1) :: new_stack).
    split; [by rewrite Hstack' Hstack2 -app_assoc|].
    cbn [remappings_of fmap list_fmap]. fold (remappings_of (boards_of st') new_stack).
    rewrite Hremaps Hpairs. f_equal.
    destruct (recursiveStep_boards _ _ _ _ _ _ _ _ _ Hrec Hwf2 (Hnew Hwf1) Hwf2)
      as (_ & _ & Hlinks & _).
    destruct (Hlinks _ _ Hb) as (b' & -> & _ & Hr). by rewrite /= Hr Hrem.
  - rewrite !decide_False; [|congruence..].
    rewrite -Hlen1 in Hbb. clear Hadd Hg1 Hstack1 Htype Hname Hlen1.
    revert st1 Hrec Hwf1 Hbb. generalize (ChildElements element) as cs.
    induction cs as [|child cs IHcs]; intros s Hloop Hwfs Hbbs.
    + injection Hloop as <-. exists []. by rewrite app_nil_r.
    + cbn [for_each] in Hloop.
      destruct (recursiveStep _ _ _ _ _ _ child s) as [s2|] eqn:Hchild; [|done].
      destruct (IH _ _ _ _ _ Hchild Hwfs Hbbs) as (new1 & Hstack1 & Hremaps1).
      destruct (recursiveStep_boards _ _ _ _ _ _ _ _ _ Hchild Hwfs Hbbs Hwfs)
        as (Hwf2 & Hlen2 & _).
      assert (bb < length (boards_of s2)) as Hbb2 by lia.
      destruct (IHcs s2 Hloop Hwf2 Hbb2) as (new2 & Hstack2 & Hremaps2).
      exists (new1 ++ new2). split; [by rewrite Hstack2 Hstack1 -app_assoc|].
      cbn [map concat]. rewrite filter_app fmap_app.
      unfold remappings_of in *. rewrite fmap_app Hremaps2. f_equal.
      rewrite -Hremaps1.
      apply (boards_grow_remappings s2 st' new1);
        [by eapply for_each_recursiveStep_boards|done|].
      destruct Hwf2 as (_ & Hbound & _). rewrite Hstack1 in Hbound.
      by apply Forall_app in Hbound as [_ ?].
Qed.
End InstantiatorStack.

Lemma length_filter_fmap_eq {A B C} (f : A → C) (g : B → C)
      (P1 : A → Prop) (P2 : B → Prop) `{∀ x, Decision (P1 x)} `{∀ y, Decision (P2 y)}
      (R : C → Prop) l1 l2 :
  f <$> l1 = g <$> l2 →
  (∀ x, P1 x ↔ R (f x)) → (∀ y, P2 y ↔ R (g y)) →
  length (filter P1 l1) = length (filter P2 l2).
Proof.
  intros Heq H1 H2. revert l2 Heq.
  induction l1 as [|x l1 IH]; intros [|y l2]; try done.
  intros [= Hxy Hl]. rewrite !filter_cons.
  specialize (IH l2 Hl). pose proof (H1 x). pose proof (H2 y). rewrite Hxy in H3.
  repeat case_decide; cbn; try tauto; lia.
Qed.

(** C5. While a tree is instantiated, every expansion of a subtree
    appends exactly one new blackboard to [blackboard_stack]: the stack of
    the tree is the root blackboard followed by one blackboard for every
    node of kind SubTree, in the order of the walk; every blackboard of
    the stack but the first has the blackboard that precedes it in the
    stack as its parent; and the blackboard of a subtree has the
    remappings of the <remap> children of its element, one for each. *)
Theorem blackboard_stack_of_subtrees env factory fuel p boards root_bb b :
  valid_boards boards → root_bb < length boards →
  instantiateTree env factory fuel p boards (Some root_bb) = Ok b →
  ∃ new_stack main_tree_ID root_element,
    main_tree_ID_of p = Ok main_tree_ID
    ∧ tree_root_element (tree_roots p) main_tree_ID = Ok root_element
    ∧ blackboard_stack (output_tree b) = root_bb :: new_stack
    ∧ length new_stack
      = length (filter (λ n, node_type n = SUBTREE) (nodes (output_tree b)))
    ∧ stack_chained (boards_of b) (blackboard_stack (output_tree b))
    ∧ remappings_of (boards_of b) new_stack
      = remap_pairs <$> subtree_visits factory (tree_roots p) fuel root_element
    ∧ (∀ element pairs,
         remap_pairs element = Some pairs →
         length pairs = length (ChildElementsNamed "remap" element)).
Proof.
  intros Hv Hbb (main_tree_ID & root_element & root_bb' & st' & [= <-] & Hmain & Hroot & Hrec
                 & Hnodes & Hstack & Hboards & _)%instantiateTree_inv.
  set (st0 := {| output_tree := {| root_node := None; nodes := [];
                                   blackboard_stack := [root_bb] |};
                 boards_of := boards |}) in *.
  assert (wf_boards st0) as Hwf0.
  { split; [done|]. split; [by repeat constructor|].
    intros i child Hi. destruct i; done. }
  destruct (recursiveStep_stack _ _ _ _ _ _ _ _ _ Hrec Hwf0 Hbb)
    as (new_stack & Hst & Hremaps).
  destruct (recursiveStep_boards _ _ _ _ _ _ _ _ _ Hrec Hwf0 Hbb Hwf0)
    as ((_ & _ & Hchain) & _).
  pose proof (recursiveStep_visits _ _ _ _ _ _ _ _ _ Hrec) as Hvisits.
  cbn [st0 output_tree nodes blackboard_stack fmap list_fmap app] in Hst, Hvisits.
  exists new_stack, main_tree_ID, root_element.
  rewrite Hstack Hboards Hnodes Hst.
  split; [done|]. split; [done|]. split; [done|]. split; [|split; [|split; [done|]]].
  - apply (f_equal length) in Hremaps. unfold remappings_of in Hremaps.
    rewrite !length_fmap in Hremaps. rewrite Hremaps. unfold subtree_visits.
    symmetry.
    apply (length_filter_fmap_eq node_summary (element_summary factory (tree_roots p))
             _ _ (λ s, s.1 = Some SUBTREE)); [done| |done].
    intros n. cbn. split; congruence.
  - by rewrite -Hst.
  - intros element pairs Hp. by apply length_mapM in Hp.
Qed.

Lemma blackboard_stack_of_subtrees_witness :
  ∃ b, instantiateTree Examples.the_platform Examples.the_factory 4
         (Examples.session_of Examples.doc_S6) [Examples.root_board] (Some 0) = Ok b
       ∧ blackboard_stack (output_tree b) = [0; 1]
       ∧ stack_chained (boards_of b) (blackboard_stack (output_tree b))
       ∧ boards_of b
         = [Examples.root_board;
            {| bb_parent := Some 0; bb_remapping := [("in", "outer_k")]; bb_types := ∅ |}].
Proof.
  eexists. split; [vm_compute; reflexivity|].
  assert (valid_boards [Examples.root_board]) as Hv.
  { intros [|i] b parent Hb Hp; [|done]. injection Hb as <-. done. }
  match goal with
  | |- context [output_tree ?b] =>
      destruct (blackboard_stack_of_subtrees Examples.the_platform Examples.the_factory 4
                  (Examples.session_of Examples.doc_S6) [Examples.root_board] 0
                  b Hv (Nat.lt_0_succ 0) eq_refl)
        as (new_stack & main_tree_ID & root_element & _ & _ & _ & _ & Hchain & _)
  end.
  split; [vm_compute; reflexivity|]. split; [exact Hchain|]. vm_compute. reflexivity.
Defined.

(** ** What the validation of the documents gives to the instantiation *)

Section Validated.
Context (env : Platform) (factory : BehaviorTreeFactory).

Lemma verify_trees_Ok roots bts names count r :
  verify_trees factory roots bts names count = Ok r →
  Forall (λ bt, ∃ body, ChildElements bt = [body]
                        ∧ verify_recursiveStep factory roots body = Ok tt) bts.
Proof.
  revert names count. induction bts as [|bt bts IH]; intros names count; [by constructor|].
  cbn [verify_trees]. destruct (ChildElements bt) as [|child [|??]] eqn:Hc; [done| |done].
  destruct (verify_recursiveStep factory roots child) as [[]|] eqn:E; [|done].
  intros H. constructor; [by exists child|]. by eapply IH.
Qed.

Lemma verifyXML_Ok roots xml_root :
  verifyXML factory roots (Document (Some xml_root)) = Ok tt →
  Forall (λ bt, ∃ body, ChildElements bt = [body]
                        ∧ verify_recursiveStep factory roots body = Ok tt)
         (ChildElementsNamed "BehaviorTree" xml_root).
Proof.
  unfold verifyXML. destruct (negb _); [done|]. destruct (verify_model _); [|done].
  destruct (verify_trees _ _ _ _ _) as [[names count]|] eqn:E; [|done].
  intros _. by eapply verify_trees_Ok.
Qed.

Lemma fold_register_tree_lookup l p tree_ID bt :
  tree_roots (fold_left register_tree l p) !! tree_ID = Some bt →
  tree_roots p !! tree_ID = Some bt ∨ bt ∈ l.
Proof.
  revert p. induction l as [|b l IH]; intros p; [by left|].
  cbn [fold_left]. intros [H|H]%IH; [|right; by right].
  rewrite register_tree_lookup in H. destruct (tree_roots p !! tree_ID); [by left|].
  case_decide; [|done]. injection H as <-. right. by left.
Qed.

Lemma fold_register_tree_dom l p tree_ID :
  is_Some (tree_roots p !! tree_ID) →
  is_Some (tree_roots (fold_left register_tree l p) !! tree_ID).
Proof. intros [e He]. exists e. by apply fold_register_tree_retains. Qed.

Lemma verified_roots_mono roots roots' :
  (∀ id, is_Some (roots !! id) → is_Some (roots' !! id)) →
  (∀ tree_ID bt, roots' !! tree_ID = Some bt →
     roots !! tree_ID = Some bt
     ∨ ∃ body, ChildElements bt = [body]
               ∧ verify_recursiveStep factory roots' body = Ok tt) →
  verified_roots factory roots → verified_roots factory roots'.
Proof.
  intros Hsub Hnew Hv tree_ID bt [Hold|Hnew']%Hnew; [|done].
  destruct (Hv tree_ID bt Hold) as (body & Hc & Hb). exists body. split; [done|].
  by eapply verify_recursiveStep_mono.
Qed.

Lemma loadDocImpl_verified fuel p doc p' :
  loadDocImpl env factory fuel p doc = Ok p' →
  verified_roots factory (tree_roots p) → verified_roots factory (tree_roots p').
Proof.
  revert p doc p'. induction fuel as [|fuel IH]; intros p doc p'; [done|].
  cbn [loadDocImpl]. destruct doc as [|[xml_root|]]; [done| |done].
  destruct (for_each _ _ p) as [p1|] eqn:Hinc; [|done].
  destruct (verifyXML _ _ _) as [[]|] eqn:Hverify; [|done]. intros [= <-] Hp.
  assert (verified_roots factory (tree_roots p1)) as Hp1.
  { eapply (for_each_invariant (λ q, verified_roots factory (tree_roots q)));
      [|exact Hinc|done].
    intros inc q1 q2 _. cbv beta.
    destruct (include_path _ _ _) as [file_path|]; [|done].
    intros Hload Hq1. exact (IH _ _ _ Hload Hq1). }
  apply verifyXML_Ok in Hverify. rewrite ->Forall_forall in Hverify.
  eapply verified_roots_mono; [| |exact Hp1].
  - intros id. apply fold_register_tree_dom.
  - intros tree_ID bt [Hold|Hin]%fold_register_tree_lookup; [by left|].
    right. by apply Hverify.
Qed.

Lemma accepted_verified p : accepted env factory p → verified_roots factory (tree_roots p).
Proof.
  induction 1 as [|fuel p xml_text p' _ IH Hload|fuel p filename p' _ IH Hload].
  - intros tree_ID bt H. by rewrite lookup_empty in H.
  - by eapply loadDocImpl_verified.
  - by eapply loadDocImpl_verified.
Qed.
End Validated.

Section Unknown.
Context (env : Platform) (factory : BehaviorTreeFactory) (roots : gmap string XMLElement).
Context (builder_of_manifest :
           ∀ id, is_Some (manifests factory !! id) → id ∈ builders factory).
Context (SubTree_manifest :
           ∀ m, manifests factory !! "SubTree" = Some m → manifest_type m = SUBTREE).
Context (Hroots : verified_roots factory roots).

Lemma init_port_types_Err boards bb remap l e :
  init_port_types env boards bb remap l = Err e → type_mismatch_thrown e.
Proof.
  revert boards. induction l as [|port_it l IH]; intros boards; [done|].
  cbn [init_port_types]. destruct (init_port_type _ _ _ _ _) as [boards1|e1] eqn:E.
  - apply IH.
  - intros [= <-]. by eapply init_port_type_Err.
Qed.

Lemma createNodeFromXML_unknown element bb parent nds boards ID :
  createNodeFromXML env factory roots element bb parent nds boards
  = Err (UnknownNodeError ID) →
  element_ID element = Ok ID ∧ (ID ∉ builders factory) ∧ roots !! ID = None.
Proof.
  unfold createNodeFromXML.
  destruct (element_ID element) as [ID'|e] eqn:HID.
  2:{ intros [= ->]. unfold element_ID in HID. repeat case_match; by simplify_eq. }
  destruct (element_instance_name element ID') as [instance_name|e] eqn:Hname.
  2:{ intros [= ->]. unfold element_instance_name in Hname. repeat case_match; by simplify_eq. }
  assert (∀ e, link_to_parent nds parent (length nds) = Err e →
               e ≠ UnknownNodeError ID) as Hlink.
  { intros e. unfold link_to_parent, setChild.
    repeat case_match; simplify_eq; by intros [= <-]. }
  case_decide.
  - destruct (manifests factory !! ID') as [manifest|]; [|done].
    destruct (check_remapping_names _ _ _ _) as [|e] eqn:Hcheck.
    2:{ intros [= ->].
        by apply check_remapping_names_Err, typo_thrown_cases in Hcheck
          as [?|(? & ? & ? & ?)]. }
    destruct (init_port_types _ _ _ _ _) as [boards1|e] eqn:Hinit.
    2:{ intros [= ->].
        by apply init_port_types_Err, type_mismatch_thrown_cases in Hinit
          as [?|(? & ? & ? & ?)]. }
    destruct (link_to_parent _ _ _) as [nds1|e] eqn:El; [done|].
    intros [= ->]. by destruct (Hlink _ eq_refl).
  - case_decide as Hr.
    + destruct (link_to_parent _ _ _) as [nds1|e] eqn:El; [done|].
      intros [= ->]. by destruct (Hlink _ eq_refl).
    + intros [= <-]. split; [done|]. split; [done|].
      destruct (roots !! ID') eqn:E; [|done]. exfalso. apply Hr. by eexists.
Qed.

Lemma verify_node_unknown element ID :
  verify_node factory roots element = Ok tt →
  element_ID element = Ok ID → ID ∉ builders factory → roots !! ID = None →
  is_control_name ID ∨ ID = "SubTree" ∨ ID ∈ declared_IDs element.
Proof using builder_of_manifest.
  clear SubTree_manifest Hroots.
  unfold verify_node, element_ID, ThrowError. intros Hv HID Hb Hr.
  destruct element as [name line attributes children]. cbn [Name] in *.
  unfold Attribute in *. cbn [Attributes declared_IDs] in *.
  destruct (bool_decide (name = "Action") || bool_decide (name = "Decorator")
            || bool_decide (name = "Condition")) eqn:Hthree.
  - destruct (find_attribute "ID" attributes) as [id|]; [|done].
    injection HID as ->. right. right. set_solver.
  - injection HID as ->.
    repeat (case_decide; [simplify_eq; by auto|]).
    destruct (is_control_name ID) eqn:Hc; [by left|].
    case_bool_decide as Hm; cbn in Hv.
    + by apply builder_of_manifest in Hm.
    + case_bool_decide as Hr'; [|done]. rewrite Hr in Hr'. by destruct Hr'.
Qed.

Lemma elem_of_concat_map {A B} (f : A → list B) l a b :
  a ∈ l → b ∈ f a → b ∈ concat (map f l).
Proof.
  induction l as [|a' l IH]; [by intros ?%elem_of_nil|].
  cbn [map concat]. intros [->|Hin]%elem_of_cons Hb; apply elem_of_app; auto.
Qed.

Lemma declared_IDs_child element child ID :
  child ∈ ChildElements element → ID ∈ declared_IDs child → ID ∈ declared_IDs element.
Proof.
  destruct element as [name line attributes children]. cbn [ChildElements declared_IDs].
  intros Hc HID. apply elem_of_app. right. by eapply elem_of_concat_map.
Qed.

Lemma SubTree_element_node element node :
  element_node_type factory roots element = Some (node_type node) →
  Name element = "SubTree" → node_type node = SUBTREE.
Proof using SubTree_manifest.
  clear builder_of_manifest Hroots.
  intros H Hn.
  assert (element_ID element = Ok "SubTree") as HID.
  { unfold element_ID. rewrite Hn. reflexivity. }
  unfold element_node_type in H. rewrite HID in H.
  case_decide.
  - destruct (manifests factory !! "SubTree") as [m|] eqn:Hm; [|done].
    injection H as <-. by apply SubTree_manifest.
  - case_decide; [|done]. by injection H as <-.
Qed.

(** The recursion does not know a node only if the validator has not
    looked its ID up. *)
Lemma recursiveStep_unknown fuel bb parent element st ID :
  verify_recursiveStep factory roots element = Ok tt →
  (∀ id, id ∈ declared_IDs element → declares roots id) →
  recursiveStep env factory roots fuel bb parent element st = Err (UnknownNodeError ID) →
  (ID ∉ builders factory) ∧ roots !! ID = None
  ∧ (is_control_name ID ∨ ID = "SubTree" ∨ declares roots ID).
Proof using All.
  revert bb parent element st.
  induction fuel as [|fuel IH]; intros bb parent element st; [done|].
  rewrite verify_recursiveStep_eq. cbn [recursiveStep].
  destruct (verify_node factory roots element) as [[]|] eqn:Hnode; [|done].
  intros Hchildren Hdecl.
  destruct (add_node _ _ _ _ _ _ _) as [[[node self] st1]|e] eqn:Hadd.
  - destruct (add_node_inv _ _ _ _ _ _ _ _ _ _ Hadd) as (_ & _ & _ & _ & Htype & Hname & _).
    destruct (decide (node_type node = SUBTREE)) as [Hsub|Hsub].
    + destruct (push_subtree_blackboard _ _) as [[new_bb st2]|e] eqn:Hpush.
      2:{ intros [= ->]. unfold push_subtree_blackboard, Blackboard_create in Hpush.
          destruct (last _); [|done]. destruct (add_remappings _ _ _) eqn:Hr; [done|].
          injection Hpush as ->. clear -Hr. revert Hr.
          generalize (ChildElementsNamed "remap" element).
          generalize (boards_of st1 ++
                        [{| bb_parent := Some n; bb_remapping := []; bb_types := ∅ |}]).
          intros l0 l. revert l0. induction l as [|r l IHl]; intros l0; [done|].
          cbn [add_remappings]. repeat case_match; try done. apply IHl. }
      destruct (tree_root_element roots (node_name node)) as [root_element|e] eqn:Hroot.
      2:{ intros [= ->]. unfold tree_root_element in Hroot. repeat case_match; by simplify_eq. }
      unfold tree_root_element in Hroot.
      destruct (roots !! node_name node) as [bt|] eqn:Hbt; [|done].
      destruct (Hroots _ _ Hbt) as (body & Hbody & Hverified).
      rewrite Hbody in Hroot. injection Hroot as <-.
      apply IH; [done|]. intros id Hid. exists (node_name node), bt, body.
      rewrite Hbody. split; [done|]. split; [by left|done].
    + case_decide as Hst.
      { exfalso. apply Hsub. by eapply SubTree_element_node. }
      apply for_each_unit_Ok in Hchildren. clear Hadd.
      assert (∀ child, child ∈ ChildElements element →
                ∀ id, id ∈ declared_IDs child → declares roots id) as Hdc.
      { intros child Hc id Hid. apply Hdecl. by eapply declared_IDs_child. }
      revert st1 Hchildren Hdc. generalize (ChildElements element) as cs.
      induction cs as [|child cs IHcs]; intros s Hcs Hdc; [done|].
      cbn [for_each]. apply Forall_cons in Hcs as [Hchild Hcs].
      destruct (recursiveStep _ _ _ _ _ _ child s) as [s2|e] eqn:Hrec.
      * apply IHcs; [done|]. intros c Hc. apply Hdc. by right.
      * intros [= ->]. eapply IH; [exact Hchild| |exact Hrec]. apply Hdc. by left.
  - intros [= ->]. unfold add_node in Hadd.
    destruct (createNodeFromXML _ _ _ _ _ _ _ _) as [[[??]?]|e] eqn:Hc; [done|].
    injection Hadd as ->. apply createNodeFromXML_unknown in Hc as (HID & Hb & Hr).
    split; [done|]. split; [done|].
    destruct (verify_node_unknown _ _ Hnode HID Hb Hr) as [?|[?|?]]; auto.
Qed.
End Unknown.

(** C2 (amended). When all the documents of a parser have been accepted
    by the validator (and the factory has a builder for every manifest,
    and SubTree is registered as a subtree), [instantiateTree] with a
    root blackboard that is not null can still fail with an
    UnknownNodeError, but only for an ID that the validator does not look
    up: the ID attribute of an <Action>, <Decorator> or <Condition>
    element of a tree of the index, or one of the element names Sequence,
    SequenceStar, Fallback, FallbackStar and SubTree. An element of any
    other name is a registered node or a tree, as the validator has
    checked. *)
Theorem instantiateTree_unknown_node env factory p fuel boards root_bb ID :
  accepted env factory p →
  (∀ id, is_Some (manifests factory !! id) → id ∈ builders factory) →
  (∀ m, manifests factory !! "SubTree" = Some m → manifest_type m = SUBTREE) →
  instantiateTree env factory fuel p boards (Some root_bb) = Err (UnknownNodeError ID) →
  (ID ∉ builders factory) ∧ tree_roots p !! ID = None
  ∧ (is_control_name ID ∨ ID = "SubTree" ∨ declares (tree_roots p) ID).
Proof.
  intros Hacc Hb Hs. pose proof (accepted_verified _ _ _ Hacc) as Hroots.
  unfold instantiateTree, recursivelyCreateTree.
  destruct (main_tree_ID_of p) as [main_tree_ID|e] eqn:Hmain.
  2:{ intros [= ->]. unfold main_tree_ID_of in Hmain. repeat case_match; by simplify_eq. }
  destruct (tree_root_element _ _) as [root_element|e] eqn:Hroot.
  2:{ intros [= ->]. unfold tree_root_element in Hroot. repeat case_match; by simplify_eq. }
  destruct (recursiveStep _ _ _ _ _ _ _ _) as [st'|e] eqn:Hrec; [done|]. intros [= ->].
  unfold tree_root_element in Hroot.
  destruct (tree_roots p !! main_tree_ID) as [bt|] eqn:Hbt; [|done].
  destruct (Hroots _ _ Hbt) as (body & Hbody & Hverified).
  rewrite Hbody in Hroot. injection Hroot as <-.
  eapply recursiveStep_unknown; [done..| |exact Hrec].
  intros id Hid. exists main_tree_ID, bt, body. rewrite Hbody.
  split; [done|]. split; [by left|done].
Qed.

Lemma the_factory_builders id :
  is_Some (manifests Examples.the_factory !! id) → id ∈ builders Examples.the_factory.
Proof. intros H. by apply elem_of_dom. Qed.

Lemma the_factory_SubTree m :
  manifests Examples.the_factory !! "SubTree" = Some m → manifest_type m = SUBTREE.
Proof. intros H. vm_compute in H. by injection H as <-. Qed.

Lemma session_of_accepted doc p :
  loadFromText Examples.the_platform Examples.the_factory 1
    (Pimpl_init Examples.the_platform) doc = Ok p →
  accepted Examples.the_platform Examples.the_factory p.
Proof. intros H. eapply accepted_text; [apply accepted_new|exact H]. Qed.

Lemma instantiateTree_unknown_node_witness :
  ("Foo" ∉ builders Examples.the_factory)
  ∧ tree_roots (Examples.session_of Examples.doc_unknown) !! "Foo" = None
  ∧ (is_control_name "Foo" ∨ "Foo" = "SubTree"
     ∨ declares (tree_roots (Examples.session_of Examples.doc_unknown)) "Foo").
Proof.
  apply (instantiateTree_unknown_node Examples.the_platform Examples.the_factory
           (Examples.session_of Examples.doc_unknown) 2 [Examples.root_board] 0 "Foo").
  - apply (session_of_accepted Examples.doc_unknown). vm_compute. reflexivity.
  - apply the_factory_builders.
  - apply the_factory_SubTree.
  - vm_compute. reflexivity.
Defined.

(** C2, as the specification states it, fails. A document with an action
    that no builder is registered for is accepted by the validator, and
    its instantiation fails with an UnknownNodeError; and two documents
    with one tree each are both accepted, and the instantiation fails
    because the main tree is not selected. *)
Lemma validated_documents_fail_to_instantiate :
  (∃ p, loadFromText Examples.the_platform Examples.the_factory 1
          (Pimpl_init Examples.the_platform) Examples.doc_unknown = Ok p
        ∧ instantiateTree Examples.the_platform Examples.the_factory 2 p
            [Examples.root_board] (Some 0)
          = Err (UnknownNodeError "Foo"))
  ∧ (∃ p1 p2,
       loadFromText Examples.the_platform Examples.the_factory 1
         (Pimpl_init Examples.the_platform) (Examples.doc_tree "A") = Ok p1
       ∧ loadFromText Examples.the_platform Examples.the_factory 1 p1
           (Examples.doc_tree "B") = Ok p2
       ∧ instantiateTree Examples.the_platform Examples.the_factory 2 p2
           [Examples.root_board] (Some 0)
         = Err (UsageError "[main_tree_to_execute] was not specified correctly"))
  ∧ ¬ is_TypoError (UnknownNodeError "Foo")
  ∧ ¬ is_TypeMismatchError (UnknownNodeError "Foo").
Proof.
  split; [|split; [|split; by intros []]].
  - eexists. split; vm_compute; reflexivity.
  - eexists _, _. repeat split; vm_compute; reflexivity.
Qed.

(** ** The round trip through the writer *)

Lemma for_each_Forall2 {A B S} (f : A → S → Result S) (g : B → S → Result S) l l' :
  Forall2 (λ a b, ∀ s, f a s = g b s) l l' →
  ∀ s, for_each f l s = for_each g l' s.
Proof.
  induction 1 as [|a b l l' Hab _ IH]; intros s; [done|].
  cbn [for_each]. rewrite Hab. destruct (g b s); [apply IH|done].
Qed.

(** *** Attributes *)

Lemma find_attribute_None k (l : list (string * string)) :
  k ∉ l.*1 → find_attribute k l = None.
Proof.
  induction l as [|[a w] l IH]; [done|]. cbn [find_attribute fmap list_fmap fst].
  intros Hk. rewrite decide_False; [|set_solver]. apply IH. set_solver.
Qed.

Lemma find_attribute_set_attribute k k' v l :
  find_attribute k (set_attribute k' v l)
  = if decide (k' = k) then Some v else find_attribute k l.
Proof.
  induction l as [|[a w] l IH]; cbn [set_attribute find_attribute]; [done|].
  destruct (decide (a = k')) as [->|Hak']; cbn [find_attribute].
  - by destruct (decide (k' = k)).
  - rewrite IH. destruct (decide (a = k)) as [->|?]; [|done].
    by rewrite decide_False.
Qed.

Lemma set_attribute_keys k v l x :
  x ∈ (set_attribute k v l).*1 ↔ x = k ∨ x ∈ l.*1.
Proof.
  induction l as [|[a w] l IH]; cbn [set_attribute fmap list_fmap fst].
  - set_solver.
  - destruct (decide (a = k)) as [->|?]; cbn [fmap list_fmap fst];
      rewrite ?elem_of_cons ?IH; naive_solver.
Qed.

Lemma set_attribute_NoDup k v l : NoDup l.*1 → NoDup (set_attribute k v l).*1.
Proof.
  induction l as [|[a w] l IH]; cbn [set_attribute fmap list_fmap fst].
  - intros _. apply NoDup_singleton.
  - intros [Ha Hl]%NoDup_cons. destruct (decide (a = k)) as [->|?];
      cbn [fmap list_fmap fst]; apply NoDup_cons.
    + done.
    + split; [|by apply IH]. rewrite set_attribute_keys. naive_solver.
Qed.

Lemma set_attributes_NoDup skip l attributes :
  NoDup attributes.*1 → NoDup (set_attributes skip l attributes).*1.
Proof.
  revert attributes. induction l as [|[k v] l IH]; intros attributes H; [done|].
  cbn [set_attributes fold_left]. apply IH. cbn [fst snd].
  destruct (skip k); [done|]. by apply set_attribute_NoDup.
Qed.

Lemma find_attribute_set_attributes skip (m : gmap string string) attributes k :
  find_attribute k (set_attributes skip (map_to_list m) attributes)
  = match (if skip k then None else m !! k) with
    | Some v => Some v
    | None => find_attribute k attributes
    end.
Proof.
  rewrite -{2}(list_to_map_to_list m).
  pose proof (NoDup_fst_map_to_list m) as Hnd. revert Hnd attributes.
  generalize (map_to_list m). intros l. induction l as [|[a w] l IH]; intros Hnd attributes.
  - cbn. by destruct (skip k).
  - apply NoDup_cons in Hnd as [Ha Hnd]. cbn [set_attributes fold_left fst snd].
    fold (set_attributes skip l (if skip a then attributes else set_attribute a w attributes)).
    rewrite IH //. cbn [list_to_map foldr]. cbn [fst snd uncurry].
    destruct (skip k) eqn:Hskip.
    + destruct (skip a) eqn:Hskipa; [done|].
      rewrite find_attribute_set_attribute. rewrite decide_False; [done|].
      intros ->. congruence.
    + destruct (decide (a = k)) as [->|Hne].
      * rewrite lookup_insert_eq. rewrite (not_elem_of_list_to_map_1 l k) //.
        by rewrite Hskip find_attribute_set_attribute decide_True.
      * rewrite lookup_insert_ne //. destruct (list_to_map l !! k); [done|].
        destruct (skip a); [done|]. by rewrite find_attribute_set_attribute decide_False.
Qed.

(** The remapping parameters of attributes without a duplicate. *)
Lemma remapping_parameters_lookup name line attributes children k :
  NoDup attributes.*1 →
  remapping_parameters_of (Element name line attributes children) !! k
  = if bool_decide (k ≠ "ID") && bool_decide (k ≠ "name")
    then find_attribute k attributes else None.
Proof.
  unfold remapping_parameters_of. cbn [Attributes].
  assert (∀ (m : PortsRemapping),
            NoDup attributes.*1 →
            fold_left (λ (m : PortsRemapping) (att : string * string),
                         if bool_decide (att.1 ≠ "ID") && bool_decide (att.1 ≠ "name")
                         then <[att.1 := att.2]> m else m) attributes m !! k
            = if bool_decide (k ≠ "ID") && bool_decide (k ≠ "name")
              then match find_attribute k attributes with
                   | Some v => Some v
                   | None => m !! k
                   end
              else m !! k) as H.
  { induction attributes as [|[a w] l IH]; intros m Hnd.
    - cbn. by destruct (_ && _).
    - cbn [fmap list_fmap fst] in Hnd. apply NoDup_cons in Hnd as [Ha Hnd].
      cbn [fold_left find_attribute fst snd]. rewrite IH //.
      destruct (bool_decide (k ≠ "ID") && bool_decide (k ≠ "name")) eqn:Hk.
      + destruct (decide (a = k)) as [->|Hne].
        * rewrite find_attribute_None // Hk. by rewrite lookup_insert_eq.
        * destruct (find_attribute k l); [done|].
          destruct (bool_decide (a ≠ "ID") && bool_decide (a ≠ "name"));
            [by rewrite lookup_insert_ne|done].
      + destruct (bool_decide (a ≠ "ID") && bool_decide (a ≠ "name")) eqn:Ha'; [|done].
        rewrite lookup_insert_ne //. intros ->. congruence. }
  intros Hnd. rewrite H // lookup_empty. destruct (_ && _); [|done].
  by destruct (find_attribute k attributes).
Qed.

Lemma remapping_parameters_reserved element k :
  k = "ID" ∨ k = "name" → remapping_parameters_of element !! k = None.
Proof.
  intros Hk. unfold remapping_parameters_of.
  assert (∀ (m : PortsRemapping) l,
            m !! k = None →
            fold_left (λ (m : PortsRemapping) (att : string * string),
                         if bool_decide (att.1 ≠ "ID") && bool_decide (att.1 ≠ "name")
                         then <[att.1 := att.2]> m else m) l m !! k = None) as H.
  { intros m l. revert m. induction l as [|[a w] l IH]; intros m Hm; [done|].
    cbn [fold_left fst snd]. apply IH.
    destruct (bool_decide (a ≠ "ID") && bool_decide (a ≠ "name")) eqn:Ha; [|done].
    rewrite lookup_insert_ne //. intros ->.
    apply andb_prop in Ha as [H1%bool_decide_eq_true_1 H2%bool_decide_eq_true_1].
    naive_solver. }
  by apply H.
Qed.

(** *** The ports of the configuration *)

Lemma check_remapping_names_Ok manifest ID instance_name l :
  check_remapping_names manifest ID instance_name l = Ok tt →
  ∀ k v, (k, v) ∈ l → is_Some (ports manifest !! k).
Proof.
  induction l as [|[a w] l IH]; [by intros _ ?? ?%elem_of_nil|].
  cbn [check_remapping_names fst]. case_decide as Ha; [|done].
  intros Hl k v [[= -> ->]|Hin]%elem_of_cons; [done|]. by eapply IH.
Qed.

Lemma config_of_lookup bb manifest (remap : PortsRemapping) k :
  blackboard (config_of bb manifest remap) = Some bb
  ∧ input_ports (config_of bb manifest remap) !! k
    = (v ← remap !! k; port ← ports manifest !! k;
       if bool_decide (port_type port ≠ OUTPUT) then Some v else None)
  ∧ output_ports (config_of bb manifest remap) !! k
    = (v ← remap !! k; port ← ports manifest !! k;
       if bool_decide (port_type port ≠ INPUT) then Some v else None).
Proof.
  unfold config_of. rewrite -{3 5}(list_to_map_to_list remap).
  pose proof (NoDup_fst_map_to_list remap) as Hnd. revert Hnd.
  generalize (map_to_list remap). intros l.
  set (F := λ (config : NodeConfiguration) (remap_it : string * string), _).
  assert (∀ c,
            NoDup l.*1 →
            blackboard (fold_left F l c) = blackboard c
            ∧ input_ports (fold_left F l c) !! k
              = match input_ports c !! k with
                | Some v => Some v
                | None => v ← (list_to_map l : PortsRemapping) !! k;
                          port ← ports manifest !! k;
                          if bool_decide (port_type port ≠ OUTPUT) then Some v else None
                end
            ∧ output_ports (fold_left F l c) !! k
              = match output_ports c !! k with
                | Some v => Some v
                | None => v ← (list_to_map l : PortsRemapping) !! k;
                          port ← ports manifest !! k;
                          if bool_decide (port_type port ≠ INPUT) then Some v else None
                end) as H.
  { induction l as [|[a w] l IH]; intros c Hnd.
    - cbn. rewrite lookup_empty /=.
      by destruct (input_ports c !! k), (output_ports c !! k).
    - cbn [fmap list_fmap fst] in Hnd. apply NoDup_cons in Hnd as [Ha Hnd].
      cbn [fold_left]. destruct (IH (F c (a, w)) Hnd) as (-> & -> & ->).
      cbn [list_to_map foldr uncurry fst snd].
      assert (blackboard (F c (a, w)) = blackboard c
              ∧ input_ports (F c (a, w))
                = match ports manifest !! a with
                  | Some port => if bool_decide (port_type port ≠ OUTPUT)
                                 then map_insert_new a w (input_ports c)
                                 else input_ports c
                  | None => input_ports c
                  end
              ∧ output_ports (F c (a, w))
                = match ports manifest !! a with
                  | Some port => if bool_decide (port_type port ≠ INPUT)
                                 then map_insert_new a w (output_ports c)
                                 else output_ports c
                  | None => output_ports c
                  end) as (-> & -> & ->).
      { unfold F. cbn [fst snd]. destruct (ports manifest !! a) as [port|]; [|done].
        by destruct (bool_decide (port_type port ≠ OUTPUT)),
                    (bool_decide (port_type port ≠ INPUT)). }
      split; [done|].
      destruct (decide (a = k)) as [->|Hne].
      + rewrite lookup_insert_eq (not_elem_of_list_to_map_1 l k) //. cbn.
        destruct (ports manifest !! k) as [port|]; cbn.
        * split.
          -- destruct (bool_decide (port_type port ≠ OUTPUT));
               rewrite ?map_insert_new_lookup ?decide_True //;
               by destruct (input_ports c !! k).
          -- destruct (bool_decide (port_type port ≠ INPUT));
               rewrite ?map_insert_new_lookup ?decide_True //;
               by destruct (output_ports c !! k).
        * by destruct (input_ports c !! k), (output_ports c !! k).
      + rewrite lookup_insert_ne //.
        destruct (ports manifest !! a) as [port|]; [|done]. split.
        * destruct (bool_decide (port_type port ≠ OUTPUT)); [|done].
          rewrite map_insert_new_lookup decide_False //.
          by destruct (input_ports c !! k).
        * destruct (bool_decide (port_type port ≠ INPUT)); [|done].
          rewrite map_insert_new_lookup decide_False //.
          by destruct (output_ports c !! k). }
  intros Hnd. destruct (H {| blackboard := Some bb; input_ports := ∅; output_ports := ∅ |} Hnd)
    as (-> & -> & ->).
  cbn. by rewrite !lookup_empty.
Qed.

Section RoundTripProofs.
Context (env : Platform) (factory : BehaviorTreeFactory) (compact : bool).

Lemma writable_inv element :
  writable factory compact element = true →
  ∃ ID instance_name manifest,
    element_ID element = Ok ID
    ∧ element_instance_name element ID = Ok instance_name
    ∧ manifests factory !! ID = Some manifest
    ∧ ID ∈ builders factory
    ∧ (ID ∉ [""; "Action"; "Decorator"; "Condition"; "SubTree"])
    ∧ (instance_name = ID
       ∨ (instance_name ≠ ""
          ∧ instance_name ≠ written_name factory compact (manifest_type manifest) ID))
    ∧ arity_ok (manifest_type manifest)
        (written_name factory compact (manifest_type manifest) ID)
        (ChildElements element) = true
    ∧ Forall (λ c, writable factory compact c = true) (ChildElements element).
Proof.
  destruct element as [name line attributes children]. cbn [writable ChildElements].
  destruct (element_ID _) as [ID|] eqn:HID; [|done].
  destruct (element_instance_name _ _) as [instance_name|] eqn:Hname; [|done].
  destruct (manifests factory !! ID) as [manifest|] eqn:Hm; [|done].
  intros H.
  apply andb_prop in H as [H Hchildren]. apply andb_prop in H as [H Harity].
  apply andb_prop in H as [H Hinst]. apply andb_prop in H as [Hb Hres].
  exists ID, instance_name, manifest.
  split; [done|]. split; [done|]. split; [done|].
  split; [exact (bool_decide_eq_true_1 _ Hb)|].
  split; [exact (bool_decide_eq_true_1 _ Hres)|].
  split; [|split; [done|]].
  - apply orb_prop in Hinst as [H1|H1].
    + left. exact (bool_decide_eq_true_1 _ H1).
    + right. apply andb_prop in H1 as [H1 H2].
      split; [exact (bool_decide_eq_true_1 _ H1)|exact (bool_decide_eq_true_1 _ H2)].
  - apply Forall_forall. intros c Hc.
    apply (proj1 (List.forallb_forall _ _) Hchildren). by apply list_elem_of_In.
Qed.
(** The step on an element of a registered builder; the index of the
    trees is not read. *)
Lemma add_node_builder roots element bb parent st ID instance_name manifest :
  element_ID element = Ok ID →
  element_instance_name element ID = Ok instance_name →
  ID ∈ builders factory →
  manifests factory !! ID = Some manifest →
  add_node env factory roots element bb parent st
  = (check check_remapping_names manifest ID instance_name
             (map_to_list (remapping_parameters_of element));
     do boards' <- init_port_types env (boards_of st) bb (remapping_parameters_of element)
                     (map_to_list (ports manifest));
     do nds' <- link_to_parent (nodes (output_tree st)) parent
                  (length (nodes (output_tree st)));
     let node := instantiateTreeNode manifest instance_name ID
                   (config_of bb manifest (remapping_parameters_of element)) in
     Ok (node, length nds',
         {| output_tree := {| root_node := root_node (output_tree st);
                              nodes := nds' ++ [node];
                              blackboard_stack := blackboard_stack (output_tree st) |};
            boards_of := boards' |})).
Proof.
  intros HID Hname Hb Hm. unfold add_node.
  rewrite (createNodeFromXML_builder _ _ _ _ _ _ _ _ _ _ _ HID Hname Hb Hm).
  destruct (check_remapping_names _ _ _ _); [|done].
  destruct (init_port_types _ _ _ _ _); [|done].
  by destruct (link_to_parent _ _ _).
Qed.

Lemma arity_ok_not_SUBTREE typ name children :
  arity_ok typ name children = true → typ ≠ SUBTREE.
Proof. by intros H ->. Qed.

(** *** The element of a node *)

Lemma fold_SetAttribute l nm ln a c :
  fold_left (λ el (port_it : string * string), SetAttribute port_it.1 port_it.2 el)
            l (Element nm ln a c)
  = Element nm ln (set_attributes (λ _, false) l a) c.
Proof. revert a. induction l as [|[k v] l IH]; intros a; [done|]. cbn. apply IH. Qed.

Lemma fold_SetAttribute_new (inputs : PortsRemapping) l nm ln a c :
  fold_left (λ el (port_it : string * string),
               if decide (is_Some (inputs !! port_it.1))
               then el else SetAttribute port_it.1 port_it.2 el)
            l (Element nm ln a c)
  = Element nm ln (set_attributes (λ k, bool_decide (is_Some (inputs !! k))) l a) c.
Proof.
  revert a. induction l as [|[k v] l IH]; intros a; [done|]. cbn [fold_left fst snd].
  unfold set_attributes. cbn [fold_left fst snd].
  destruct (decide (is_Some (inputs !! k))) as [HP|HP].
  - rewrite bool_decide_eq_true_2 //; apply IH.
  - rewrite bool_decide_eq_false_2 //; apply IH.
Qed.

Lemma element_of_node_eq node :
  element_of_node factory compact node
  = Element (element_name_of factory compact node) 0
            (node_attributes factory compact node) [].
Proof.
  unfold element_of_node, node_attributes, base_attributes, NewElement.
  repeat case_bool_decide; cbn [andb SetAttribute];
    by rewrite fold_SetAttribute fold_SetAttribute_new.
Qed.

Lemma base_attributes_NoDup node : NoDup (base_attributes factory compact node).*1.
Proof.
  unfold base_attributes.
  repeat case_bool_decide; cbn [andb]; repeat apply set_attribute_NoDup; constructor.
Qed.

Lemma node_attributes_NoDup node : NoDup (node_attributes factory compact node).*1.
Proof.
  unfold node_attributes. do 2 apply set_attributes_NoDup. apply base_attributes_NoDup.
Qed.

Lemma find_base_attributes node k :
  find_attribute k (base_attributes factory compact node)
  = if decide (k = "name")
    then (if bool_decide (element_name_of factory compact node ≠ node_name node)
             && bool_decide (node_name node ≠ "")
             && bool_decide (node_name node ≠ registrationName node)
          then Some (node_name node) else None)
    else if decide (k = "ID")
    then (if bool_decide (element_name_of factory compact node ≠ registrationName node)
             && bool_decide (registrationName node ≠ "")
          then Some (registrationName node) else None)
    else None.
Proof.
  unfold base_attributes.
  repeat case_bool_decide; cbn [andb];
    rewrite ?find_attribute_set_attribute; cbn [find_attribute];
    repeat case_decide; simplify_eq; done.
Qed.

Section WrittenElement.
Context (ID instance_name : string) (manifest : TreeNodeManifest).
Context (bb : nat) (remap : PortsRemapping) (n : TreeNode).
Context (Hm : manifests factory !! ID = Some manifest).
Context (Htyp : manifest_type manifest ≠ SUBTREE).
Context (Hreserved : ID ∉ [""; "Action"; "Decorator"; "Condition"; "SubTree"]).
Context (Hname : instance_name = ID
                 ∨ (instance_name ≠ ""
                    ∧ instance_name ≠ written_name factory compact (manifest_type manifest) ID)).
Context (Hcheck : check_remapping_names manifest ID instance_name (map_to_list remap) = Ok tt).
Context (HremapID : remap !! "ID" = None) (Hremapname : remap !! "name" = None).
Context (Hn : n = with_children
                    (instantiateTreeNode manifest instance_name ID
                       (config_of bb manifest remap))
                    (node_children n)).

Lemma written_node_fields :
  node_type n = manifest_type manifest ∧ registrationName n = ID
  ∧ node_name n = instance_name ∧ config n = config_of bb manifest remap.
Proof using Hn. by rewrite Hn. Qed.

Lemma written_node_name :
  element_name_of factory compact n = written_name factory compact (manifest_type manifest) ID.
Proof using Hn.
  destruct written_node_fields as (Ht & HI & _ & _).
  unfold element_name_of, written_name. by rewrite Ht HI.
Qed.

Lemma written_name_cases :
  let T := written_name factory compact (manifest_type manifest) ID in
  T = ID ∨ (T ∈ ["Action"; "Decorator"; "Condition"] ∧ compact = false
            ∧ T = toStr (manifest_type manifest)).
Proof using Hm Htyp.
  clear - Hm Htyp. unfold written_name. rewrite Hm. case_decide as Hc; [by left|].
  destruct compact.
  - left. case_decide as Hd; [done|]. destruct Hd. by eexists.
  - right. split; [|done]. destruct (manifest_type manifest); set_solver.
Qed.

Lemma find_written_attributes k :
  find_attribute k (node_attributes factory compact n)
  = match remap !! k with
    | Some v => Some v
    | None => find_attribute k (base_attributes factory compact n)
    end.
Proof using Hn Hcheck.
  destruct written_node_fields as (_ & _ & _ & Hc).
  unfold node_attributes. rewrite !find_attribute_set_attributes Hc.
  destruct (config_of_lookup bb manifest remap k) as (_ & -> & ->).
  destruct (remap !! k) as [v|] eqn:Hk; cbn; [|done].
  destruct (check_remapping_names_Ok _ _ _ _ Hcheck k v) as [port ->];
    [by apply elem_of_map_to_list|]. cbn.
  destruct (port_type port); cbn; done.
Qed.

Lemma written_element children :
  let element := Element (element_name_of factory compact n) 0
                         (node_attributes factory compact n) children in
  Name element = written_name factory compact (manifest_type manifest) ID
  ∧ element_ID element = Ok ID
  ∧ element_instance_name element ID = Ok instance_name
  ∧ remapping_parameters_of element = remap.
Proof using Hm Htyp Hreserved Hname Hcheck HremapID Hremapname Hn.
  destruct written_node_fields as (Ht & HI & HN & Hc).
  pose proof written_node_name as HT. pose proof written_name_cases as Hcases.
  cbn zeta in *. split; [done|].
  assert (Attribute (Element (element_name_of factory compact n) 0
                             (node_attributes factory compact n) children) "ID"
          = if bool_decide (element_name_of factory compact n ≠ ID) then Some ID else None)
    as HattrID.
  { unfold Attribute. cbn [Attributes].
    rewrite find_written_attributes HremapID find_base_attributes HI.
    destruct (decide ("ID" = "name")); [done|]. destruct (decide ("ID" = "ID")); [|done].
    rewrite (bool_decide_eq_true_2 (ID ≠ "")); [|set_solver]. by rewrite andb_true_r. }
  assert (Attribute (Element (element_name_of factory compact n) 0
                             (node_attributes factory compact n) children) "name"
          = if bool_decide (instance_name = ID) then None else Some instance_name)
    as Hattrname.
  { unfold Attribute. cbn [Attributes].
    rewrite find_written_attributes Hremapname find_base_attributes HI HN.
    destruct (decide ("name" = "name")); [|done]. rewrite HT.
    destruct Hname as [->|[Hne Hnw]].
    - rewrite (bool_decide_eq_false_2 (ID ≠ ID)); [|naive_solver].
      rewrite andb_false_r. by rewrite bool_decide_eq_true_2.
    - destruct (decide (instance_name = ID)) as [Heq|Hneq].
      + rewrite (bool_decide_eq_false_2 (instance_name ≠ ID)); [|by intros Hx; apply Hx].
        by rewrite andb_false_r bool_decide_eq_true_2.
      + rewrite (bool_decide_eq_false_2 (instance_name = ID)) //.
        by rewrite !bool_decide_eq_true_2. }
  split; [|split].
  - unfold element_ID. rewrite HattrID. cbn [Name]. rewrite HT.
    destruct Hcases as [->|(Hin & _ & _)].
    + rewrite !bool_decide_eq_false_2; [done|set_solver..].
    + assert (written_name factory compact (manifest_type manifest) ID ≠ ID) as Hne.
      { intros Heq. rewrite Heq in Hin. set_solver. }
      rewrite (bool_decide_eq_true_2 _ Hne).
      remember (written_name factory compact (manifest_type manifest) ID) as T.
      clear -Hin. repeat (apply elem_of_cons in Hin as [->|Hin]; [done|]).
      by apply elem_of_nil in Hin.
  - unfold element_instance_name. rewrite Hattrname. cbn [Name]. rewrite HT.
    rewrite decide_False.
    + by case_bool_decide as Heq; [rewrite Heq|].
    + destruct Hcases as [->|(Hin & _ & Heq)]; [set_solver|].
      rewrite Heq. by destruct (manifest_type manifest).
  - apply map_eq. intros k.
    rewrite remapping_parameters_lookup; [|apply node_attributes_NoDup].
    rewrite find_written_attributes find_base_attributes.
    destruct (decide (k = "ID")) as [->|H1].
    { rewrite (bool_decide_eq_false_2 ("ID" ≠ "ID")); [|by intros Hx; apply Hx].
      by rewrite HremapID. }
    destruct (decide (k = "name")) as [->|H2].
    { rewrite (bool_decide_eq_false_2 ("name" ≠ "name")); [|by intros Hx; apply Hx].
      by rewrite andb_false_r Hremapname. }
    rewrite !bool_decide_eq_true_2 //. cbn [andb].
    destruct (decide (k = "name")); [done|]. destruct (decide (k = "ID")); [done|].
    by destruct (remap !! k).
Qed.

Lemma written_element_verified roots children0 children :
  arity_ok (manifest_type manifest)
           (written_name factory compact (manifest_type manifest) ID) children0 = true →
  length children = length children0 →
  verify_node factory roots
    (Element (element_name_of factory compact n) 0
             (node_attributes factory compact n) children) = Ok tt.
Proof using Hm Htyp Hreserved Hname Hcheck HremapID Hremapname Hn.
  intros Harity Hlen.
  destruct (written_element children) as (HT & HID & _ & _). cbn zeta in *.
  pose proof written_name_cases as Hcases. cbn zeta in Hcases.
  unfold element_ID in HID. cbn [Name] in HT, HID.
  unfold verify_node, ChildrenCount. cbn [Name ChildElements GetLineNum].
  rewrite HT in HID |- *. rewrite Hlen.
  apply andb_prop in Harity as [Hkind Hctrl].
  destruct Hcases as [HTID|(Hin & _ & Heq)].
  - rewrite HTID in Hctrl |- *.
    rewrite !decide_False; [|set_solver..].
    destruct (is_control_name ID) eqn:Hcn.
    + cbn in Hctrl. apply negb_true_iff in Hctrl. by rewrite Hctrl.
    + rewrite Hm. rewrite (bool_decide_eq_true_2 (is_Some (Some manifest))) //.
  - rewrite Heq in HID Hin |- *. unfold Attribute in *. cbn [Attributes] in *.
    destruct (find_attribute "ID" _) as [id|];
      destruct (manifest_type manifest); try done; cbn in HID |- *; try done;
      try (apply bool_decide_eq_true_1 in Hkind; by rewrite Hkind);
      exfalso; clear -Hin;
      repeat (apply elem_of_cons in Hin as [?|Hin]; [done|]); by apply elem_of_nil in Hin.
Qed.
End WrittenElement.

(** The instantiator does the same on elements that are the same
    instances. *)
Lemma recursiveStep_same_instance roots roots' fuel bb parent e e' st :
  writable factory compact e = true → same_instance e e' →
  recursiveStep env factory roots fuel bb parent e st
  = recursiveStep env factory roots' fuel bb parent e' st.
Proof.
  revert bb parent e e' st.
  induction fuel as [|fuel IH]; intros bb parent e e' st Hw Hsame; [done|].
  cbn [recursiveStep].
  destruct (writable_inv _ Hw)
    as (ID & instance_name & manifest & HID & Hname & Hm & Hb & _ & _ & Harity & Hcs).
  destruct Hsame as [e e' HID' Hname' Hremap Hchildren].
  rewrite (add_node_builder roots e _ _ _ _ _ _ HID Hname Hb Hm).
  rewrite (Hname' _ HID) in Hname. rewrite HID' in HID.
  rewrite (add_node_builder roots' e' _ _ _ _ _ _ HID Hname Hb Hm) -Hremap.
  destruct (check_remapping_names _ _ _ _); [|done].
  destruct (init_port_types _ _ _ _ _) as [boards1|]; [|done].
  destruct (link_to_parent _ _ _) as [nds1|]; [|done]. cbn zeta.
  rewrite !decide_False; [|by eapply arity_ok_not_SUBTREE..].
  apply for_each_Forall2. clear -IH Hchildren Hcs. revert Hcs.
  induction Hchildren as [|c c' cs cs' Hc _ IHcs]; intros Hcs; [constructor|].
  apply Forall_cons in Hcs as [Hwc Hcs]. constructor; [|by apply IHcs].
  intros s. by apply IH.
Qed.

Lemma link_to_parent_lookup nds p child nds' i :
  link_to_parent nds (Some p) child = Ok nds' → i ≠ p → nds' !! i = nds !! i.
Proof.
  unfold link_to_parent, setChild. intros H Hi.
  repeat case_match; simplify_eq; by rewrite ?list_lookup_insert_ne.
Qed.

Lemma link_to_parent_length nds parent child nds' :
  link_to_parent nds parent child = Ok nds' → length nds' = length nds.
Proof. by intros [? _]%link_to_parent_inv. Qed.

(** The nodes that exist before the recursion, after it: the parent has
    the new node as a child, the others are as they were. *)
Lemma recursiveStep_old_nodes roots fuel bb parent element st st' :
  recursiveStep env factory roots fuel bb parent element st = Ok st' →
  ∃ nds1,
    link_to_parent (nodes (output_tree st)) parent (length (nodes (output_tree st))) = Ok nds1
    ∧ (∀ i, i < length (nodes (output_tree st)) → nodes (output_tree st') !! i = nds1 !! i)
    ∧ length (nodes (output_tree st)) < length (nodes (output_tree st')).
Proof.
  revert bb parent element st st'.
  induction fuel as [|fuel IH]; intros bb parent element st st'; [done|].
  cbn [recursiveStep].
  destruct (add_node _ _ _ _ _ _ _) as [[[node self] st1]|] eqn:Hadd; [|done].
  destruct (add_node_inv _ _ _ _ _ _ _ _ _ _ Hadd) as (nds1 & Hlink & -> & Hnodes1 & _).
  pose proof (link_to_parent_length _ _ _ _ Hlink) as Hlen1.
  assert (∀ s s' b el,
            recursiveStep env factory roots fuel b
              (Some (length (nodes (output_tree st)))) el s = Ok s' →
            length (nodes (output_tree st)) < length (nodes (output_tree s)) →
            (∀ i, i < length (nodes (output_tree st)) →
                  nodes (output_tree s') !! i = nodes (output_tree s) !! i)
            ∧ length (nodes (output_tree s)) < length (nodes (output_tree s'))) as Hsub.
  { intros s s' b el Hrec Hlt.
    destruct (IH _ _ _ _ _ Hrec) as (nds2 & Hlink2 & Hold2 & Hlen2).
    split; [|done]. intros i Hi. rewrite Hold2; [|lia].
    eapply link_to_parent_lookup; [exact Hlink2|lia]. }
  intros Hrec. exists nds1. split; [done|].
  assert (length (nodes (output_tree st)) < length (nodes (output_tree st1))) as Hlt1.
  { rewrite Hnodes1 length_app Hlen1 /=. lia. }
  assert (∀ i, i < length (nodes (output_tree st)) →
               nodes (output_tree st1) !! i = nds1 !! i) as Hst1.
  { intros i Hi. rewrite Hnodes1 lookup_app_l; [done|lia]. }
  case_decide.
  - destruct (push_subtree_blackboard _ _) as [[new_bb st2]|] eqn:Hpush; [|done].
    destruct (tree_root_element _ _) as [root_element|]; [|done].
    destruct (push_subtree_blackboard_inv _ _ _ _ Hpush)
      as (? & ? & ? & _ & _ & _ & Hn2 & _).
    rewrite -Hn2 in Hlt1, Hst1. destruct (Hsub _ _ _ _ Hrec Hlt1) as [Hold Hlen].
    split; [|lia]. intros i Hi. rewrite Hold // Hst1 //.
  - clear Hnodes1 Hadd. revert st1 Hrec Hlt1 Hst1.
    generalize (ChildElements element) as cs.
    induction cs as [|child cs IHcs]; intros s Hloop Hlt Hs.
    + injection Hloop as <-. split; [done|lia].
    + cbn [for_each] in Hloop.
      destruct (recursiveStep _ _ _ _ _ _ child s) as [s2|] eqn:Hchild; [|done].
      destruct (Hsub _ _ _ _ Hchild Hlt) as [Hold Hlen].
      destruct (IHcs s2 Hloop) as [Hfin Hlenfin]; [lia| |].
      * intros i Hi. rewrite Hold // Hs //.
      * split; [done|lia].
Qed.
Lemma for_each_old_nodes roots fuel bb self cs st st' :
  for_each (recursiveStep env factory roots fuel bb (Some self)) cs st = Ok st' →
  length (nodes (output_tree st)) ≤ length (nodes (output_tree st'))
  ∧ ∀ i, i < length (nodes (output_tree st)) → i ≠ self →
         nodes (output_tree st') !! i = nodes (output_tree st) !! i.
Proof.
  revert st. induction cs as [|child cs IH]; intros st.
  - by intros [= <-].
  - cbn [for_each].
    destruct (recursiveStep _ _ _ _ _ _ child st) as [s2|] eqn:Hchild; [|done].
    intros [Hlen Hold]%IH.
    destruct (recursiveStep_old_nodes _ _ _ _ _ _ _ Hchild) as (nds1 & Hlink & Hold1 & Hlen1).
    split; [lia|]. intros i Hi Hne. rewrite Hold; [|lia|done]. rewrite Hold1 //.
    by eapply link_to_parent_lookup.
Qed.

Lemma layout_bounds (R : nat → XMLElement → nat → Prop) i es cs k :
  (∀ a e b, R a e b → a < b) → layout R i es cs k → i ≤ k.
Proof. intros HR. induction 1 as [|i e es j cs k He%HR _ IH]; lia. Qed.

Lemma layout_impl (R R' : nat → XMLElement → nat → Prop) i es cs k :
  (∀ a e b, R a e b → a < b) →
  (∀ a e b, i ≤ a → b ≤ k → R a e b → R' a e b) →
  layout R i es cs k → layout R' i es cs k.
Proof.
  intros Hlt Himpl Hl. induction Hl as [|i e es j cs k He Hes IH]; [constructor|].
  pose proof (Hlt _ _ _ He). pose proof (layout_bounds _ _ _ _ _ Hlt Hes).
  apply (layout_cons R' i e es j cs k).
  - apply Himpl; [lia|lia|done].
  - apply IH. intros a e' b Ha Hb. apply Himpl; lia.
Qed.

Lemma represents_lt bb nds h i element j :
  represents factory bb nds h i element j → i < j.
Proof.
  revert i element j. induction h as [|h IH]; intros i element j; [done|].
  intros (n & ID & instance_name & manifest & _ & _ & _ & _ & _ & _ & Hl).
  apply layout_bounds in Hl; [lia|]. apply IH.
Qed.

(** The nodes of an element stay its nodes when the other nodes change. *)
Lemma represents_stable bb nds nds' h i element j :
  represents factory bb nds h i element j →
  (∀ k, i ≤ k < j → nds' !! k = nds !! k) →
  represents factory bb nds' h i element j.
Proof.
  revert i element j. induction h as [|h IH]; intros i element j; [done|].
  intros Hr Hag. pose proof (represents_lt _ _ _ _ _ _ Hr) as Hlt.
  destruct Hr as (n & ID & instance_name & manifest & Hn & HID & Hname & Hm & Hc & Heq & Hl).
  exists n, ID, instance_name, manifest.
  split; [rewrite Hag; [done|lia]|]. do 5 (split; [done|]).
  eapply layout_impl; [apply represents_lt| |exact Hl].
  intros a e b Ha Hb Hab. apply IH; [done|]. intros k Hk. apply Hag. lia.
Qed.

Lemma link_to_parent_linkable nds p node cs0 child nds' :
  nds !! p = Some (with_children node cs0) →
  node_type node = CONTROL ∨ node_type node = DECORATOR →
  link_to_parent nds (Some p) child = Ok nds' →
  nds' !! p = Some (with_children node (cs0 ++ [child])).
Proof.
  intros Hp Htype. unfold link_to_parent, is_ControlNode, is_DecoratorNode, setChild, addChild.
  rewrite Hp. cbn [node_type with_children node_children].
  apply lookup_lt_Some in Hp as Hlt.
  destruct Htype as [-> | ->]; cbn.
  - intros [= <-]. by rewrite list_lookup_insert_eq.
  - destruct cs0; [|done]. intros [= <-]. by rewrite list_lookup_insert_eq.
Qed.

(** The nodes that the instantiator adds for an element that can be
    written are the nodes of the element. *)
Lemma recursiveStep_represents roots fuel bb parent element st st' :
  writable factory compact element = true →
  recursiveStep env factory roots fuel bb parent element st = Ok st' →
  represents factory bb (nodes (output_tree st')) fuel
    (length (nodes (output_tree st))) element (length (nodes (output_tree st'))).
Proof.
  revert bb parent element st st'.
  induction fuel as [|fuel IH]; intros bb parent element st st' Hw; [done|].
  cbn [recursiveStep].
  destruct (writable_inv _ Hw)
    as (ID & instance_name & manifest & HID & Hname & Hm & Hb & _ & _ & Harity & Hcs).
  rewrite (add_node_builder roots element _ _ _ _ _ _ HID Hname Hb Hm).
  destruct (check_remapping_names _ _ _ _) as [[]|] eqn:Hcheck; [|done].
  destruct (init_port_types _ _ _ _ _) as [boards1|]; [|done].
  destruct (link_to_parent _ _ _) as [nds1|] eqn:Hlink; [|done]. cbn zeta.
  rewrite decide_False; [|by eapply arity_ok_not_SUBTREE].
  pose proof (link_to_parent_length _ _ _ _ Hlink) as Hlen1. rewrite Hlen1.
  set (node := instantiateTreeNode manifest instance_name ID
                 (config_of bb manifest (remapping_parameters_of element))).
  set (self := length (nodes (output_tree st))).
  set (st1 := {| output_tree := _; boards_of := boards1 |}).
  assert (node_type node = CONTROL ∨ node_type node = DECORATOR
          ∨ ChildElements element = []) as Htype.
  { unfold arity_ok in Harity. apply andb_prop in Harity as [Harity _].
    cbn [node node_type instantiateTreeNode].
    destruct (manifest_type manifest); auto; try done;
      right; right; apply bool_decide_eq_true_1 in Harity;
      by destruct (ChildElements element). }
  assert (∀ es s cs0,
            Forall (λ c, writable factory compact c = true) es →
            (es = [] ∨ node_type node = CONTROL ∨ node_type node = DECORATOR) →
            for_each (recursiveStep env factory roots fuel bb (Some self)) es s = Ok st' →
            nodes (output_tree s) !! self = Some (with_children node cs0) →
            ∃ cs, nodes (output_tree st') !! self = Some (with_children node (cs0 ++ cs))
                  ∧ layout (represents factory bb (nodes (output_tree st')) fuel)
                      (length (nodes (output_tree s))) es cs
                      (length (nodes (output_tree st')))) as Hloop.
  { induction es as [|e1 es IHes]; intros s cs0 Hes Hlinkable.
    - intros [= <-] Hself. exists []. rewrite app_nil_r. split; [done|constructor].
    - destruct Hlinkable as [?|Hlinkable]; [done|].
      apply Forall_cons in Hes as [He1 Hes]. cbn [for_each].
      destruct (recursiveStep _ _ _ _ _ _ e1 s) as [s2|] eqn:Hchild; [|done].
      intros Hrest Hself.
      destruct (recursiveStep_old_nodes _ _ _ _ _ _ _ Hchild)
        as (nds2 & Hlink2 & Hold2 & Hlen2).
      apply lookup_lt_Some in Hself as Hlt.
      pose proof (link_to_parent_linkable _ _ _ _ _ _ Hself Hlinkable Hlink2) as Hself2.
      rewrite -Hold2 // in Hself2.
      destruct (IHes s2 _ Hes (or_intror Hlinkable) Hrest Hself2) as (cs & Hfin & Hlay).
      exists (length (nodes (output_tree s)) :: cs).
      split; [by rewrite Hfin -app_assoc|]. econstructor; [|exact Hlay].
      eapply represents_stable; [by eapply IH|].
      destruct (for_each_old_nodes _ _ _ _ _ _ _ Hrest) as [_ Hframe].
      intros k Hk. apply Hframe; lia. }
  intros Hrec.
  destruct (Hloop (ChildElements element) st1 [] Hcs) as (cs & Hself & Hlay).
  - destruct Htype as [?|[?|?]]; auto.
  - exact Hrec.
  - cbn [st1 output_tree nodes]. rewrite lookup_app_r; [|lia].
    by rewrite Hlen1 Nat.sub_diag.
  - exists (with_children node cs), ID, instance_name, manifest.
    do 5 (split; [done|]). split; [done|].
    cbn [st1 output_tree nodes] in Hlay. rewrite length_app Hlen1 /= Nat.add_1_r in Hlay.
    exact Hlay.
Qed.
(** *** The writer on the nodes of an element *)

Lemma recursiveVisitor_children roots bb nds h es cs a k :
  (∀ i e j, represents factory bb nds h i e j → writable factory compact e = true →
     ∃ e', recursiveVisitor factory compact nds h (Some i) = Ok e'
           ∧ same_instance e e'
           ∧ verify_recursiveStep factory roots e' = Ok tt) →
  layout (represents factory bb nds h) a es cs k →
  Forall (λ c, writable factory compact c = true) es →
  ∀ nm ln attrs c0, ∃ es',
    for_each (λ child element,
                do c <- recursiveVisitor factory compact nds h (Some child);
                Ok (InsertEndChild c element))
             cs (Element nm ln attrs c0)
    = Ok (Element nm ln attrs (c0 ++ es'))
    ∧ Forall2 same_instance es es'
    ∧ Forall (λ e', verify_recursiveStep factory roots e' = Ok tt) es'.
Proof.
  intros IH Hl. induction Hl as [i|i e es j cs k He Hes IHl]; intros Hw nm ln attrs c0.
  - exists []. by rewrite app_nil_r.
  - apply Forall_cons in Hw as [Hwe Hwes].
    destruct (IH _ _ _ He Hwe) as (e' & Hv & Hs & Hver).
    destruct (IHl Hwes nm ln attrs (c0 ++ [e'])) as (es' & Hf & Hss & Hvers).
    exists (e' :: es'). cbn [for_each]. rewrite Hv. cbn [InsertEndChild].
    rewrite Hf -app_assoc. split; [done|]. split; by constructor.
Qed.

(** The writer makes of the nodes of a writable element an element that
    is the same instance and that the validator accepts. *)
Lemma recursiveVisitor_represents roots bb nds h i e j :
  represents factory bb nds h i e j → writable factory compact e = true →
  ∃ e', recursiveVisitor factory compact nds h (Some i) = Ok e'
        ∧ same_instance e e'
        ∧ verify_recursiveStep factory roots e' = Ok tt.
Proof.
  revert i e j. induction h as [|h IH]; intros i e j; [done|].
  intros (n & ID & instance_name & manifest & Hn & HID & Hname & Hm & Hcheck & Heq & Hl) Hw.
  destruct (writable_inv _ Hw)
    as (ID' & name' & manifest' & HID' & Hname' & Hm' & _ & Hres & Hnm & Harity & Hcs).
  rewrite HID in HID'. injection HID' as <-.
  rewrite Hname in Hname'. injection Hname' as <-.
  rewrite Hm in Hm'. injection Hm' as <-.
  pose proof (arity_ok_not_SUBTREE _ _ _ Harity) as Htyp.
  assert (remapping_parameters_of e !! "ID" = None) as HrID
    by (apply remapping_parameters_reserved; by left).
  assert (remapping_parameters_of e !! "name" = None) as Hrname
    by (apply remapping_parameters_reserved; by right).
  destruct (written_node_fields ID instance_name manifest bb _ n Heq) as (Ht & _ & _ & _).
  assert (∃ es',
            recursiveVisitor factory compact nds (S h) (Some i)
            = Ok (Element (element_name_of factory compact n) 0
                          (node_attributes factory compact n) es')
            ∧ Forall2 same_instance (ChildElements e) es'
            ∧ Forall (λ e', verify_recursiveStep factory roots e' = Ok tt) es')
    as (es' & Hv & Hss & Hvers).
  { cbn [recursiveVisitor mbind option_bind]. rewrite Hn element_of_node_eq.
    unfold is_ControlNode, is_DecoratorNode, decorator_child. rewrite Ht.
    apply andb_prop in Harity as [Hkind _].
    destruct (manifest_type manifest) eqn:Etyp; [| | | |done].
    - apply bool_decide_eq_true_1, nil_length_inv in Hkind. rewrite Hkind.
      exists []. by repeat constructor.
    - apply bool_decide_eq_true_1, nil_length_inv in Hkind. rewrite Hkind.
      exists []. by repeat constructor.
    - rewrite bool_decide_eq_true_2 //.
      destruct (recursiveVisitor_children roots bb nds h _ _ _ _ (IH) Hl Hcs
                  (element_name_of factory compact n) 0%Z
                  (node_attributes factory compact n) []) as (es' & Hf & Hss & Hvers).
      exists es'. by rewrite Hf.
    - apply bool_decide_eq_true_1 in Hkind.
      destruct (ChildElements e) as [|c [|??]] eqn:Ees; [done| |done].
      inversion Hl as [|? ? ? j' cs k He Hes]; subst.
      inversion Hes; subst. apply Forall_cons in Hcs as [Hwc _].
      destruct (IH _ _ _ He Hwc) as (c' & Hc' & Hsc & Hvc).
      exists [c'].
      cbn. rewrite Hc'. cbn. split; [done|]. split; (constructor; [done|constructor]). }
  exists (Element (element_name_of factory compact n) 0
                  (node_attributes factory compact n) es').
  split; [done|].
  destruct (written_element ID instance_name manifest bb _ n
              Hm Htyp Hres Hnm Hcheck HrID Hrname Heq es')
    as (HT & HID2 & Hname2 & Hremap2). cbn zeta in *.
  split.
  - constructor.
    + by rewrite HID HID2.
    + intros ID0 HID0. rewrite HID in HID0. injection HID0 as <-.
      by rewrite Hname Hname2.
    + by rewrite Hremap2.
    + done.
  - rewrite verify_recursiveStep_eq.
    rewrite (written_element_verified ID instance_name manifest bb _ n
               Hm Htyp Hres Hnm Hcheck HrID Hrname Heq roots (ChildElements e) es' Harity);
      [|by rewrite (Forall2_length _ _ _ Hss)].
    rewrite decide_False.
    + cbn [ChildElements]. by apply for_each_unit_Ok.
    + rewrite HT.
      destruct (written_name_cases ID manifest Hm Htyp) as [->|(Hin & _ & _)];
        [set_solver|].
      intros HS. rewrite HS in Hin. set_solver.
Qed.
End RoundTripProofs.

(** *** The written document in a new parser *)

(** The line numbers of the elements are read for the messages of the
    errors only. *)
Lemma same_instance_erase_lines e e' :
  same_instance e (erase_lines e') → same_instance e e'.
Proof.
  revert e. induction e' as [name line attributes children IH] using XMLElement_ind'.
  intros e Hs. inversion Hs as [? ? HID Hname Hremap Hchildren]; subst.
  constructor; [exact HID|exact Hname|exact Hremap|].
  cbn [ChildElements erase_lines] in Hchildren |- *.
  revert Hchildren. generalize (ChildElements e) as cs. clear -IH.
  induction IH as [|c children Hc _ IHcs]; intros cs Hcs.
  - inversion Hcs; subst. constructor.
  - inversion Hcs as [|x ? xs ? Hx Hxs]; subst. constructor; [by apply Hc|by apply IHcs].
Qed.

Section WrittenDocument.
Context (env : Platform) (factory : BehaviorTreeFactory).

Lemma forallb_Name_erase_lines (n : string) children :
  forallb (λ child, bool_decide (Name child = n)) (map erase_lines children)
  = forallb (λ child, bool_decide (Name child = n)) children.
Proof.
  induction children as [|[? ? ? ?] children IH]; [done|]. cbn. by rewrite IH.
Qed.

Lemma verify_node_erase_lines roots node :
  verify_node factory roots (erase_lines node) = Ok tt →
  verify_node factory roots node = Ok tt.
Proof.
  destruct node as [name line attributes children].
  unfold verify_node, ThrowError, ChildrenCount, Attribute.
  cbn [erase_lines Name Attributes ChildElements GetLineNum].
  rewrite length_map forallb_Name_erase_lines.
  repeat (case_decide; [by repeat case_match|]).
  by repeat case_match.
Qed.

Lemma verify_recursiveStep_erase_lines roots node :
  verify_recursiveStep factory roots (erase_lines node) = Ok tt →
  verify_recursiveStep factory roots node = Ok tt.
Proof.
  induction node as [name line attributes children IH] using XMLElement_ind'.
  rewrite !verify_recursiveStep_eq.
  destruct (verify_node factory roots (erase_lines _)) as [[]|] eqn:E; [|done].
  rewrite (verify_node_erase_lines _ _ E). cbn [erase_lines Name ChildElements].
  case_decide; [done|]. rewrite !for_each_unit_Ok Forall_fmap.
  intros Hcs. rewrite ->Forall_forall in IH, Hcs |- *. naive_solver.
Qed.

(** The load of a document with the elements that the writer has built,
    on whatever lines. *)
Lemma loadFromText_written fuel (element : XMLElement) parsed :
  (∀ roots, verify_recursiveStep factory roots element = Ok tt) →
  erase_lines parsed
  = Element "root" 0 [] [Element "BehaviorTree" 0 [] [element]; model_root_of factory] →
  ∃ line element',
    erase_lines element' = element
    ∧ loadFromText env factory (S fuel) (Pimpl_init env) (Document (Some parsed))
      = Ok {| opened_documents := [Document (Some parsed)];
              tree_roots := {[ "BehaviorTree_0" := Element "BehaviorTree" line [] [element'] ]};
              current_path := getcwd env; suffix_count := 1 |}.
Proof.
  intros Hv. rewrite model_root_of_eq. set (models := map _ _).
  destruct parsed as [name line attributes cs]. cbn [erase_lines].
  intros [= -> -> Hcs].
  destruct cs as [|[bt_name bt_line bt_attributes bt_cs] [|[m_name m_line m_attributes m_cs] [|??]]];
    try done.
  cbn [map erase_lines] in Hcs. injection Hcs as -> -> Hbt -> -> _.
  destruct bt_cs as [|element' [|??]]; try done.
  cbn [map] in Hbt. injection Hbt as Helement.
  exists bt_line, element'. split; [done|].
  set (bt_root := Element "BehaviorTree" bt_line [] [element']).
  set (rootXML := Element "root" line [] [bt_root; Element "TreeNodesModel" m_line [] m_cs]).
  unfold loadFromText. cbn [loadDocImpl].
  change (ChildElementsNamed "include" rootXML) with (@nil XMLElement).
  cbn [for_each].
  change (register_trees (open_document (Pimpl_init env) (Document (Some rootXML))) rootXML)
    with {| opened_documents := [Document (Some rootXML)];
            tree_roots := map_insert_new "BehaviorTree_0" bt_root ∅;
            current_path := getcwd env; suffix_count := 1 |}.
  cbn [tree_roots].
  assert (verifyXML factory (map_insert_new "BehaviorTree_0" bt_root ∅)
            (Document (Some rootXML)) = Ok tt) as ->; [|done].
  unfold verifyXML.
  change (ChildElementsNamed "BehaviorTree" rootXML) with [bt_root].
  assert (verify_model rootXML = Ok tt) as -> by reflexivity.
  cbn [verify_trees bt_root ChildElements].
  rewrite verify_recursiveStep_erase_lines; [reflexivity|]. rewrite Helement. apply Hv.
Qed.
End WrittenDocument.




(** * Further properties of the code *)

(** ** The validator: the elements that it checks *)

Lemma for_each_unit_Err {A} (f : A → Result unit) l e :
  for_each (λ a _, f a) l tt = Err e
  ↔ ∃ l1 x l2, l = l1 ++ x :: l2 ∧ Forall (λ a, f a = Ok tt) l1 ∧ f x = Err e.
Proof.
  induction l as [|a l IH]; cbn [for_each].
  - split; [done|]. intros (l1 & x & l2 & H & _). by destruct l1.
  - destruct (f a) as [[]|e'] eqn:E.
    + rewrite IH. split.
      * intros (l1 & x & l2 & -> & Hl1 & Hx). exists (a :: l1), x, l2.
        split; [done|]. split; [by constructor|done].
      * intros (l1 & x & l2 & Hl & Hl1 & Hx). destruct l1 as [|b l1].
        -- injection Hl as <- <-. congruence.
        -- injection Hl as <- ->. apply Forall_cons in Hl1 as [_ Hl1]. by exists l1, x, l2.
    + split.
      * intros [= <-]. exists [], a, l. by repeat split.
      * intros (l1 & x & l2 & Hl & Hl1 & Hx). destruct l1 as [|b l1].
        -- injection Hl as <- <-. congruence.
        -- injection Hl as <- ->. apply Forall_cons in Hl1 as [Hb _]. congruence.
Qed.

Lemma verify_recursiveStep_checked factory roots node :
  verify_recursiveStep factory roots node
  = for_each (λ e _, verify_node factory roots e) (checked_elements node) tt.
Proof.
  induction node as [name line attributes children IH] using XMLElement_ind'.
  rewrite verify_recursiveStep_eq. cbn [checked_elements for_each Name ChildElements].
  destruct (verify_node factory roots _) as [[]|]; [|done].
  case_decide; [done|].
  induction IH as [|c cs Hc _ IHcs]; [done|].
  cbn [for_each flat_map]. rewrite for_each_app Hc.
  by destruct (for_each _ (checked_elements c) tt) as [[]|].
Qed.

(** X1. The validation of a tree body is the check of one element after
    the other, over the element and its descendants in the order of the
    document, the children of a <SubTree> left out: the body is accepted
    when every one of these elements passes the check of its own, and
    the error of a body that is rejected is the error of the first
    element that does not. *)
Theorem verifyXML_checks_in_document_order factory roots node :
  verify_recursiveStep factory roots node
  = for_each (λ e _, verify_node factory roots e) (checked_elements node) tt
  ∧ (verify_recursiveStep factory roots node = Ok tt
     ↔ Forall (λ e, verify_node factory roots e = Ok tt) (checked_elements node))
  ∧ (∀ err, verify_recursiveStep factory roots node = Err err
            ↔ ∃ before e after,
                checked_elements node = before ++ e :: after
                ∧ Forall (λ e, verify_node factory roots e = Ok tt) before
                ∧ verify_node factory roots e = Err err).
Proof.
  split; [apply verify_recursiveStep_checked|]. split.
  - rewrite verify_recursiveStep_checked. apply for_each_unit_Ok.
  - intros err. rewrite verify_recursiveStep_checked. apply for_each_unit_Err.
Qed.

(** ** The validator: the models of the nodes *)

Lemma ChildElementsNamed_app n name line attributes cs1 cs2 :
  ChildElementsNamed n (Element name line attributes (cs1 ++ cs2))
  = filter (λ c, Name c = n) cs1 ++ filter (λ c, Name c = n) cs2.
Proof. unfold ChildElementsNamed. cbn [ChildElements]. apply filter_app. Qed.

(** X2. The validator reads of the element <TreeNodesModel> its name and
    its line: the attributes and the children of the element, which are
    the models of the nodes, are not checked. Two documents that differ
    in them only get the same verdict. *)
Theorem verifyXML_ignores_the_models factory roots name line attributes cs1 cs2
        model_line model_attributes model_attributes' models models' :
  verifyXML factory roots
    (Document (Some (Element name line attributes
                       (cs1 ++ Element "TreeNodesModel" model_line model_attributes models
                            :: cs2))))
  = verifyXML factory roots
      (Document (Some (Element name line attributes
                         (cs1 ++ Element "TreeNodesModel" model_line model_attributes' models'
                              :: cs2)))).
Proof.
  set (M := Element "TreeNodesModel" model_line model_attributes models).
  set (M' := Element "TreeNodesModel" model_line model_attributes' models').
  unfold verifyXML. cbn [Name].
  destruct (negb (bool_decide (name = "root"))); [done|].
  assert (verify_model (Element name line attributes (cs1 ++ M :: cs2))
          = verify_model (Element name line attributes (cs1 ++ M' :: cs2))) as ->.
  { unfold verify_model. rewrite !ChildElementsNamed_app. cbn [ChildElements].
    rewrite !filter_cons. cbn [Name M M'].
    destruct (decide ("TreeNodesModel" = "TreeNodesModel")); [|done].
    set (loop := fix loop (l : list XMLElement) : Result unit := _).
    assert (loop (cs1 ++ M :: cs2) = loop (cs1 ++ M' :: cs2)) as Hloop.
    { induction cs1 as [|c cs1 IH]; cbn [app loop]; [done|]. by rewrite IH. }
    destruct (filter _ cs1) as [|x [|y f1]]; cbn [app].
    - by destruct (filter _ cs2).
    - done.
    - done. }
  destruct (verify_model _); [|done]. cbn beta iota.
  rewrite !ChildElementsNamed_app !filter_cons. cbn [Name M M'].
  by destruct (decide ("TreeNodesModel" = "BehaviorTree")).
Qed.

(** ** The loader: the documents of a parser *)

Lemma opened_documents_register_trees p xml_root :
  opened_documents (register_trees p xml_root) = opened_documents p.
Proof.
  unfold register_trees. generalize (ChildElementsNamed "BehaviorTree" xml_root) as l.
  intros l. revert p. induction l as [|bt l IH]; intros p; [done|].
  cbn [fold_left]. by rewrite IH.
Qed.

Lemma loadDocImpl_opened_documents env factory fuel p doc p' :
  loadDocImpl env factory fuel p doc = Ok p' →
  ∃ l, opened_documents p' = opened_documents p ++ l.
Proof.
  revert p doc p'. induction fuel as [|fuel IH]; intros p doc p'; [done|].
  cbn [loadDocImpl]. destruct doc as [|[xml_root|]]; [done| |done].
  destruct (for_each _ _ p) as [p1|] eqn:Hinc; [|done].
  destruct (verifyXML _ _ _); [|done]. intros [= <-].
  rewrite opened_documents_register_trees.
  eapply (for_each_invariant (λ q, ∃ l, opened_documents q = opened_documents p ++ l));
    [|exact Hinc|by exists []; rewrite app_nil_r].
  intros inc q1 q2 _. cbv beta.
  destruct (include_path _ _ _) as [file_path|]; [|done].
  intros [l2 Hl2]%IH [l1 Hl1]. cbn [open_document opened_documents] in Hl2.
  exists (l1 ++ LoadFile env (str file_path) :: l2).
  by rewrite Hl2 Hl1 -!app_assoc.
Qed.

(** X3. A load appends its document, and the documents that the document
    includes, to the documents of the parser, and leaves the documents
    that are there in their place. So the primary document, which
    [instantiateTree] reads the attribute main_tree_to_execute of, is the
    document of the first load: the main tree that it names stays the
    main tree, whatever is loaded after it. *)
Theorem loads_append_documents env factory fuel p p' :
  (∀ xml_text,
     loadFromText env factory fuel p xml_text = Ok p' →
     ∃ included, opened_documents p' = opened_documents p ++ xml_text :: included)
  ∧ (∀ filename,
       loadFromFile env factory fuel p filename = Ok p' →
       ∃ included,
         opened_documents p' = opened_documents p ++ LoadFile env filename :: included)
  ∧ (∀ xml_root rest main_tree,
       opened_documents p = Document (Some xml_root) :: rest →
       Attribute xml_root "main_tree_to_execute" = Some main_tree →
       (∃ xml_text, loadFromText env factory fuel p xml_text = Ok p')
       ∨ (∃ filename, loadFromFile env factory fuel p filename = Ok p') →
       main_tree_ID_of p' = Ok main_tree).
Proof.
  assert (∀ xml_text,
            loadFromText env factory fuel p xml_text = Ok p' →
            ∃ included, opened_documents p' = opened_documents p ++ xml_text :: included)
    as Htext.
  { intros xml_text [l Hl]%loadDocImpl_opened_documents. exists l.
    by rewrite Hl -app_assoc. }
  assert (∀ filename,
            loadFromFile env factory fuel p filename = Ok p' →
            ∃ included,
              opened_documents p' = opened_documents p ++ LoadFile env filename :: included)
    as Hfile.
  { intros filename [l Hl]%loadDocImpl_opened_documents. exists l.
    by rewrite Hl -app_assoc. }
  split; [done|]. split; [done|].
  intros xml_root rest main_tree Hp Hmain Hload.
  assert (∃ l, opened_documents p' = opened_documents p ++ l) as [l Hl].
  { destruct Hload as [[xml_text [l Hl]%Htext]|[filename [l Hl]%Hfile]]; eauto. }
  unfold main_tree_ID_of. by rewrite Hl Hp /= Hmain.
Qed.

Lemma loads_append_documents_witness :
  main_tree_ID_of (Examples.session_after (Examples.session_of Examples.doc_twice_A)
                     Examples.doc_main_B)
  = Ok "A".
Proof.
  destruct (loads_append_documents Examples.the_platform Examples.the_factory 1
              (Examples.session_of Examples.doc_twice_A)
              (Examples.session_after (Examples.session_of Examples.doc_twice_A)
                 Examples.doc_main_B)) as (_ & _ & H).
  apply (H (Element "root" 1 [("main_tree_to_execute", "A")]
              [Examples.first_A; Examples.second_A]) [] "A").
  - vm_compute. reflexivity.
  - reflexivity.
  - left. exists Examples.doc_main_B. vm_compute. reflexivity.
Defined.

(** ** The loader: the names of the trees *)

Lemma fold_register_tree_count l p :
  suffix_count (fold_left register_tree l p)
  = suffix_count p + length (filter (λ bt, Attribute bt "ID" = None) l).
Proof.
  revert p. induction l as [|b l IH]; intros p; [by rewrite /= Nat.add_0_r|].
  cbn [fold_left]. rewrite IH. cbn [register_tree suffix_count].
  destruct (Attribute b "ID") as [id|] eqn:E.
  - rewrite filter_cons_False //. by rewrite E.
  - rewrite filter_cons_True //=; lia.
Qed.

Lemma fold_register_tree_keys l p id :
  is_Some (tree_roots (fold_left register_tree l p) !! id)
  ↔ is_Some (tree_roots p !! id)
    ∨ (∃ bt, bt ∈ l ∧ Attribute bt "ID" = Some id)
    ∨ (∃ i, i < length (filter (λ bt, Attribute bt "ID" = None) l)
            ∧ id = "BehaviorTree_" +:+ pretty (suffix_count p + i)).
Proof.
  revert p. induction l as [|b l IH]; intros p.
  - cbn. split; [by left|]. intros [H|[(bt & []%elem_of_nil & _)|(i & Hi & _)]]; [done|lia].
  - cbn [fold_left]. rewrite IH register_tree_lookup.
    cbn [register_tree suffix_count]. unfold tree_name_of.
    destruct (Attribute b "ID") as [id0|] eqn:E.
    + rewrite filter_cons_False; [|by rewrite E]. split.
      * intros [H|[(bt & Hbt & Hid)|H]].
        -- destruct (tree_roots p !! id) as [e|]; [left; by eexists|].
           case_decide as Hd; [|by destruct H]. subst id0.
           right. left. exists b. split; [by left|done].
        -- right. left. exists bt. split; [by right|done].
        -- by right; right.
      * intros [[e He]|[(bt & Hbt & Hid)|H]].
        -- left. rewrite He. by eexists.
        -- apply elem_of_cons in Hbt as [->|Hbt].
           ++ left. rewrite E in Hid. injection Hid as ->.
              destruct (tree_roots p !! id); [by eexists|]. rewrite decide_True //.
           ++ right. left. by exists bt.
        -- by right; right.
    + rewrite filter_cons_True //. cbn [length]. split.
      * intros [H|[(bt & Hbt & Hid)|(i & Hi & ->)]].
        -- destruct (tree_roots p !! id) as [e|]; [left; by eexists|].
           case_decide as Hd; [|by destruct H]. subst id.
           right. right. exists 0. split; [lia|]. by rewrite Nat.add_0_r.
        -- right. left. exists bt. split; [by right|done].
        -- right. right. exists (S i). split; [lia|]. f_equal. f_equal. lia.
      * intros [[e He]|[(bt & Hbt & Hid)|(i & Hi & ->)]].
        -- left. rewrite He. by eexists.
        -- apply elem_of_cons in Hbt as [->|Hbt]; [congruence|].
           right. left. by exists bt.
        -- destruct i as [|i].
           ++ left. rewrite Nat.add_0_r.
              destruct (tree_roots p !! _); [by eexists|]. rewrite decide_True //.
           ++ right. right. exists i. split; [lia|]. f_equal. f_equal. lia.
Qed.

(** X4. The load of a document without <include> registers every tree
    of the document under its name and nothing else: a key of the index
    after the load is a key that was there, the ID of a tree of the
    document, or the name BehaviorTree_n that is generated for a tree
    without ID, where n counts the trees without ID that this parser has
    registered; and the counter has grown by the number of these trees. *)
Theorem trees_are_registered_by_name env factory fuel p xml_root p' :
  ChildElementsNamed "include" xml_root = [] →
  loadFromText env factory fuel p (Document (Some xml_root)) = Ok p' →
  suffix_count p'
  = suffix_count p
    + length (filter (λ bt, Attribute bt "ID" = None)
                (ChildElementsNamed "BehaviorTree" xml_root))
  ∧ ∀ id, is_Some (tree_roots p' !! id)
          ↔ is_Some (tree_roots p !! id)
            ∨ (∃ bt, bt ∈ ChildElementsNamed "BehaviorTree" xml_root
                     ∧ Attribute bt "ID" = Some id)
            ∨ (∃ i, i < length (filter (λ bt, Attribute bt "ID" = None)
                                  (ChildElementsNamed "BehaviorTree" xml_root))
                    ∧ id = "BehaviorTree_" +:+ pretty (suffix_count p + i)).
Proof.
  intros Hinc. unfold loadFromText. destruct fuel as [|fuel]; [done|].
  cbn [loadDocImpl]. rewrite Hinc. cbn [for_each].
  destruct (verifyXML _ _ _); [|done]. intros [= <-]. unfold register_trees.
  split; [by rewrite fold_register_tree_count|].
  intros id. by rewrite fold_register_tree_keys.
Qed.

Lemma trees_are_registered_by_name_witness :
  suffix_count (Examples.session_of (Document (Some Examples.root_anonymous))) = 2
  ∧ is_Some (tree_roots (Examples.session_of (Document (Some Examples.root_anonymous)))
               !! "BehaviorTree_1").
Proof.
  destruct (trees_are_registered_by_name Examples.the_platform Examples.the_factory 1
              (Pimpl_init Examples.the_platform) Examples.root_anonymous
              (Examples.session_of (Document (Some Examples.root_anonymous))))
    as [Hcount Hkeys]; [reflexivity|vm_compute; reflexivity|].
  split; [exact Hcount|]. apply Hkeys. right. right. exists 1. split; [|reflexivity].
  vm_compute. lia.
Defined.

(** ** The loader: the includes *)

Lemma for_each_Ok_elem {A S} (body : A → S → Result S) l s s' a :
  for_each body l s = Ok s' → a ∈ l → ∃ s1 s2, body a s1 = Ok s2.
Proof.
  revert s. induction l as [|b l IH]; intros s; [by intros _ ?%elem_of_nil|].
  cbn [for_each]. destruct (body b s) as [s1|] eqn:E; [|done].
  intros Hl [->|Hin]%elem_of_cons; [by eauto|]. by eapply IH.
Qed.

(** X5. In a library that is compiled without ROS, a document with an
    <include> that has the attribute ros_pkg is never loaded: the load
    fails, and when this <include> is the first one of the document and
    has a path, it fails with the error of the configuration before any
    file is opened. *)
Theorem include_of_a_package_without_ROS env factory p xml_root include_node :
  USING_ROS env = false →
  include_node ∈ ChildElementsNamed "include" xml_root →
  is_Some (Attribute include_node "ros_pkg") →
  (∀ fuel, ∃ e, loadDocImpl env factory fuel p (Document (Some xml_root)) = Err e)
  ∧ (∀ fuel rest,
       ChildElementsNamed "include" xml_root = include_node :: rest →
       is_Some (Attribute include_node "path") →
       loadDocImpl env factory (S fuel) p (Document (Some xml_root))
       = Err ConfigurationError).
Proof.
  intros HROS Hin [pkg Hpkg].
  assert (∀ current, ∃ e, include_path env current include_node = Err e
                          ∧ (is_Some (Attribute include_node "path") → e = ConfigurationError))
    as Hpath.
  { intros current. unfold include_path. rewrite Hpkg HROS.
    destruct (Attribute include_node "path"); [|by eexists; split; [|intros []]].
    by eexists. }
  split.
  - intros [|fuel]; [by eexists|]. cbn [loadDocImpl].
    destruct (for_each _ _ p) as [p1|e] eqn:Hinc; [|by eexists].
    destruct (for_each_Ok_elem _ _ _ _ _ Hinc Hin) as (s1 & s2 & Hbody).
    destruct (Hpath (current_path s1)) as (e & He & _). by rewrite He in Hbody.
  - intros fuel rest Hfirst Hp. cbn [loadDocImpl]. rewrite Hfirst. cbn [for_each].
    destruct (Hpath (current_path p)) as (e & -> & He). by rewrite (He Hp).
Qed.

Lemma include_of_a_package_without_ROS_witness :
  loadFromText Examples.the_platform Examples.the_factory 1
    (Pimpl_init Examples.the_platform) (Document (Some Examples.root_ros_pkg))
  = Err ConfigurationError.
Proof.
  destruct (include_of_a_package_without_ROS Examples.the_platform Examples.the_factory
              (open_document (Pimpl_init Examples.the_platform)
                 (Document (Some Examples.root_ros_pkg)))
              Examples.root_ros_pkg
              (Element "include" 2 [("path", "trees.xml"); ("ros_pkg", "my_pkg")] []))
    as [_ H].
  - reflexivity.
  - vm_compute. by left.
  - by eexists.
  - apply (H 0 []); [reflexivity|by eexists].
Defined.

(** X6. The loader does not notice a file that includes itself: when the
    first <include> of a document resolves to a file that holds the
    document, the load does not return, whatever the depth of recursion
    that it is given. The directory of the includes is the same at every
    depth, so the path resolves to the same file every time. *)
Theorem include_of_itself_never_returns env factory p xml_root include_node rest file_path :
  ChildElementsNamed "include" xml_root = include_node :: rest →
  include_path env (current_path p) include_node = Ok file_path →
  LoadFile env (str file_path) = Document (Some xml_root) →
  ∀ fuel, loadDocImpl env factory fuel p (Document (Some xml_root)) = Err OutOfFuel.
Proof.
  intros Hinc Hpath Hfile fuel.
  assert (∀ q, current_path q = current_path p →
               loadDocImpl env factory fuel q (Document (Some xml_root)) = Err OutOfFuel)
    as H; [|by apply H].
  induction fuel as [|fuel IH]; intros q Hq; [done|].
  cbn [loadDocImpl]. rewrite Hinc. cbn [for_each]. rewrite Hq Hpath Hfile.
  cbn beta iota zeta. by rewrite IH.
Qed.

Lemma include_of_itself_never_returns_witness :
  loadFromFile (Examples.platform_with Examples.loop_files) Examples.the_factory 1000
    (Pimpl_init (Examples.platform_with Examples.loop_files)) "/a/loop.xml"
  = Err OutOfFuel.
Proof.
  unfold loadFromFile.
  apply (include_of_itself_never_returns (Examples.platform_with Examples.loop_files)
           Examples.the_factory _ Examples.root_loop (Examples.include "/a/loop.xml") []
           (mkPath true ["a"; "loop.xml"])); reflexivity.
Defined.

(** ** The instantiator: the attributes of an element and the ports of its node *)

Lemma remapping_parameters_keys element k :
  is_Some (remapping_parameters_of element !! k)
  ↔ k ∈ (Attributes element).*1 ∧ k ≠ "ID" ∧ k ≠ "name".
Proof.
  unfold remapping_parameters_of.
  assert (∀ l (m : PortsRemapping),
            is_Some (fold_left (λ (m : PortsRemapping) (att : string * string),
                                  if bool_decide (att.1 ≠ "ID") && bool_decide (att.1 ≠ "name")
                                  then <[att.1 := att.2]> m else m) l m !! k)
            ↔ is_Some (m !! k) ∨ (k ∈ l.*1 ∧ k ≠ "ID" ∧ k ≠ "name")) as H.
  { induction l as [|[a w] l IH]; intros m.
    - cbn. split; [by left|]. by intros [?|[?%elem_of_nil _]].
    - cbn [fold_left fmap list_fmap fst snd]. rewrite IH. rewrite elem_of_cons.
      destruct (decide (a = "ID")) as [->|H1].
      { cbn. naive_solver. }
      destruct (decide (a = "name")) as [->|H2].
      { cbn. naive_solver. }
      rewrite !bool_decide_eq_true_2 //. cbn [andb].
      destruct (decide (k = a)) as [->|Hk].
      + rewrite lookup_insert_eq. naive_solver.
      + rewrite lookup_insert_ne //. naive_solver. }
  rewrite H lookup_empty. split; [by intros [[? ?]|?]|by right].
Qed.

Lemma check_remapping_names_typo manifest ID instance_name l k :
  k ∈ l.*1 → ports manifest !! k = None →
  ∃ typo, check_remapping_names manifest ID instance_name l
          = Err (thrown_with_buffer 1024 (typo_message typo ID instance_name)
                   (TypoError typo ID instance_name))
          ∧ typo ∈ l.*1 ∧ ports manifest !! typo = None.
Proof.
  induction l as [|[a w] l IH]; [by intros ?%elem_of_nil|].
  cbn [check_remapping_names fmap list_fmap fst]. intros Hin Hk.
  case_decide as Ha.
  - apply elem_of_cons in Hin as [->|Hin]; [rewrite Hk in Ha; by destruct Ha|].
    destruct (IH Hin Hk) as (typo & -> & Ht & Hp). exists typo. set_solver.
  - exists a. split; [done|]. split; [by left|]. by apply eq_None_not_Some.
Qed.

Lemma check_remapping_names_Err_inv manifest ID instance_name l e :
  check_remapping_names manifest ID instance_name l = Err e →
  ∃ typo, e = thrown_with_buffer 1024 (typo_message typo ID instance_name)
                (TypoError typo ID instance_name)
          ∧ typo ∈ l.*1 ∧ ports manifest !! typo = None.
Proof.
  induction l as [|[a w] l IH]; [done|]. cbn [check_remapping_names fmap list_fmap fst].
  case_decide as Ha.
  - intros (typo & -> & Ht & Hp)%IH. exists typo. set_solver.
  - intros [= <-]. exists a. split; [done|]. split; [by left|]. by apply eq_None_not_Some.
Qed.

Lemma init_port_types_not_typo env boards bb remap l e :
  init_port_types env boards bb remap l = Err e → ¬ is_TypoError e.
Proof.
  revert boards. induction l as [|port_it l IH]; intros boards; [done|].
  cbn [init_port_types]. destruct (init_port_type _ _ _ _ _) as [boards1|e1] eqn:E.
  - apply IH.
  - intros [= <-].
    apply init_port_type_Err, type_mismatch_thrown_cases in E as [->|(? & ? & ? & ->)];
      intros [].
Qed.



Lemma createNodeFromXML_config env factory roots element bb parent nds boards
      node nds' boards' ID manifest :
  element_ID element = Ok ID → ID ∈ builders factory →
  manifests factory !! ID = Some manifest →
  createNodeFromXML env factory roots element bb parent nds boards
  = Ok (node, nds', boards') →
  config node = config_of bb manifest (remapping_parameters_of element)
  ∧ check_remapping_names manifest ID (node_name node)
      (map_to_list (remapping_parameters_of element)) = Ok tt.
Proof.
  intros HID Hb Hm. unfold createNodeFromXML. rewrite HID.
  destruct (element_instance_name element ID) as [instance_name|]; [|done].
  cbn beta iota. destruct (decide (ID ∈ builders factory)); [|done]. rewrite Hm.
  destruct (check_remapping_names _ _ _ _) as [[]|] eqn:Hcheck; [|done].
  destruct (init_port_types _ _ _ _ _) as [boards1|]; [|done]. cbn beta iota.
  destruct (link_to_parent _ _ _) as [nds1|]; [|done]. by intros [= <- <- <-].
Qed.

(** X8. The node of a registered builder gets the blackboard of the
    closure and the attributes of its element as ports: an attribute
    other than ID and name is an input port of the node when the port of
    the manifest is not an output port, an output port when it is not an
    input port, with the value of the attribute; so every such attribute
    is a port of the node, one of an INOUT port is both, and the node has
    no other ports. *)
Theorem createNodeFromXML_ports env factory roots element bb parent nds boards
        node nds' boards' ID manifest :
  element_ID element = Ok ID → ID ∈ builders factory →
  manifests factory !! ID = Some manifest →
  createNodeFromXML env factory roots element bb parent nds boards
  = Ok (node, nds', boards') →
  blackboard (config node) = Some bb
  ∧ (∀ k, is_Some (remapping_parameters_of element !! k)
          ↔ k ∈ (Attributes element).*1 ∧ k ≠ "ID" ∧ k ≠ "name")
  ∧ (∀ k v, input_ports (config node) !! k = Some v
            ↔ remapping_parameters_of element !! k = Some v
              ∧ ∃ port, ports manifest !! k = Some port ∧ port_type port ≠ OUTPUT)
  ∧ (∀ k v, output_ports (config node) !! k = Some v
            ↔ remapping_parameters_of element !! k = Some v
              ∧ ∃ port, ports manifest !! k = Some port ∧ port_type port ≠ INPUT)
  ∧ (∀ k v, remapping_parameters_of element !! k = Some v →
            input_ports (config node) !! k = Some v
            ∨ output_ports (config node) !! k = Some v).
Proof.
  intros HID Hb Hm Hnode.
  destruct (createNodeFromXML_config _ _ _ _ _ _ _ _ _ _ _ _ _ HID Hb Hm Hnode)
    as [-> Hcheck].
  assert (∀ k v, remapping_parameters_of element !! k = Some v →
                 is_Some (ports manifest !! k)) as Hports.
  { intros k v Hk. eapply check_remapping_names_Ok; [exact Hcheck|].
    by apply elem_of_map_to_list. }
  split; [apply (config_of_lookup bb manifest (remapping_parameters_of element) "")|].
  split; [apply remapping_parameters_keys|].
  split; [|split].
  - intros k v.
    destruct (config_of_lookup bb manifest (remapping_parameters_of element) k)
      as (_ & -> & _).
    destruct (remapping_parameters_of element !! k) as [w|]; cbn; [|naive_solver].
    destruct (ports manifest !! k) as [port|]; cbn; [|naive_solver].
    case_bool_decide; naive_solver.
  - intros k v.
    destruct (config_of_lookup bb manifest (remapping_parameters_of element) k)
      as (_ & _ & ->).
    destruct (remapping_parameters_of element !! k) as [w|]; cbn; [|naive_solver].
    destruct (ports manifest !! k) as [port|]; cbn; [|naive_solver].
    case_bool_decide; naive_solver.
  - intros k v Hk.
    destruct (config_of_lookup bb manifest (remapping_parameters_of element) k)
      as (_ & -> & ->).
    destruct (Hports k v Hk) as [port Hport]. rewrite Hk Hport /=.
    destruct (port_type port); cbn; auto.
Qed.

Lemma createNodeFromXML_ports_witness :
  ∃ node nds' boards',
    createNodeFromXML Examples.the_platform Examples.the_factory ∅ Examples.node_Move
      0 None [] [Examples.root_board] = Ok (node, nds', boards')
    ∧ input_ports (config node) !! "pose" = Some "{p}"
    ∧ output_ports (config node) !! "pose" = Some "{p}"
    ∧ input_ports (config node) !! "result" = None.
Proof.
  eexists _, _, _. split; [vm_compute; reflexivity|].
  match goal with
  | |- context [config ?n] =>
      destruct (createNodeFromXML_ports Examples.the_platform Examples.the_factory ∅
                  Examples.node_Move 0 None [] [Examples.root_board] n [] [Examples.root_board]
                  "Move" Examples.manifest_Move)
        as (_ & _ & Hin & Hout & _)
  end.
  - reflexivity.
  - refine (bool_decide_unpack _ _). vm_compute. exact I.
  - vm_compute. reflexivity.
  - vm_compute. reflexivity.
  - split; [|split].
    + apply Hin. split; [vm_compute; reflexivity|].
      eexists. split; [vm_compute; reflexivity|done].
    + apply Hout. split; [vm_compute; reflexivity|].
      eexists. split; [vm_compute; reflexivity|done].
    + vm_compute. reflexivity.
Defined.

(** ** The tree: its root blackboard *)

Lemma recursiveStep_stack_grows env factory roots fuel bb parent element st st' :
  recursiveStep env factory roots fuel bb parent element st = Ok st' →
  ∃ new_stack,
    blackboard_stack (output_tree st') = blackboard_stack (output_tree st) ++ new_stack.
Proof.
  intros Hrec.
  apply (recursiveStep_rule env factory roots (λ _ _ _, True)
           (λ st st', ∃ new_stack,
              blackboard_stack (output_tree st')
              = blackboard_stack (output_tree st) ++ new_stack)) in Hrec; [done| | |done| | |done].
  - intros st0. exists []. by rewrite app_nil_r.
  - intros st1 st2 st3 [l1 H1] [l2 H2]. exists (l1 ++ l2). by rewrite H2 H1 app_assoc.
  - intros element0 bb0 parent0 st0 node self st0' _ Hadd. split; [|done].
    unfold add_node in Hadd.
    destruct (createNodeFromXML _ _ _ _ _ _ _ _) as [[[node1 nds1] boards1]|]; [|done].
    injection Hadd as <- <- <-. exists []. by rewrite app_nil_r.
  - intros element0 bb0 parent0 st0 new_bb st0' _
      (? & ? & ? & _ & _ & Hstack & _)%push_subtree_blackboard_inv.
    split; [|done]. by exists [new_bb].
Qed.

(** X9. [rootBlackboard] of a tree that [instantiateTree] returns is the
    blackboard that [instantiateTree] was given, which is not null: the
    blackboards of the subtrees are put behind it in the stack. A new
    tree has no root blackboard. *)
Theorem rootBlackboard_of_instantiated_tree env factory fuel p boards root_blackboard b :
  instantiateTree env factory fuel p boards root_blackboard = Ok b →
  rootBlackboard (output_tree b) = root_blackboard
  ∧ is_Some root_blackboard
  ∧ rootBlackboard Tree_new = None.
Proof.
  intros (main_tree_ID & root_element & root_bb & st' & -> & _ & _ & Hrec
          & _ & Hstack & _)%instantiateTree_inv.
  apply recursiveStep_stack_grows in Hrec as [new_stack Hnew].
  unfold rootBlackboard. by rewrite Hstack Hnew.
Qed.

Lemma rootBlackboard_of_instantiated_tree_witness :
  ∃ b, instantiateTree Examples.the_platform Examples.the_factory 4
         (Examples.session_of Examples.doc_S6) [Examples.root_board] (Some 0) = Ok b
       ∧ length (blackboard_stack (output_tree b)) = 2
       ∧ rootBlackboard (output_tree b) = Some 0.
Proof.
  eexists. split; [vm_compute; reflexivity|]. split; [vm_compute; reflexivity|].
  match goal with
  | |- context [output_tree ?b] =>
      apply (rootBlackboard_of_instantiated_tree Examples.the_platform Examples.the_factory 4
               (Examples.session_of Examples.doc_S6) [Examples.root_board] (Some 0) b)
  end.
  vm_compute. reflexivity.
Defined.

(** ** The instantiator: the shape of the nodes *)

Lemma link_to_parent_kinds nds parent child nds' :
  link_to_parent nds parent child = Ok nds' →
  length nds' = length nds
  ∧ ∀ i n', nds' !! i = Some n' →
            ∃ n, nds !! i = Some n ∧ node_type n' = node_type n
                 ∧ (node_children n' = node_children n
                    ∨ (parent = Some i ∧ node_children n' = node_children n ++ [child]
                       ∧ node_type n ≠ ACTION ∧ node_type n ≠ CONDITION)).
Proof.
  unfold link_to_parent. destruct parent as [p|]; [|intros [= <-]; by eauto 10].
  destruct (nds !! p) as [pa|] eqn:Hp; [|done].
  assert (∀ pa', node_type pa' = node_type pa →
                 node_children pa' = node_children pa ++ [child] →
                 node_type pa ≠ ACTION → node_type pa ≠ CONDITION →
                 length (<[p := pa']> nds) = length nds
                 ∧ ∀ i n', <[p := pa']> nds !! i = Some n' →
                     ∃ n, nds !! i = Some n ∧ node_type n' = node_type n
                          ∧ (node_children n' = node_children n
                             ∨ (Some p = Some i
                                ∧ node_children n' = node_children n ++ [child]
                                ∧ node_type n ≠ ACTION ∧ node_type n ≠ CONDITION))) as Hins.
  { intros pa' Ht Hc H1 H2. split; [by rewrite length_insert|]. intros i n'.
    destruct (decide (i = p)) as [->|Hne].
    - rewrite list_lookup_insert_eq; [|by eapply lookup_lt_Some].
      intros [= <-]. exists pa. eauto 10.
    - rewrite list_lookup_insert_ne //. intros Hi. exists n'. eauto. }
  unfold is_ControlNode, is_DecoratorNode.
  destruct (decide (node_type pa = CONTROL)) as [Hc|Hc].
  - rewrite (bool_decide_eq_true_2 _ Hc) !bool_decide_eq_false_2; [|congruence..].
    cbn [orb]. intros [= <-]. apply Hins; [done|done|congruence..].
  - rewrite (bool_decide_eq_false_2 _ Hc).
    destruct (bool_decide (node_type pa = DECORATOR) || bool_decide (node_type pa = SUBTREE))
      eqn:Hd.
    + unfold setChild. destruct (node_children pa) eqn:Hch; [|done]. cbn beta iota.
      intros [= <-]. apply orb_prop in Hd.
      apply Hins; [done|done|..];
        destruct Hd as [Hd%bool_decide_eq_true_1|Hd%bool_decide_eq_true_1]; congruence.
    + intros [= <-]. by eauto 10.
Qed.

Lemma add_node_shape env factory roots element bb parent st node self st' :
  add_node env factory roots element bb parent st = Ok (node, self, st') →
  wf_nodes (nodes (output_tree st)) ∧ leaves_childless (nodes (output_tree st))
  ∧ single_parent (nodes (output_tree st)) →
  wf_nodes (nodes (output_tree st')) ∧ leaves_childless (nodes (output_tree st'))
  ∧ single_parent (nodes (output_tree st')).
Proof.
  intros Hadd (Hwf & Hleaf & Hsingle).
  destruct (add_node_nodes _ _ _ _ _ _ _ _ _ _ Hadd) as (Hwf' & _).
  apply add_node_inv in Hadd as (nds1 & Hlink & -> & Hnodes & Hch & _).
  destruct (link_to_parent_kinds _ _ _ _ Hlink) as [Hlen Hold].
  assert (∀ i n', (nds1 ++ [node]) !! i = Some n' →
                  node_children n' = []
                  ∨ ∃ n, nodes (output_tree st) !! i = Some n
                         ∧ node_type n' = node_type n
                         ∧ (node_children n' = node_children n
                            ∨ (parent = Some i
                               ∧ node_children n'
                                 = node_children n ++ [length (nodes (output_tree st))]
                               ∧ node_type n ≠ ACTION ∧ node_type n ≠ CONDITION))) as Hcases.
  { intros i n' Hi. destruct (decide (i < length nds1)) as [Hlt|Hge].
    - rewrite lookup_app_l // in Hi. right. by apply Hold.
    - rewrite lookup_app_r in Hi; [|lia].
      destruct (i - length nds1) as [|?]; [|done]. injection Hi as <-. by left. }
  split; [by apply Hwf'|]. rewrite Hnodes. split.
  - intros i n' Hi Htype.
    destruct (Hcases i n' Hi) as [H|(n & Hn & Ht & [Hc|(_ & _ & H1 & H2)])]; [done| |].
    + rewrite Hc. apply (Hleaf i n Hn). by rewrite -Ht.
    + rewrite Ht in Htype. by destruct Htype.
  - intros i j n' m' c Hi Hj Hcn Hcm.
    destruct (Hcases i n' Hi) as [H|(n & Hn & _ & Hn')];
      [rewrite H in Hcn; by apply elem_of_nil in Hcn|].
    destruct (Hcases j m' Hj) as [H|(m & Hm & _ & Hm')];
      [rewrite H in Hcm; by apply elem_of_nil in Hcm|].
    assert (∀ k x, nodes (output_tree st) !! k = Some x →
                   length (nodes (output_tree st)) ∉ node_children x) as Hnew.
    { intros k x Hx Hin. destruct (Hwf k x Hx) as [Hb _].
      rewrite ->Forall_forall in Hb. apply Hb in Hin. lia. }
    destruct Hn' as [Hn'|(Hpi & Hn' & _)], Hm' as [Hm'|(Hpj & Hm' & _)];
      rewrite Hn' in Hcn; rewrite Hm' in Hcm.
    + by eapply Hsingle.
    + apply elem_of_app in Hcm as [Hcm|Hcm%list_elem_of_singleton]; [by eapply Hsingle|].
      subst c. destruct (Hnew _ _ Hn Hcn).
    + apply elem_of_app in Hcn as [Hcn|Hcn%list_elem_of_singleton]; [by eapply Hsingle|].
      subst c. destruct (Hnew _ _ Hm Hcm).
    + congruence.
Qed.

Lemma recursiveStep_shape env factory roots fuel bb parent element st st' :
  recursiveStep env factory roots fuel bb parent element st = Ok st' →
  wf_nodes (nodes (output_tree st)) ∧ leaves_childless (nodes (output_tree st))
  ∧ single_parent (nodes (output_tree st)) →
  wf_nodes (nodes (output_tree st')) ∧ leaves_childless (nodes (output_tree st'))
  ∧ single_parent (nodes (output_tree st')).
Proof.
  intros Hrec.
  eapply (recursiveStep_rule env factory roots (λ _ _ _, True)
            (λ st st',
               wf_nodes (nodes (output_tree st)) ∧ leaves_childless (nodes (output_tree st))
               ∧ single_parent (nodes (output_tree st)) →
               wf_nodes (nodes (output_tree st')) ∧ leaves_childless (nodes (output_tree st'))
               ∧ single_parent (nodes (output_tree st'))));
    [done|by auto|done| | |exact Hrec|done].
  - intros element0 bb0 parent0 st0 node self st0' _ Hadd. split; [|done].
    by eapply add_node_shape.
  - intros element0 bb0 parent0 st0 new_bb st0' _
      (? & ? & ? & _ & _ & _ & Hn & _)%push_subtree_blackboard_inv.
    split; [|done]. by rewrite Hn.
Qed.

(** X10. The nodes of a tree that [instantiateTree] returns are linked as
    a forest: no node is a child of two nodes, no node is twice a child
    of a node, the root is the child of no node, and the nodes of kind
    Action and Condition have no children, whatever children their
    elements have in the document: a node is attached to the node of the
    parent element only when that node is a control node or a
    decorator. *)
Theorem instantiated_nodes_form_a_forest env factory fuel p boards root_blackboard b :
  instantiateTree env factory fuel p boards root_blackboard = Ok b →
  single_parent (nodes (output_tree b))
  ∧ leaves_childless (nodes (output_tree b))
  ∧ ∀ i n, nodes (output_tree b) !! i = Some n →
           NoDup (node_children n) ∧ (0 ∉ node_children n).
Proof.
  intros (main_tree_ID & root_element & root_bb & st' & -> & _ & _ & Hrec
          & Hnodes & _)%instantiateTree_inv.
  apply recursiveStep_shape in Hrec as (Hwf & Hleaf & Hsingle).
  - rewrite Hnodes. split; [done|]. split; [done|]. intros i n Hn.
    destruct (Hwf i n Hn) as [Hbound Hsorted]. split.
    + apply NoDup_alt. intros j k c Hj Hk.
      destruct (Nat.lt_trichotomy j k) as [Hlt|[->|Hlt]]; [|done|].
      * pose proof (Hsorted j k c c Hlt Hj Hk). lia.
      * pose proof (Hsorted k j c c Hlt Hk Hj). lia.
    + intros Hin. rewrite ->Forall_forall in Hbound. apply Hbound in Hin. lia.
  - cbn. split; [|split].
    + intros i n Hi. by rewrite lookup_nil in Hi.
    + intros i n Hi. by rewrite lookup_nil in Hi.
    + intros i j n m c Hi. by rewrite lookup_nil in Hi.
Qed.

Lemma instantiated_nodes_form_a_forest_witness :
  ∃ b, instantiateTree Examples.the_platform Examples.the_factory 4
         (Examples.session_of Examples.doc_child_of_action) [Examples.root_board] (Some 0)
       = Ok b
       ∧ node_summary <$> nodes (output_tree b)
         = [(Some ACTION, Some "Ping"); (Some ACTION, Some "below")]
       ∧ leaves_childless (nodes (output_tree b))
       ∧ single_parent (nodes (output_tree b)).
Proof.
  eexists. split; [vm_compute; reflexivity|]. split; [vm_compute; reflexivity|].
  match goal with
  | |- context [output_tree ?b] =>
      destruct (instantiated_nodes_form_a_forest Examples.the_platform Examples.the_factory 4
                  (Examples.session_of Examples.doc_child_of_action) [Examples.root_board]
                  (Some 0) b) as (Hsingle & Hleaf & _)
  end.
  - vm_compute. reflexivity.
  - split; [exact Hleaf|exact Hsingle].
Defined.

(** ** The instantiator: the main tree of documents that were accepted *)

Lemma loadDocImpl_verifies env factory fuel q xml_root p' :
  loadDocImpl env factory fuel q (Document (Some xml_root)) = Ok p' →
  ∀ main_tree, Attribute xml_root "main_tree_to_execute" = Some main_tree →
               is_Some (tree_roots p' !! main_tree).
Proof.
  destruct fuel as [|fuel]; [done|]. cbn [loadDocImpl].
  destruct (for_each _ _ q) as [p1|]; [|done].
  destruct (verifyXML _ _ _) as [[]|] eqn:Hverify; [|done]. intros [= <-] main_tree Hmain.
  apply register_trees_IDs. unfold verifyXML in Hverify.
  destruct (negb _); [done|]. destruct (verify_model _); [|done].
  destruct (verify_trees _ _ _ _ _) as [[names count]|] eqn:Htrees; [|done].
  apply verify_trees_result in Htrees as [= -> ->].
  unfold verify_main_tree in Hverify. rewrite Hmain in Hverify.
  case_bool_decide as Hin; [|done]. exact Hin.
Qed.

Lemma accepted_main_tree env factory p0 :
  accepted env factory p0 →
  ∀ xml_root rest main_tree,
    opened_documents p0 = Document (Some xml_root) :: rest →
    Attribute xml_root "main_tree_to_execute" = Some main_tree →
    is_Some (tree_roots p0 !! main_tree).
Proof.
  assert (∀ fuel p doc p' q,
            (∀ xml_root rest main_tree,
               opened_documents p = Document (Some xml_root) :: rest →
               Attribute xml_root "main_tree_to_execute" = Some main_tree →
               is_Some (tree_roots p !! main_tree)) →
            tree_roots q = tree_roots p →
            opened_documents q = opened_documents p ++ [doc] →
            loadDocImpl env factory fuel q doc = Ok p' →
            ∀ xml_root rest main_tree,
              opened_documents p' = Document (Some xml_root) :: rest →
              Attribute xml_root "main_tree_to_execute" = Some main_tree →
              is_Some (tree_roots p' !! main_tree)) as Hstep.
  { intros fuel p doc p' q IH Hroots Hdocs Hload xml_root rest main_tree Hp' Hmain.
    destruct (loadDocImpl_opened_documents _ _ _ _ _ _ Hload) as [l Hl].
    rewrite Hdocs in Hl. destruct (opened_documents p) as [|d ds] eqn:Hp.
    - rewrite Hl in Hp'. injection Hp' as -> _.
      by eapply loadDocImpl_verifies.
    - rewrite Hl in Hp'. injection Hp' as -> _.
      destruct (IH xml_root ds main_tree eq_refl Hmain) as [e He].
      exists e. eapply loadDocImpl_retains; [exact Hload|]. by rewrite Hroots. }
  induction 1 as [|fuel p xml_text p' _ IH Hload|fuel p filename p' _ IH Hload].
  - by intros xml_root rest main_tree.
  - exact (Hstep fuel p xml_text p' (open_document p xml_text) IH eq_refl eq_refl Hload).
  - exact (Hstep fuel p (LoadFile env filename) p'
             (set_current_path (open_document p (LoadFile env filename))
                (make_absolute env (parent_path (path_of_string filename))))
             IH eq_refl eq_refl Hload).
Qed.

(** X11. After loads that have all returned without an error,
    [instantiateTree] finds the tree that it starts from: the ID of the
    main tree, when it is determined, is a key of the index of the trees,
    the tree has exactly one child, and the validator has accepted this
    child. The look-up of the root element does not give a null pointer. *)
Theorem main_tree_is_registered env factory p main_tree_ID :
  accepted env factory p →
  main_tree_ID_of p = Ok main_tree_ID →
  ∃ bt root_element,
    tree_roots p !! main_tree_ID = Some bt
    ∧ ChildElements bt = [root_element]
    ∧ tree_root_element (tree_roots p) main_tree_ID = Ok root_element
    ∧ verify_recursiveStep factory (tree_roots p) root_element = Ok tt.
Proof.
  intros Hacc Hmain.
  assert (is_Some (tree_roots p !! main_tree_ID)) as [bt Hbt].
  { unfold main_tree_ID_of in Hmain.
    destruct (opened_documents p) as [|[|[xml_root|]] rest] eqn:Hdocs; try done.
    destruct (Attribute xml_root "main_tree_to_execute") as [main_tree|] eqn:Hattr.
    - injection Hmain as <-. by eapply accepted_main_tree.
    - destruct (map_to_list (tree_roots p)) as [|[tree_ID e] [|??]] eqn:Hl; try done.
      injection Hmain as <-. exists e. apply elem_of_map_to_list. rewrite Hl. by left. }
  destruct (accepted_verified env factory p Hacc main_tree_ID bt Hbt) as (body & Hc & Hv).
  exists bt, body. unfold tree_root_element. by rewrite Hbt Hc.
Qed.

Lemma main_tree_is_registered_witness :
  ∃ bt root_element,
    tree_roots (Examples.session_of Examples.doc_S6) !! "Outer" = Some bt
    ∧ ChildElements bt = [root_element]
    ∧ tree_root_element (tree_roots (Examples.session_of Examples.doc_S6)) "Outer"
      = Ok root_element
    ∧ verify_recursiveStep Examples.the_factory
        (tree_roots (Examples.session_of Examples.doc_S6)) root_element = Ok tt.
Proof.
  apply (main_tree_is_registered Examples.the_platform Examples.the_factory
           (Examples.session_of Examples.doc_S6) "Outer").
  - apply (session_of_accepted Examples.doc_S6). vm_compute. reflexivity.
  - vm_compute. reflexivity.
Defined.

(** ** The writer: the walk over the nodes *)

Lemma for_each_succeeds {A S} (body : A → S → Result S) l s :
  (∀ a s1, a ∈ l → ∃ s2, body a s1 = Ok s2) → ∃ s', for_each body l s = Ok s'.
Proof.
  revert s. induction l as [|a l IH]; intros s Hbody; [by eexists|].
  cbn [for_each]. destruct (Hbody a s) as [s1 ->]; [by left|].
  apply IH. intros b s2 Hb. apply Hbody. by right.
Qed.

Lemma recursiveVisitor_succeeds factory compact nds :
  wf_nodes nds →
  (∀ i n, nds !! i = Some n → is_ControlNode n = false → is_DecoratorNode n = true →
          node_children n ≠ []) →
  ∀ fuel i, i < length nds → length nds - i ≤ fuel →
            ∃ element, recursiveVisitor factory compact nds fuel (Some i) = Ok element.
Proof.
  intros Hwf Hdec. induction fuel as [|fuel IH]; intros i Hi Hfuel; [lia|].
  cbn [recursiveVisitor mbind option_bind].
  destruct (lookup_lt_is_Some_2 _ _ Hi) as [n Hn]. rewrite Hn.
  destruct (Hwf i n Hn) as [Hbound _]. rewrite ->Forall_forall in Hbound.
  destruct (is_ControlNode n) eqn:Hc.
  - apply for_each_succeeds. intros c element Hin.
    destruct (IH c) as [e ->]; [apply Hbound in Hin; lia..|]. by eexists.
  - destruct (is_DecoratorNode n) eqn:Hd; [|by eexists].
    pose proof (Hdec i n Hn Hc Hd) as Hne. unfold decorator_child.
    destruct (node_children n) as [|c cs]; [done|]. cbn [head].
    assert (i < c < length nds) as Hc' by (apply Hbound; by left).
    destruct (IH c) as [e ->]; [lia..|]. by eexists.
Qed.

Lemma instantiateTree_wf_nodes env factory fuel p boards root_blackboard b :
  instantiateTree env factory fuel p boards root_blackboard = Ok b →
  wf_nodes (nodes (output_tree b)).
Proof.
  intros (main_tree_ID & root_element & root_bb & st' & -> & _ & _ & Hrec
          & -> & _)%instantiateTree_inv.
  destruct (recursiveStep_nodes _ _ _ _ _ _ _ _ _ Hrec) as (Hwf & _).
  apply Hwf. intros i n Hi. by rewrite lookup_nil in Hi.
Qed.

(** X12. [writeXML] returns the text of a document for every node of
    nodes that are linked from parents to later nodes, as the nodes of an
    instantiated tree are, when every decorator among them has its child;
    the depth of its recursion is at most the number of the nodes from
    the root node on. A decorator without child at the root makes it
    follow a null pointer. *)
Theorem writeXML_walks_the_nodes env factory compact nds root :
  (wf_nodes nds →
   (∀ i n, nds !! i = Some n → is_ControlNode n = false → is_DecoratorNode n = true →
           node_children n ≠ []) →
   root < length nds →
   ∀ fuel, length nds - root ≤ fuel →
           ∃ doc, writeXML_doc factory compact nds fuel (Some root) = Ok doc
                  ∧ writeXML env factory compact nds fuel (Some root)
                    = Ok (Print env doc))
  ∧ (∀ n, nds !! root = Some n →
          is_ControlNode n = false → is_DecoratorNode n = true → node_children n = [] →
          ∀ fuel, writeXML_doc factory compact nds (S (S fuel)) (Some root)
                  = Err NullDereference
                  ∧ writeXML env factory compact nds (S (S fuel)) (Some root)
                    = Err NullDereference).
Proof.
  split.
  - intros Hwf Hdec Hroot fuel Hfuel. unfold writeXML, writeXML_doc.
    destruct (recursiveVisitor_succeeds factory compact nds Hwf Hdec fuel root Hroot Hfuel)
      as [element ->]. by eexists.
  - intros n Hn Hc Hd Hch fuel. unfold writeXML, writeXML_doc.
    cbn [recursiveVisitor mbind option_bind]. rewrite Hn Hc Hd.
    unfold decorator_child. by rewrite Hch.
Qed.

Lemma writeXML_walks_the_nodes_witness :
  (∃ b,
     instantiateTree Examples.the_platform Examples.the_factory 4
       (Examples.session_of Examples.doc_S6) [Examples.root_board] (Some 0) = Ok b
     ∧ ∃ doc, writeXML_doc Examples.the_factory false (nodes (output_tree b)) 5 (Some 0)
              = Ok doc
              ∧ writeXML Examples.the_platform Examples.the_factory false
                  (nodes (output_tree b)) 5 (Some 0)
                = Ok (Examples.print_xml doc))
  ∧ (∃ b,
       instantiateTree Examples.the_platform Examples.the_factory 4
         (Examples.session_of Examples.doc_decorator_alone) [Examples.root_board] (Some 0)
       = Ok b
       ∧ writeXML_doc Examples.the_factory false (nodes (output_tree b)) 2 (Some 0)
         = Err NullDereference
       ∧ writeXML Examples.the_platform Examples.the_factory false
           (nodes (output_tree b)) 2 (Some 0)
         = Err NullDereference).
Proof.
  split.
  - eexists. split; [vm_compute; reflexivity|].
    match goal with
    | |- context [output_tree ?b] =>
        destruct (writeXML_walks_the_nodes Examples.the_platform Examples.the_factory
                    false (nodes (output_tree b)) 0) as [H _];
        pose proof (instantiateTree_wf_nodes Examples.the_platform Examples.the_factory 4
                      (Examples.session_of Examples.doc_S6) [Examples.root_board] (Some 0) b)
          as Hwf
    end.
    apply H.
    + apply Hwf. vm_compute. reflexivity.
    + intros i n Hi Hc Hd.
      repeat (destruct i as [|i]; [injection Hi as <-; by vm_compute in Hc, Hd|]). done.
    + cbn. lia.
    + cbn. lia.
  - eexists. split; [vm_compute; reflexivity|].
    match goal with
    | |- context [output_tree ?b] =>
        destruct (writeXML_walks_the_nodes Examples.the_platform Examples.the_factory
                    false (nodes (output_tree b)) 0) as [_ H]
    end.
    eapply (H _ eq_refl); reflexivity.
Defined.

(** ** The writer: the attributes of an element *)

Lemma find_attribute_is_Some k (l : list (string * string)) :
  is_Some (find_attribute k l) ↔ k ∈ l.*1.
Proof.
  induction l as [|[a w] l IH]; cbn [find_attribute fmap list_fmap fst].
  - split; [by intros [? ?]|by intros ?%elem_of_nil].
  - rewrite elem_of_cons. case_decide as Ha; [naive_solver|]. rewrite IH. naive_solver.
Qed.

(** X13. The element that the writer makes of a node has the name that
    is chosen for the node, no child yet, and attributes of different
    names: every input port of the node is an attribute with the value
    of the port, every output port that is not an input port as well,
    and the other attributes can only be ID and name. *)
Theorem element_of_node_attributes factory compact node :
  Name (element_of_node factory compact node) = element_name_of factory compact node
  ∧ ChildElements (element_of_node factory compact node) = []
  ∧ NoDup (Attributes (element_of_node factory compact node)).*1
  ∧ (∀ k v, input_ports (config node) !! k = Some v →
            Attribute (element_of_node factory compact node) k = Some v)
  ∧ (∀ k v, input_ports (config node) !! k = None →
            output_ports (config node) !! k = Some v →
            Attribute (element_of_node factory compact node) k = Some v)
  ∧ (∀ k, k ∈ (Attributes (element_of_node factory compact node)).*1 →
          k = "ID" ∨ k = "name"
          ∨ is_Some (input_ports (config node) !! k)
          ∨ is_Some (output_ports (config node) !! k)).
Proof.
  rewrite element_of_node_eq. cbn [Name ChildElements Attributes].
  split; [done|]. split; [done|]. split; [apply node_attributes_NoDup|].
  assert (∀ k, find_attribute k (node_attributes factory compact node)
               = match input_ports (config node) !! k with
                 | Some v => Some v
                 | None =>
                     match output_ports (config node) !! k with
                     | Some v => Some v
                     | None => find_attribute k (base_attributes factory compact node)
                     end
                 end) as Hfind.
  { intros k. unfold node_attributes. rewrite !find_attribute_set_attributes.
    destruct (input_ports (config node) !! k) as [v|] eqn:Hk.
    - by rewrite bool_decide_eq_true_2.
    - rewrite bool_decide_eq_false_2; [|by intros [? ?]].
      by destruct (output_ports (config node) !! k). }
  unfold Attribute. cbn [Attributes]. split; [|split].
  - intros k v Hk. by rewrite Hfind Hk.
  - intros k v Hin Hout. by rewrite Hfind Hin Hout.
  - intros k Hk%find_attribute_is_Some. rewrite Hfind in Hk.
    destruct (input_ports (config node) !! k); [by eauto|].
    destruct (output_ports (config node) !! k); [by eauto|].
    rewrite find_base_attributes in Hk.
    destruct (decide (k = "name")); [by auto|]. destruct (decide (k = "ID")); [by auto|].
    by destruct Hk.
Qed.

Lemma element_of_node_attributes_witness :
  Attribute (element_of_node Examples.the_factory false Examples.node_with_ports) "pose"
  = Some "{p}"
  ∧ Attribute (element_of_node Examples.the_factory false Examples.node_with_ports) "result"
    = Some "{r}".
Proof.
  destruct (element_of_node_attributes Examples.the_factory false Examples.node_with_ports)
    as (_ & _ & _ & Hin & Hout & _).
  split; [apply Hin|apply Hout]; vm_compute; reflexivity.
Defined.

(** ** The instantiator: the <remap> children of a subtree *)

Lemma add_remappings_succeeds boards new_bb l :
  Forall (λ remap_el, is_Some (Attribute remap_el "internal")
                      ∧ is_Some (Attribute remap_el "external")) l
  ↔ ∃ boards', add_remappings boards new_bb l = Ok boards'.
Proof.
  revert boards. induction l as [|remap_el l IH]; intros boards; cbn [add_remappings].
  - split; [by eexists|constructor].
  - rewrite Forall_cons.
    destruct (Attribute remap_el "internal") as [internal|];
      [|split; [by intros [[[? ?] _] _]|by intros [? ?]]].
    destruct (Attribute remap_el "external") as [external|];
      [|split; [by intros [[_ [? ?]] _]|by intros [? ?]]].
    rewrite IH. split; [by intros [_ ?]|by split].
Qed.

Lemma add_remappings_Err boards new_bb l e :
  add_remappings boards new_bb l = Err e → e = NullDereference.
Proof.
  revert boards. induction l as [|remap_el l IH]; intros boards; cbn [add_remappings]; [done|].
  destruct (Attribute remap_el "internal"); [|by intros [= <-]].
  destruct (Attribute remap_el "external"); [|by intros [= <-]]. apply IH.
Qed.

Lemma push_subtree_blackboard_succeeds element st :
  blackboard_stack (output_tree st) ≠ [] →
  Forall (λ remap_el, is_Some (Attribute remap_el "internal")
                      ∧ is_Some (Attribute remap_el "external"))
         (ChildElementsNamed "remap" element) →
  ∃ new_bb st', push_subtree_blackboard element st = Ok (new_bb, st').
Proof.
  intros Hstack Hremap. unfold push_subtree_blackboard, Blackboard_create.
  destruct (last (blackboard_stack (output_tree st))) as [parent_bb|] eqn:Hlast;
    [|by apply last_None in Hlast].
  destruct (proj1 (add_remappings_succeeds
                     (boards_of st
                      ++ [{| bb_parent := Some parent_bb; bb_remapping := [];
                             bb_types := ∅ |}])
                     (length (boards_of st)) (ChildElementsNamed "remap" element)) Hremap)
    as [boards' ->].
  by eexists _, _.
Qed.

(** X15. The blackboard of a subtree is made when the stack has a
    blackboard and every <remap> child of the element has both
    attributes, internal and external, and only then; otherwise a null
    pointer is followed. The validator does not ask for the attributes:
    it accepts a <SubTree> with an ID whose children are all named remap. *)
Theorem push_subtree_blackboard_needs_attributes element st :
  ((blackboard_stack (output_tree st) ≠ []
    ∧ Forall (λ remap_el, is_Some (Attribute remap_el "internal")
                          ∧ is_Some (Attribute remap_el "external"))
             (ChildElementsNamed "remap" element))
   ↔ ∃ new_bb st', push_subtree_blackboard element st = Ok (new_bb, st'))
  ∧ (∀ e, push_subtree_blackboard element st = Err e → e = NullDereference)
  ∧ (∀ factory roots line attributes children,
       is_Some (find_attribute "ID" attributes) →
       Forall (λ child, Name child = "remap") children →
       verify_recursiveStep factory roots (Element "SubTree" line attributes children)
       = Ok tt).
Proof.
  unfold push_subtree_blackboard, Blackboard_create. split; [|split].
  - destruct (last (blackboard_stack (output_tree st))) as [parent_bb|] eqn:Hlast.
    + assert (blackboard_stack (output_tree st) ≠ []) as Hne.
      { intros Hnil. by rewrite Hnil in Hlast. }
      pose proof (add_remappings_succeeds
                    (boards_of st
                     ++ [{| bb_parent := Some parent_bb; bb_remapping := []; bb_types := ∅ |}])
                    (length (boards_of st)) (ChildElementsNamed "remap" element)) as Hiff.
      split.
      * intros [_ [boards' Hb]%Hiff]. rewrite Hb. by eexists _, _.
      * intros (new_bb & st' & Hpush). split; [done|]. apply Hiff.
        destruct (add_remappings _ _ _) as [boards'|]; [by eexists|done].
    + apply last_None in Hlast. split; [by intros [? _]|by intros (? & ? & ?)].
  - intros e. destruct (last _); [|by intros [= <-]].
    destruct (add_remappings _ _ _) as [boards'|e'] eqn:Hadd; [done|].
    intros [= <-]. by eapply add_remappings_Err.
  - intros factory roots line attributes children HID Hnames.
    rewrite verify_recursiveStep_eq. unfold verify_node, Attribute.
    cbn [Name ChildElements Attributes].
    assert (forallb (λ child, bool_decide (Name child = "remap")) children = true) as ->.
    { apply forallb_forall. intros c Hc%list_elem_of_In.
      rewrite ->Forall_forall in Hnames. by rewrite bool_decide_eq_true_2; [|apply Hnames]. }
    by rewrite (bool_decide_eq_true_2 _ HID).
Qed.

Lemma push_subtree_blackboard_needs_attributes_witness :
  push_subtree_blackboard Examples.node_remap_without_attributes
    {| output_tree := {| root_node := None; nodes := []; blackboard_stack := [0] |};
       boards_of := [Examples.root_board] |}
  = Err NullDereference
  ∧ verify_recursiveStep Examples.the_factory ∅ Examples.node_remap_without_attributes
    = Ok tt.
Proof.
  destruct (push_subtree_blackboard_needs_attributes Examples.node_remap_without_attributes
              {| output_tree := {| root_node := None; nodes := [];
                                   blackboard_stack := [0] |};
                 boards_of := [Examples.root_board] |}) as (_ & Herr & Hverify).
  split.
  - destruct (push_subtree_blackboard _ _) as [r|e] eqn:E; [by vm_compute in E|].
    by rewrite (Herr e eq_refl).
  - apply Hverify; [by eexists|by repeat constructor].
Defined.

(** ** The instantiator: a tree that is its own subtree *)

Lemma recursiveStep_of_itself env factory roots tree_ID bt element rest :
  tree_ID ∉ builders factory →
  (tree_ID ∉ ["Action"; "Decorator"; "Condition"; "SubTree"]) →
  roots !! tree_ID = Some bt →
  ChildElements bt = element :: rest →
  Name element = tree_ID →
  Attribute element "name" = None →
  Forall (λ remap_el, is_Some (Attribute remap_el "internal")
                      ∧ is_Some (Attribute remap_el "external"))
         (ChildElementsNamed "remap" element) →
  ∀ fuel bb parent st,
    blackboard_stack (output_tree st) ≠ [] →
    (∀ self, parent = Some self →
             ∃ n, nodes (output_tree st) !! self = Some n
                  ∧ node_type n = SUBTREE ∧ node_children n = []) →
    recursiveStep env factory roots fuel bb parent element st = Err OutOfFuel.
Proof.
  intros Hb Hres Hroot Hbody Hname Halias Hremap.
  assert (element_ID element = Ok tree_ID) as HID.
  { unfold element_ID. rewrite Hname !bool_decide_eq_false_2; [done|set_solver..]. }
  assert (element_instance_name element tree_ID = Ok tree_ID) as Hinst.
  { unfold element_instance_name. rewrite Halias Hname.
    destruct (decide (tree_ID = "SubTree")); [set_solver|done]. }
  induction fuel as [|fuel IH]; intros bb parent st Hstack Hparent; [done|].
  cbn [recursiveStep]. unfold add_node, createNodeFromXML. rewrite HID Hinst.
  cbn beta iota. destruct (decide (tree_ID ∈ builders factory)); [done|].
  destruct (decide (is_Some (roots !! tree_ID))) as [_|Hn];
    [|destruct Hn; rewrite Hroot; by eexists].
  cbn beta iota.
  assert (∃ nds1, link_to_parent (nodes (output_tree st)) parent
                    (length (nodes (output_tree st))) = Ok nds1
                  ∧ length nds1 = length (nodes (output_tree st))) as (nds1 & -> & Hlen).
  { unfold link_to_parent. destruct parent as [self|]; [|by eexists].
    destruct (Hparent self eq_refl) as (pa & -> & Ht & Hc).
    unfold is_ControlNode, is_DecoratorNode, setChild. rewrite Ht Hc. cbn.
    eexists. split; [done|]. by rewrite length_insert. }
  cbn beta iota. cbn [node_type DecoratorSubtreeNode].
  destruct (decide (SUBTREE = SUBTREE)); [|done].
  set (node := DecoratorSubtreeNode env tree_ID).
  set (st1 := {| output_tree := _; boards_of := boards_of st |}).
  destruct (push_subtree_blackboard_succeeds element st1) as (new_bb & st2 & Hst2);
    [done|done|]. rewrite Hst2. cbn beta iota.
  unfold tree_root_element. cbn [node_name node DecoratorSubtreeNode].
  rewrite Hroot Hbody. cbn beta iota.
  apply push_subtree_blackboard_inv
    in Hst2 as (? & ? & ? & _ & _ & Hstack2 & Hnodes2 & _).
  apply IH.
  - rewrite Hstack2. by destruct (blackboard_stack (output_tree st1)).
  - intros self [= <-]. exists node. rewrite Hnodes2. cbn [st1 output_tree nodes].
    by rewrite lookup_app_r // Nat.sub_diag.
Qed.

(** X14. The instantiator does not notice a tree that is its own
    subtree: when the root element of the main tree is written under the
    ID of the tree, which is not the ID of a builder, the instantiation
    makes one placeholder of the subtree and one blackboard after the
    other and does not return, whatever the depth of recursion that it is
    given. *)
Theorem subtree_of_itself_never_returns env factory p tree_ID bt element rest :
  main_tree_ID_of p = Ok tree_ID →
  tree_ID ∉ builders factory →
  (tree_ID ∉ ["Action"; "Decorator"; "Condition"; "SubTree"]) →
  tree_roots p !! tree_ID = Some bt →
  ChildElements bt = element :: rest →
  Name element = tree_ID →
  Attribute element "name" = None →
  Forall (λ remap_el, is_Some (Attribute remap_el "internal")
                      ∧ is_Some (Attribute remap_el "external"))
         (ChildElementsNamed "remap" element) →
  ∀ fuel boards root_bb,
    instantiateTree env factory fuel p boards (Some root_bb) = Err OutOfFuel.
Proof.
  intros Hmain Hb Hres Hroot Hbody Hname Halias Hremap fuel boards root_bb.
  unfold instantiateTree, recursivelyCreateTree, tree_root_element.
  rewrite Hmain Hroot Hbody. cbn beta iota.
  by rewrite (recursiveStep_of_itself env factory (tree_roots p) tree_ID bt element rest).
Qed.

Lemma subtree_of_itself_never_returns_witness :
  ∃ p, loadFromText Examples.the_platform Examples.the_factory 1
         (Pimpl_init Examples.the_platform) Examples.doc_recursive = Ok p
       ∧ instantiateTree Examples.the_platform Examples.the_factory 1000 p
           [Examples.root_board] (Some 0) = Err OutOfFuel.
Proof.
  eexists. split; [vm_compute; reflexivity|].
  eapply (subtree_of_itself_never_returns Examples.the_platform Examples.the_factory _
            "Again" (Examples.behavior_tree [("ID", "Again")] (Element "Again" 3 [] []))
            (Element "Again" 3 [] []) []).
  - vm_compute. reflexivity.
  - apply (bool_decide_unpack _). vm_compute. exact I.
  - apply (bool_decide_unpack _). vm_compute. exact I.
  - vm_compute. reflexivity.
  - reflexivity.
  - reflexivity.
  - reflexivity.
  - constructor.
Defined.

(** ** The loader: the directory of the includes after a load *)

(** X16. [loadFromFile] leaves the directory of its file, made absolute,
    as the directory that relative paths of <include> are joined to;
    [loadFromText] leaves the directory as it is, so the includes of a
    text are looked for in the directory of the file that was loaded
    before it, or in the working directory in a new parser. *)
Theorem current_path_after_a_load env factory fuel p p' :
  (∀ filename,
     loadFromFile env factory fuel p filename = Ok p' →
     current_path p' = make_absolute env (parent_path (path_of_string filename)))
  ∧ (∀ xml_text,
       loadFromText env factory fuel p xml_text = Ok p' →
       current_path p' = current_path p)
  ∧ current_path (Pimpl_init env) = getcwd env.
Proof.
  split; [|split; [|done]].
  - intros filename Hload. by apply loadDocImpl_current_path in Hload.
  - intros xml_text Hload. by apply loadDocImpl_current_path in Hload.
Qed.

Lemma current_path_after_a_load_witness :
  current_path (Examples.session_of Examples.doc_S1) = mkPath true ["home"].
Proof.
  destruct (current_path_after_a_load Examples.the_platform Examples.the_factory 1
              (Pimpl_init Examples.the_platform) (Examples.session_of Examples.doc_S1))
    as (_ & Htext & _).
  rewrite (Htext Examples.doc_S1); [reflexivity|]. vm_compute. reflexivity.
Defined.

(** ** The instantiator: the selection of the main tree *)

(** X17. Without the attribute main_tree_to_execute in the primary
    document, [instantiateTree] takes the only tree of the index as the
    main tree; when the index has no tree, or more than one, it fails
    with the error of the main tree, whatever the blackboard is that it
    is given. *)
Theorem main_tree_of_the_index env factory p xml_root rest :
  opened_documents p = Document (Some xml_root) :: rest →
  Attribute xml_root "main_tree_to_execute" = None →
  (size (tree_roots p) = 1 →
   ∃ tree_ID bt, tree_roots p = {[ tree_ID := bt ]} ∧ main_tree_ID_of p = Ok tree_ID)
  ∧ (size (tree_roots p) ≠ 1 →
     ∀ fuel boards root_blackboard,
       instantiateTree env factory fuel p boards root_blackboard
       = Err (UsageError "[main_tree_to_execute] was not specified correctly")).
Proof.
  intros Hdocs Hattr. unfold instantiateTree, main_tree_ID_of. rewrite Hdocs Hattr.
  pose proof (length_map_to_list (tree_roots p)) as Hsize.
  pose proof (list_to_map_to_list (tree_roots p)) as Hmap.
  destruct (map_to_list (tree_roots p)) as [|[tree_ID bt] [|??]]; cbn in Hsize.
  - split; [intros; lia|done].
  - split; [|intros; lia]. intros _. exists tree_ID, bt. split; [|done].
    rewrite -Hmap. cbn. by rewrite insert_empty.
  - split; [intros; lia|done].
Qed.

Lemma main_tree_of_the_index_witness :
  instantiateTree Examples.the_platform Examples.the_factory 4
    (Examples.session_after (Examples.session_of (Examples.doc_tree "A"))
       (Examples.doc_tree "B"))
    [Examples.root_board] None
  = Err (UsageError "[main_tree_to_execute] was not specified correctly").
Proof.
  destruct (main_tree_of_the_index Examples.the_platform Examples.the_factory
              (Examples.session_after (Examples.session_of (Examples.doc_tree "A"))
                 (Examples.doc_tree "B"))
              (Element "root" 1 []
                 [Examples.behavior_tree [("ID", "A")] (Examples.action "Ping" [])])
              [Examples.doc_tree "B"]) as [_ H].
  - vm_compute. reflexivity.
  - reflexivity.
  - apply H. vm_compute. discriminate.
Defined.

(** ** The instantiator: the blackboards of the nodes *)

Lemma add_node_blackboard env factory roots element bb parent st node self st' :
  add_node env factory roots element bb parent st = Ok (node, self, st') →
  blackboard (config node) = Some bb ∨ blackboard (config node) = None.
Proof.
  unfold add_node, createNodeFromXML.
  destruct (element_ID element) as [ID|]; [|done].
  destruct (element_instance_name element ID) as [instance_name|]; [|done].
  cbn beta iota. case_decide.
  - destruct (manifests factory !! ID) as [manifest|]; [|done].
    destruct (check_remapping_names _ _ _ _); [|done].
    destruct (init_port_types _ _ _ _ _) as [boards1|]; [|done]. cbn beta iota.
    destruct (link_to_parent _ _ _) as [nds1|]; [|done]. intros [= <- _ _].
    left. apply (config_of_lookup bb manifest (remapping_parameters_of element) "").
  - case_decide; [|done]. cbn beta iota.
    destruct (link_to_parent _ _ _) as [nds1|]; [|done]. intros [= <- _ _]. by right.
Qed.

Lemma recursiveStep_blackboards env factory roots fuel bb parent element st st' :
  recursiveStep env factory roots fuel bb parent element st = Ok st' →
  bb ∈ blackboard_stack (output_tree st) →
  blackboards_on_stack (output_tree st) → blackboards_on_stack (output_tree st').
Proof.
  intros Hrec Hbb.
  assert ((∃ new_stack, blackboard_stack (output_tree st')
                        = blackboard_stack (output_tree st) ++ new_stack)
          ∧ (blackboards_on_stack (output_tree st) →
             blackboards_on_stack (output_tree st'))) as [_ H]; [|done].
  eapply (recursiveStep_rule env factory roots
            (λ bb _ st, bb ∈ blackboard_stack (output_tree st))
            (λ st st',
               (∃ new_stack, blackboard_stack (output_tree st')
                             = blackboard_stack (output_tree st) ++ new_stack)
               ∧ (blackboards_on_stack (output_tree st) →
                  blackboards_on_stack (output_tree st'))));
    [| | | | |exact Hrec|exact Hbb].
  - intros st0. split; [|done]. exists []. by rewrite app_nil_r.
  - intros st1 st2 st3 [[l1 H1] Hp1] [[l2 H2] Hp2]. split; [|by auto].
    exists (l1 ++ l2). by rewrite H2 H1 app_assoc.
  - intros bb0 parent0 st1 st2 Hin [[l Hl] _]. rewrite Hl. set_solver.
  - intros element0 bb0 parent0 st1 node self st2 Hin Hadd.
    pose proof (add_node_blackboard _ _ _ _ _ _ _ _ _ _ Hadd) as Hnode.
    apply add_node_inv in Hadd as Hinv. destruct Hinv as (nds1 & Hlink & _ & Hnodes & _).
    assert (blackboard_stack (output_tree st2) = blackboard_stack (output_tree st1))
      as Hstack.
    { unfold add_node in Hadd.
      destruct (createNodeFromXML _ _ _ _ _ _ _ _) as [[[node1 nds2] boards2]|]; [|done].
      by injection Hadd as <- <- <-. }
    split; [split|].
    + exists []. by rewrite Hstack app_nil_r.
    + intros Hold i n x. rewrite Hnodes Hstack. intros Hi Hx.
      destruct (link_to_parent_kinds _ _ _ _ Hlink) as [Hlen _].
      destruct (link_to_parent_inv _ _ _ _ Hlink) as [_ Hsame].
      destruct (decide (i < length nds1)) as [Hlt|Hge].
      * rewrite lookup_app_l // in Hi. rewrite Hlen in Hlt.
        destruct (lookup_lt_is_Some_2 _ _ Hlt) as [n0 Hn0].
        destruct (Hsame i n0 Hn0) as (n' & Hn' & (_ & _ & _ & Hc) & _).
        rewrite Hi in Hn'. injection Hn' as <-. apply (Hold i n0 x Hn0). by rewrite -Hc.
      * rewrite lookup_app_r in Hi; [|lia].
        destruct (i - length nds1) as [|?]; [|done]. injection Hi as <-.
        destruct Hnode as [Hnode|Hnode]; rewrite Hnode in Hx; [|done].
        by injection Hx as <-.
    + by rewrite Hstack.
  - intros element0 bb0 parent0 st1 new_bb st2 Hin
      (? & ? & ? & _ & _ & Hstack & Hnodes & _)%push_subtree_blackboard_inv.
    split; [split|].
    + by exists [new_bb].
    + intros Hold i n b1. rewrite Hnodes Hstack. intros Hi Hb1.
      apply elem_of_app. left. by eapply Hold.
    + rewrite Hstack. set_solver.
Qed.

(** X18. In a tree that [instantiateTree] returns, the blackboard of
    every node is a blackboard of the stack of the tree: the node of a
    registered builder gets the blackboard of the tree or subtree that its
    element is in, and the placeholder of a subtree that is made without a
    builder has none. *)
Theorem node_blackboards_are_on_the_stack env factory fuel p boards root_blackboard b :
  instantiateTree env factory fuel p boards root_blackboard = Ok b →
  blackboards_on_stack (output_tree b).
Proof.
  intros (main_tree_ID & root_element & root_bb & st' & -> & _ & _ & Hrec
          & Hnodes & Hstack & _)%instantiateTree_inv.
  apply recursiveStep_blackboards in Hrec.
  - intros i n x. rewrite Hnodes Hstack. apply Hrec.
  - by left.
  - intros i n x Hi. by rewrite lookup_nil in Hi.
Qed.

Lemma node_blackboards_are_on_the_stack_witness :
  ∃ b, instantiateTree Examples.the_platform Examples.the_factory 4
         (Examples.session_of Examples.doc_S6) [Examples.root_board] (Some 0) = Ok b
       ∧ (blackboard ∘ config) <$> nodes (output_tree b)
         = [Some 0; Some 0; Some 0; Some 1; Some 1]
       ∧ blackboards_on_stack (output_tree b).
Proof.
  eexists. split; [vm_compute; reflexivity|]. split; [vm_compute; reflexivity|].
  match goal with
  | |- context [output_tree ?b] =>
      apply (node_blackboards_are_on_the_stack Examples.the_platform Examples.the_factory 4
               (Examples.session_of Examples.doc_S6) [Examples.root_board] (Some 0) b)
  end.
  vm_compute. reflexivity.
Defined.

(** ** The validator: the documents that it accepts *)

Lemma verify_model_Ok xml_root :
  verify_model xml_root = Ok tt
  ↔ ChildElementsNamed "TreeNodesModel" xml_root = []
    ∨ ∃ meta_root,
        ChildElementsNamed "TreeNodesModel" xml_root = [meta_root]
        ∧ Forall (λ node, Name node ∈ ["Action"; "Decorator"; "SubTree"; "Condition"] →
                          is_Some (Attribute node "ID"))
                 (ChildElements xml_root).
Proof.
  unfold verify_model.
  destruct (ChildElementsNamed "TreeNodesModel" xml_root) as [|meta_root [|meta_sibling l]].
  - split; [by left|done].
  - generalize (ChildElements xml_root) as l. intros l.
    assert ((fix loop (l : list XMLElement) : Result unit :=
               match l with
               | [] => Ok tt
               | node :: l' =>
                   let name := Name node in
                   if (bool_decide (name = "Action") || bool_decide (name = "Decorator")
                       || bool_decide (name = "SubTree") || bool_decide (name = "Condition"))
                      && negb (bool_decide (is_Some (Attribute node "ID")))
                   then ThrowError (GetLineNum node)
                          "Error at line %d: -> The attribute [ID] is mandatory"
                   else loop l'
               end) l = Ok tt
            ↔ Forall (λ node, Name node ∈ ["Action"; "Decorator"; "SubTree"; "Condition"] →
                              is_Some (Attribute node "ID")) l) as Hloop.
    { induction l as [|node l IH]; [by split; [constructor|]|].
      rewrite Forall_cons. cbn zeta.
      destruct (bool_decide (is_Some (Attribute node "ID"))) eqn:HID.
      - apply bool_decide_eq_true_1 in HID. rewrite andb_false_r IH. naive_solver.
      - apply bool_decide_eq_false_1 in HID. rewrite andb_true_r.
        destruct (bool_decide (Name node = "Action") || bool_decide (Name node = "Decorator")
                  || bool_decide (Name node = "SubTree")
                  || bool_decide (Name node = "Condition")) eqn:Hname.
        + split; [done|]. intros [H _]. destruct HID. apply H.
          repeat (apply orb_prop in Hname as [Hname|Hname]);
            apply bool_decide_eq_true_1 in Hname; rewrite Hname; set_solver.
        + rewrite IH. split; [|by intros [_ ?]]. intros Hl. split; [|done].
          intros Hin. exfalso.
          repeat (apply orb_false_elim in Hname as [Hname ?]).
          repeat match goal with
                 | H : bool_decide _ = false |- _ => apply bool_decide_eq_false_1 in H
                 end.
          set_solver. }
    rewrite Hloop. split; [intros; right; by eexists|].
    by intros [?|(? & [= <-] & ?)].
  - split; [done|]. by intros [?|(? & ? & _)].
Qed.

Lemma verify_trees_accepts factory roots bts names count :
  Forall (λ bt, ∃ body, ChildElements bt = [body]
                        ∧ verify_recursiveStep factory roots body = Ok tt) bts →
  verify_trees factory roots bts names count
  = Ok (names ++ omap (λ bt, Attribute bt "ID") bts, count + length bts).
Proof.
  intros H. revert names count.
  induction H as [|bt bts (body & Hc & Hb) _ IH]; intros names count.
  - by rewrite /= app_nil_r Nat.add_0_r.
  - cbn [verify_trees]. rewrite Hc Hb IH. cbn [omap list_omap length].
    destruct (Attribute bt "ID"); rewrite -?app_assoc /=; do 2 f_equal; lia.
Qed.

(** X19. The documents that the validator accepts are the documents
    with a root element named root that has at most one
    <TreeNodesModel>; whose children named Action, Decorator, SubTree or
    Condition have an ID when there is a <TreeNodesModel>; whose
    <BehaviorTree> elements have exactly one child each, which passes the
    check of the tree bodies; and whose attribute main_tree_to_execute is
    the ID of one of these trees or, without the attribute, that have
    exactly one tree. A document without root element is rejected. *)
Theorem verifyXML_accepts factory roots :
  (∀ xml_root,
     verifyXML factory roots (Document (Some xml_root)) = Ok tt
     ↔ Name xml_root = "root"
       ∧ (ChildElementsNamed "TreeNodesModel" xml_root = []
          ∨ ∃ meta_root,
              ChildElementsNamed "TreeNodesModel" xml_root = [meta_root]
              ∧ Forall (λ node,
                          Name node ∈ ["Action"; "Decorator"; "SubTree"; "Condition"] →
                          is_Some (Attribute node "ID"))
                       (ChildElements xml_root))
       ∧ Forall (λ bt, ∃ body, ChildElements bt = [body]
                               ∧ verify_recursiveStep factory roots body = Ok tt)
                (ChildElementsNamed "BehaviorTree" xml_root)
       ∧ match Attribute xml_root "main_tree_to_execute" with
         | Some main_tree => main_tree ∈ tree_IDs xml_root
         | None => length (ChildElementsNamed "BehaviorTree" xml_root) = 1
         end)
  ∧ (∀ error_name, verifyXML factory roots (DocError error_name) ≠ Ok tt)
  ∧ verifyXML factory roots (Document None) ≠ Ok tt.
Proof.
  split; [|done]. intros xml_root. unfold verifyXML.
  case_bool_decide as Hroot; cbn [negb]; [|naive_solver].
  rewrite -verify_model_Ok. destruct (verify_model xml_root) as [[]|] eqn:Hmodel;
    [|naive_solver].
  cbn beta iota.
  destruct (verify_trees _ _ _ _ _) as [[names count]|] eqn:Htrees.
  - pose proof (verify_trees_Ok _ _ _ _ _ _ Htrees) as Hbodies.
    apply verify_trees_result in Htrees as [= -> ->].
    unfold verify_main_tree, tree_IDs. cbn [app Nat.add].
    destruct (Attribute xml_root "main_tree_to_execute") as [main_tree|].
    + case_bool_decide; naive_solver.
    + case_bool_decide; naive_solver.
  - split; [done|]. intros (_ & _ & Hbodies & _).
    by rewrite (verify_trees_accepts _ _ _ _ _ Hbodies) in Htrees.
Qed.

(** ** The index of the trees: elements of the same ID *)

Lemma for_each_simulation {A S} (R : S → S → Prop) (body : A → S → Result S) l s t s' :
  (∀ a s t s', R s t → body a s = Ok s' → ∃ t', body a t = Ok t' ∧ R s' t') →
  R s t → for_each body l s = Ok s' → ∃ t', for_each body l t = Ok t' ∧ R s' t'.
Proof.
  intros Hbody. revert s t. induction l as [|a l IH]; intros s t HR.
  - intros [= <-]. by exists t.
  - cbn [for_each]. destruct (body a s) as [s1|] eqn:E; [|done].
    destruct (Hbody _ _ _ _ HR E) as (t1 & -> & HR1). by apply IH.
Qed.

Lemma register_tree_extends p q bt :
  extends_index p q → extends_index (register_tree p bt) (register_tree q bt).
Proof.
  intros (Hpath & Hcount & Hkeys). split; [done|]. split.
  - cbn. by rewrite Hcount.
  - intros id. rewrite !register_tree_lookup Hcount.
    destruct (tree_roots p !! id) as [e|] eqn:Hp.
    + intros _. destruct (Hkeys id) as [e' ->]; by eauto.
    + case_decide; [|by intros [? ?]]. intros _. by destruct (tree_roots q !! id).
Qed.

Lemma register_trees_extends p q xml_root :
  extends_index p q → extends_index (register_trees p xml_root) (register_trees q xml_root).
Proof.
  unfold register_trees. revert p q.
  induction (ChildElementsNamed "BehaviorTree" xml_root) as [|bt l IH]; intros p q H; [done|].
  cbn [fold_left]. by apply IH, register_tree_extends.
Qed.

Lemma loadDocImpl_extends env factory fuel p q doc p' :
  loadDocImpl env factory fuel p doc = Ok p' → extends_index p q →
  ∃ q', loadDocImpl env factory fuel q doc = Ok q' ∧ extends_index p' q'.
Proof.
  revert p q doc p'. induction fuel as [|fuel IH]; intros p q doc p'; [done|].
  cbn [loadDocImpl]. destruct doc as [|[xml_root|]]; [done| |done].
  destruct (for_each _ _ p) as [p1|] eqn:Hinc; [|done].
  destruct (verifyXML _ _ _) as [[]|] eqn:Hverify; [|done]. intros [= <-] Hpq.
  eapply (for_each_simulation extends_index) in Hinc as (q1 & -> & Hpq1); [|
    |exact Hpq].
  - cbn beta iota. pose proof (register_trees_extends _ _ xml_root Hpq1) as Hpq2.
    erewrite verifyXML_mono; [|exact (proj2 (proj2 Hpq2))|exact Hverify].
    by eexists.
  - intros include_node s t s' Hst. destruct Hst as (Hpath & Hcount & Hkeys).
    rewrite Hpath. destruct (include_path _ _ _) as [file_path|]; [|done].
    cbn beta iota zeta. intros Hload. eapply IH; [exact Hload|]. by split.
Qed.

Lemma verifyXML_Ok_iff factory roots xml_root :
  verifyXML factory roots (Document (Some xml_root)) = Ok tt
  ↔ Name xml_root = "root"
    ∧ verify_model xml_root = Ok tt
    ∧ Forall (λ bt, ∃ body, ChildElements bt = [body]
                            ∧ verify_recursiveStep factory roots body = Ok tt)
             (ChildElementsNamed "BehaviorTree" xml_root)
    ∧ match Attribute xml_root "main_tree_to_execute" with
      | Some main_tree => main_tree ∈ tree_IDs xml_root
      | None => length (ChildElementsNamed "BehaviorTree" xml_root) = 1
      end.
Proof.
  unfold verifyXML.
  case_bool_decide as Hroot; cbn [negb]; [|naive_solver].
  destruct (verify_model xml_root) as [[]|] eqn:Hmodel; [|naive_solver].
  cbn beta iota.
  destruct (verify_trees _ _ _ _ _) as [[names count]|] eqn:Htrees.
  - pose proof (verify_trees_Ok _ _ _ _ _ _ Htrees) as Hbodies.
    apply verify_trees_result in Htrees as [= -> ->].
    unfold verify_main_tree, tree_IDs. cbn [app Nat.add].
    destruct (Attribute xml_root "main_tree_to_execute") as [main_tree|].
    + case_bool_decide; naive_solver.
    + case_bool_decide; naive_solver.
  - split; [done|]. intros (_ & _ & Hbodies & _).
    by rewrite (verify_trees_accepts _ _ _ _ _ Hbodies) in Htrees.
Qed.

Lemma ChildElementsNamed_snoc n name line attributes cs c :
  Name c = n →
  ChildElementsNamed n (Element name line attributes (cs ++ [c]))
  = ChildElementsNamed n (Element name line attributes cs) ++ [c].
Proof.
  intros Hc. rewrite ChildElementsNamed_app. unfold ChildElementsNamed.
  cbn [ChildElements]. by rewrite filter_cons_True.
Qed.

Lemma ChildElementsNamed_snoc_other n name line attributes cs c :
  Name c ≠ n →
  ChildElementsNamed n (Element name line attributes (cs ++ [c]))
  = ChildElementsNamed n (Element name line attributes cs).
Proof.
  intros Hc. rewrite ChildElementsNamed_app. unfold ChildElementsNamed.
  cbn [ChildElements]. by rewrite filter_cons_False // filter_nil app_nil_r.
Qed.

Lemma register_tree_duplicate p bt id :
  Attribute bt "ID" = Some id → is_Some (tree_roots p !! id) → register_tree p bt = p.
Proof.
  intros HID [e He]. unfold register_tree, tree_name_of, map_insert_new.
  rewrite HID He. by destruct p.
Qed.

Lemma loadDocImpl_duplicate env factory fuel p name line attributes children bt id body p' :
  Name bt = "BehaviorTree" → Attribute bt "ID" = Some id → ChildElements bt = [body] →
  is_Some (find_attribute "main_tree_to_execute" attributes) →
  loadDocImpl env factory fuel p (Document (Some (Element name line attributes children)))
  = Ok p' →
  is_Some (tree_roots p' !! id) →
  verify_recursiveStep factory (tree_roots p') body = Ok tt →
  loadDocImpl env factory fuel p
    (Document (Some (Element name line attributes (children ++ [bt]))))
  = Ok p'.
Proof.
  intros Hname HID Hbody [main_tree Hmain]. destruct fuel as [|fuel]; [done|].
  cbn [loadDocImpl].
  rewrite ChildElementsNamed_snoc_other; [|by rewrite Hname].
  destruct (for_each _ _ p) as [p1|]; [|done]. cbn beta iota zeta.
  unfold register_trees. rewrite ChildElementsNamed_snoc // fold_left_app.
  set (p2 := fold_left register_tree _ p1). cbn [fold_left].
  destruct (verifyXML factory (tree_roots p2) _) as [[]|] eqn:Hverify; [|done].
  intros [= <-] Hsome Hb. rewrite (register_tree_duplicate _ _ _ HID Hsome).
  assert (verifyXML factory (tree_roots p2)
            (Document (Some (Element name line attributes (children ++ [bt])))) = Ok tt)
    as ->; [|done].
  apply verifyXML_Ok_iff in Hverify as (Hroot & Hmodel & Hbodies & Hselect).
  apply verifyXML_Ok_iff. split; [done|]. split; [|split].
  - apply verify_model_Ok in Hmodel. apply verify_model_Ok.
    rewrite ChildElementsNamed_snoc_other; [|by rewrite Hname].
    destruct Hmodel as [?|(meta_root & ? & Hall)]; [by left|right].
    exists meta_root. split; [done|]. cbn [ChildElements] in *.
    apply Forall_app. split; [done|]. constructor; [|done].
    rewrite Hname. set_solver.
  - rewrite ChildElementsNamed_snoc //.
    apply Forall_app. split; [done|]. constructor; [|done]. by exists body.
  - unfold Attribute, tree_IDs in *. cbn [Attributes] in *. rewrite Hmain in Hselect |- *.
    rewrite ChildElementsNamed_snoc // omap_app. set_solver.
Qed.


